(** * Disaster-response agents: reactive FSM kernel and FIPA-ACL messaging

    A shallow embedding of [lab3/fsm_agent.py], [lab4/fipa_acl.py] and
    [lab4/communicating_agent.py], followed by the properties of the agent
    kernel and of the message substrate.

    Conventions of the embedding.
    - Mutable objects are records that are passed in and returned.
    - [datetime.now()] reads an explicit [Clock] carried by the agent.
    - A Python call that may raise returns the state reached together with
      [Some e] when it raised [e] and [None] when it returned.
    - Fields follow the type annotations of the source ([str] is [string],
      [Optional[str]] is [option string], [Any] is [PyVal]).
    - The [logging] module writes outside the agent and is not modelled. *)

From Stdlib Require Import List String Ascii NArith ZArith Lia Bool Arith Sorted Permutation.
Import ListNotations.
Local Open Scope string_scope.
Local Open Scope list_scope.
Local Open Scope nat_scope.

(* ================================================================== *)
(** ** Dates and the clock *)

Module PyTime.

(** A naive [datetime] value, by its calendar fields. *)
Record datetime : Type := mk_datetime {
  year : N;
  month : N;
  day : N;
  hour : N;
  minute : N;
  second : N;
  microsecond : N
}.

Definition is_leap (y : N) : bool :=
  (((y mod 4 =? 0) && negb (y mod 100 =? 0)) || (y mod 400 =? 0))%N.

Definition days_in_month (y m : N) : N :=
  (if m =? 2 then (if is_leap y then 29 else 28)
   else if (m =? 4) || (m =? 6) || (m =? 9) || (m =? 11) then 30
   else 31)%N.

(** The range checks of the [datetime] constructor. *)
Definition datetime_ok (t : datetime) : bool :=
  ((1 <=? year t) && (year t <=? 9999) &&
   (1 <=? month t) && (month t <=? 12) &&
   (1 <=? day t) && (day t <=? days_in_month (year t) (month t)) &&
   (hour t <? 24) && (minute t <? 60) && (second t <? 60) &&
   (microsecond t <? 1000000))%N.

Definition digit_char (d : N) : ascii := ascii_of_N (48 + d mod 10).

Definition digit_val (c : ascii) : option N :=
  let n := N_of_ascii c in
  if ((48 <=? n) && (n <=? 57))%N then Some (n - 48)%N else None.

(** [width] decimal digits of [n], most significant first (["%02d"] and the
    like, for a value that fits). *)
Fixpoint zero_pad (width : nat) (n : N) : string :=
  match width with
  | 0 => EmptyString
  | S w => String (digit_char (n / 10 ^ N.of_nat w)) (zero_pad w n)
  end.

(** Reads exactly [width] digits from the front of [s]. *)
Fixpoint read_digits (width : nat) (s : string) (acc : N) : option (N * string) :=
  match width with
  | 0 => Some (acc, s)
  | S w =>
      match s with
      | EmptyString => None
      | String c s' =>
          match digit_val c with
          | Some d => read_digits w s' (10 * acc + d)%N
          | None => None
          end
      end
  end.

Definition expect (c : ascii) (s : string) : option string :=
  match s with
  | String c' s' => if Ascii.eqb c c' then Some s' else None
  | EmptyString => None
  end.

(** [t.strftime('%Y%m%d%H%M%S%f')] *)
Definition strftime_compact (t : datetime) : string :=
  (zero_pad 4 (year t) ++ zero_pad 2 (month t) ++ zero_pad 2 (day t) ++
   zero_pad 2 (hour t) ++ zero_pad 2 (minute t) ++ zero_pad 2 (second t) ++
   zero_pad 6 (microsecond t))%string.

(** [t.strftime("%Y-%m-%d %H:%M:%S.%f")[:-3]]: the last three of the six
    microsecond digits are cut off. *)
Definition strftime_trace (t : datetime) : string :=
  (zero_pad 4 (year t) ++ "-" ++ zero_pad 2 (month t) ++ "-" ++ zero_pad 2 (day t) ++
   " " ++ zero_pad 2 (hour t) ++ ":" ++ zero_pad 2 (minute t) ++ ":" ++
   zero_pad 2 (second t) ++ "." ++ zero_pad 3 (microsecond t / 1000))%string.

(** [t.isoformat()] of a naive datetime: the fraction is printed only when
    the microsecond field is not zero. *)
Definition isoformat (t : datetime) : string :=
  (zero_pad 4 (year t) ++ "-" ++ zero_pad 2 (month t) ++ "-" ++ zero_pad 2 (day t) ++
   "T" ++ zero_pad 2 (hour t) ++ ":" ++ zero_pad 2 (minute t) ++ ":" ++
   zero_pad 2 (second t) ++
   (if (microsecond t =? 0)%N then "" else "." ++ zero_pad 6 (microsecond t)))%string.

Definition read_fraction (s : string) : option N :=
  match s with
  | EmptyString => Some 0%N
  | _ =>
      match expect "." s with
      | Some s1 =>
          match read_digits 6 s1 0 with
          | Some (us, EmptyString) => Some us
          | _ => None
          end
      | None => None
      end
  end.

(** [datetime.fromisoformat(s)] on the two shapes [isoformat] prints for a
    naive datetime; [None] stands for [ValueError].  (The library function
    accepts further shapes, which no message of this program carries.) *)
Definition fromisoformat (s : string) : option datetime :=
  match read_digits 4 s 0 with
  | Some (y, s) =>
  match expect "-" s with
  | Some s =>
  match read_digits 2 s 0 with
  | Some (mo, s) =>
  match expect "-" s with
  | Some s =>
  match read_digits 2 s 0 with
  | Some (d, s) =>
  match expect "T" s with
  | Some s =>
  match read_digits 2 s 0 with
  | Some (h, s) =>
  match expect ":" s with
  | Some s =>
  match read_digits 2 s 0 with
  | Some (mi, s) =>
  match expect ":" s with
  | Some s =>
  match read_digits 2 s 0 with
  | Some (se, s) =>
  match read_fraction s with
  | Some us =>
      let t := mk_datetime y mo d h mi se us in
      if datetime_ok t then Some t else None
  | None => None end
  | None => None end
  | None => None end
  | None => None end
  | None => None end
  | None => None end
  | None => None end
  | None => None end
  | None => None end
  | None => None end
  | None => None end
  | None => None end.

(** The system clock: the readings [datetime.now()] will return, and how
    many of them were taken. *)
Record Clock : Type := mk_clock {
  readings : nat -> datetime;
  ticks : nat
}.

Definition now (c : Clock) : datetime * Clock :=
  (readings c (ticks c), mk_clock (readings c) (S (ticks c))).

End PyTime.
Export PyTime.

(* ================================================================== *)
(** ** Python values, exceptions and calls that may raise *)

Module PyData.

(** The values message contents and event payloads are built from.  A
    [dict] keeps its entries in insertion order; its keys are strings and
    its numbers are integers, as in every content of this program. *)
#[warnings="-register-all"]
Inductive PyVal : Type :=
| PyNone
| PyBool (b : bool)
| PyInt (z : Z)
| PyStr (s : string)
| PyList (items : list PyVal)
| PyTuple (items : list PyVal)
| PyDict (entries : list (string * PyVal)).

Definition PyDictT : Type := list (string * PyVal).

(** Induction on values, through the lists inside them. *)
Section PyValInduction.

Variable P : PyVal -> Prop.
Hypothesis P_none : P PyNone.
Hypothesis P_bool : forall b, P (PyBool b).
Hypothesis P_int : forall z, P (PyInt z).
Hypothesis P_str : forall s, P (PyStr s).
Hypothesis P_list : forall items, Forall P items -> P (PyList items).
Hypothesis P_tuple : forall items, Forall P items -> P (PyTuple items).
Hypothesis P_dict : forall entries, Forall (fun kv => P (snd kv)) entries -> P (PyDict entries).

Fixpoint PyVal_nested_ind (v : PyVal) : P v :=
  match v with
  | PyNone => P_none
  | PyBool b => P_bool b
  | PyInt z => P_int z
  | PyStr s => P_str s
  | PyList items =>
      P_list items
        ((fix go (l : list PyVal) : Forall P l :=
            match l with
            | [] => Forall_nil P
            | x :: l' => Forall_cons x (PyVal_nested_ind x) (go l')
            end) items)
  | PyTuple items =>
      P_tuple items
        ((fix go (l : list PyVal) : Forall P l :=
            match l with
            | [] => Forall_nil P
            | x :: l' => Forall_cons x (PyVal_nested_ind x) (go l')
            end) items)
  | PyDict entries =>
      P_dict entries
        ((fix go (l : list (string * PyVal)) : Forall (fun kv => P (snd kv)) l :=
            match l with
            | [] => Forall_nil _
            | (k, x) :: l' =>
                Forall_cons (P := fun kv => P (snd kv)) (k, x)
                            (PyVal_nested_ind x) (go l')
            end) entries)
  end.

End PyValInduction.

(** [d.get(k)]: [None] when the key is absent. *)
Fixpoint dict_get (d : PyDictT) (k : string) : option PyVal :=
  match d with
  | [] => None
  | (k', v) :: d' => if String.eqb k' k then Some v else dict_get d' k
  end.

(** [k in d] *)
Definition dict_mem (d : PyDictT) (k : string) : bool :=
  match dict_get d k with Some _ => true | None => false end.

(** [d[k] = v]: an existing key keeps its place. *)
Fixpoint dict_set (d : PyDictT) (k : string) (v : PyVal) : PyDictT :=
  match d with
  | [] => [(k, v)]
  | (k', v') :: d' =>
      if String.eqb k' k then (k', v) :: d' else (k', v') :: dict_set d' k v
  end.

(** [s.upper()] on ASCII letters. *)
Definition upper_char (c : ascii) : ascii :=
  let n := N_of_ascii c in
  if ((97 <=? n) && (n <=? 122))%N then ascii_of_N (n - 32) else c.

Fixpoint upper (s : string) : string :=
  match s with
  | EmptyString => EmptyString
  | String c s' => String (upper_char c) (upper s')
  end.

(** An exception object, an instance of [Exception] (what an
    [except Exception] clause catches): its class name and [str(e)]. *)
Record PyExn : Type := mk_exn {
  exn_class : string;
  exn_text : string
}.

(** The result of calling a function that returns an [A] or raises. *)
Inductive Returned (A : Type) : Type :=
| Ret (a : A)
| Exc (e : PyExn).
Arguments Ret {A} a.
Arguments Exc {A} e.

(** A method run for its effect on an object of type [S]: the object as the
    call leaves it, and the exception when the call raised. *)
Definition Proc (S : Type) : Type := S -> S * option PyExn.

Definition done {S : Type} (f : S -> S) : Proc S := fun s => (f s, None).

(** [p; q] *)
Definition andthen {S : Type} (p q : Proc S) : Proc S :=
  fun s => match p s with
           | (s1, None) => q s1
           | (s1, Some e) => (s1, Some e)
           end.

(** [try: p  except Exception as e: h(e)] *)
Definition try_except {S : Type} (p : Proc S) (h : PyExn -> Proc S) : Proc S :=
  fun s => match p s with
           | (s1, None) => (s1, None)
           | (s1, Some e) => h e s1
           end.

End PyData.
Export PyData.

(* ================================================================== *)
(** ** lab3/fsm_agent.py *)

(** [class AgentGoal] *)
Record AgentGoal : Type := mk_goal {
  goal_id : string;
  description : string;
  goal_priority : Z;
  status : string;
  created_at : datetime;
  completed_at : option datetime
}.

Definition AgentGoal_init (goal_id description : string) (priority : Z) (c : Clock)
  : AgentGoal * Clock :=
  let (t, c1) := now c in
  (mk_goal goal_id description priority "pending" t None, c1).

(** [AgentGoal.complete] *)
Definition complete (g : AgentGoal) (c : Clock) : AgentGoal * Clock :=
  let (t, c1) := now c in
  (mk_goal (goal_id g) (description g) (goal_priority g) "completed"
           (created_at g) (Some t), c1).

(** [AgentGoal.fail] *)
Definition fail (g : AgentGoal) (c : Clock) : AgentGoal * Clock :=
  let (t, c1) := now c in
  (mk_goal (goal_id g) (description g) (goal_priority g) "failed"
           (created_at g) (Some t), c1).

(** [class Event] *)
Record Event : Type := mk_event {
  event_type : string;
  data : PyDictT;
  priority : Z;
  ev_timestamp : datetime;
  event_id : string
}.

Definition Event_init (event_type : string) (data : PyDictT) (priority : Z) (c : Clock)
  : Event * Clock :=
  let (t, c1) := now c in
  (mk_event event_type data priority t
            (event_type ++ "_" ++ strftime_compact t)%string, c1).

(** [list.sort(key=..., reverse=True)] is a stable sort into descending key
    order.  [insert_stable] puts [x] behind every element whose key is not
    smaller, and [sort_desc] inserts the elements from left to right. *)
Fixpoint insert_stable {A : Type} (key : A -> Z) (x : A) (l : list A) : list A :=
  match l with
  | [] => [x]
  | y :: l' => if (key y <? key x)%Z then x :: y :: l'
               else y :: insert_stable key x l'
  end.

Definition sort_desc {A : Type} (key : A -> Z) (l : list A) : list A :=
  fold_left (fun acc x => insert_stable key x acc) l [].

(** Non-increasing keys from the head on. *)
Definition desc {A : Type} (key : A -> Z) (l : list A) : Prop :=
  StronglySorted (fun x y => (key y <= key x)%Z) l.

(** The elements with key [p]. *)
Definition same_key {A : Type} (key : A -> Z) (p : Z) (x : A) : bool :=
  (key x =? p)%Z.

Section Kernel.

(** The enumeration of states of the agent class, with [str()] of a member;
    [str()] of a payload; the fields a subclass adds to the agent. *)
Variable State : Type.
Variable State_eq_dec : forall x y : State, {x = y} + {x <> y}.
Variable state_str : State -> string.
Variable py_str : PyVal -> string.
Variable D : Type.

(** The mutable fields of an [FSMAgent], the clock its methods read, and
    in [domain] the fields of the subclass.  The list [transitions] is
    filled while the agent is built and read afterwards; it is kept beside
    this record, since its guards and actions take the agent as argument. *)
Record FSMAgent : Type := mk_agent {
  agent_id : string;
  name : string;
  current_state : State;
  goals : list AgentGoal;
  event_queue : list Event;
  state_history : list (State * datetime * string);
  execution_trace : list string;
  clock : Clock;
  domain : D
}.

Definition set_current_state (a : FSMAgent) (s : State) : FSMAgent :=
  mk_agent (agent_id a) (name a) s (goals a) (event_queue a)
           (state_history a) (execution_trace a) (clock a) (domain a).

Definition set_goals (a : FSMAgent) (g : list AgentGoal) : FSMAgent :=
  mk_agent (agent_id a) (name a) (current_state a) g (event_queue a)
           (state_history a) (execution_trace a) (clock a) (domain a).

Definition set_event_queue (a : FSMAgent) (q : list Event) : FSMAgent :=
  mk_agent (agent_id a) (name a) (current_state a) (goals a) q
           (state_history a) (execution_trace a) (clock a) (domain a).

Definition set_state_history (a : FSMAgent) (h : list (State * datetime * string))
  : FSMAgent :=
  mk_agent (agent_id a) (name a) (current_state a) (goals a) (event_queue a)
           h (execution_trace a) (clock a) (domain a).

Definition set_execution_trace (a : FSMAgent) (tr : list string) : FSMAgent :=
  mk_agent (agent_id a) (name a) (current_state a) (goals a) (event_queue a)
           (state_history a) tr (clock a) (domain a).

Definition set_clock (a : FSMAgent) (c : Clock) : FSMAgent :=
  mk_agent (agent_id a) (name a) (current_state a) (goals a) (event_queue a)
           (state_history a) (execution_trace a) c (domain a).

Definition set_domain (a : FSMAgent) (d : D) : FSMAgent :=
  mk_agent (agent_id a) (name a) (current_state a) (goals a) (event_queue a)
           (state_history a) (execution_trace a) (clock a) d.

(** [datetime.now()] as the agent sees it. *)
Definition agent_now (a : FSMAgent) : datetime * FSMAgent :=
  let (t, c1) := now (clock a) in (t, set_clock a c1).

(** [FSMAgent._log_trace] *)
Definition _log_trace (a : FSMAgent) (message : string) : FSMAgent :=
  let (t, a1) := agent_now a in
  let trace_entry :=
    ("[" ++ strftime_trace t ++ "] [" ++ agent_id a1 ++ "] " ++ message)%string in
  set_execution_trace a1 (execution_trace a1 ++ [trace_entry]).

(** [FSMAgent.__init__] *)
Definition FSMAgent_init (agent_id name : string) (initial_state : State)
    (c : Clock) (d : D) : FSMAgent :=
  let (t, c1) := now c in
  _log_trace
    (mk_agent agent_id name initial_state [] [] [(initial_state, t, "initialized")]
              [] c1 d)
    ("Agent " ++ name ++ " initialized in state " ++ state_str initial_state)%string.

(** [class Transition].  The guard [condition] reads the agent and the
    event and answers or raises; it is a predicate and leaves the agent as
    it is.  [act event] is the call [action(agent, event)], as a procedure
    on the agent. *)
Record Transition : Type := mk_transition {
  from_state : State;
  to_state : State;
  condition : FSMAgent -> Event -> Returned bool;
  action : option (Event -> Proc FSMAgent)
}.

(** [Transition.can_transition]: a guard that raises counts as [False]. *)
Definition can_transition (t : Transition) (agent : FSMAgent) (event : Event) : bool :=
  match condition t agent event with
  | Ret b => b
  | Exc _ => false
  end.

(** [Transition.execute_action] *)
Definition execute_action (t : Transition) (event : Event) : Proc FSMAgent :=
  match action t with
  | Some act => act event
  | None => done (fun a => a)
  end.

(** [FSMAgent.add_goal] *)
Definition add_goal (a : FSMAgent) (goal : AgentGoal) : FSMAgent :=
  _log_trace (set_goals a (goals a ++ [goal]))
             ("Goal added: " ++ description goal)%string.

(** [FSMAgent.add_transition] *)
Definition add_transition (transitions : list Transition) (t : Transition)
  : list Transition :=
  transitions ++ [t].

(** [FSMAgent.receive_event] *)
Definition receive_event (a : FSMAgent) (event : Event) : FSMAgent :=
  let a1 := set_event_queue a (event_queue a ++ [event]) in
  let a2 := set_event_queue a1 (sort_desc priority (event_queue a1)) in
  _log_trace a2
    ("Event received: " ++ event_type event ++ " - " ++ py_str (PyDict (data event)))%string.

(** What [_react_to_event] does once a rule matched: the action, then the
    change of state, the history entry and the trace entry. *)
Definition fire (transition : Transition) (event : Event) : Proc FSMAgent :=
  fun a =>
    let old_state := current_state a in
    andthen
      (match action transition with
       | Some _ => execute_action transition event
       | None => done (fun a => a)
       end)
      (done (fun a1 =>
        let a2 := set_current_state a1 (to_state transition) in
        let (t, a3) := agent_now a2 in
        let a4 :=
          set_state_history a3
            (state_history a3 ++
             [(current_state a3, t,
               ("transition from " ++ state_str old_state ++ " due to " ++
                event_type event)%string)]) in
        _log_trace a4
          ("State transition: " ++ state_str old_state ++ " -> " ++
           state_str (current_state a4) ++ " (triggered by " ++
           event_type event ++ ")")%string))
      a.

(** [FSMAgent._react_to_event]: the [for] loop over the rules, left by
    [break] after the first rule that fires. *)
Fixpoint _react_to_event (transitions : list Transition) (event : Event)
    (a : FSMAgent) : FSMAgent * option PyExn :=
  match transitions with
  | [] => (a, None)
  | transition :: rest =>
      if State_eq_dec (from_state transition) (current_state a) then
        if can_transition transition a event then fire transition event a
        else _react_to_event rest event a
      else _react_to_event rest event a
  end.

(** [FSMAgent.process_events].  The [while] loop runs on [fuel]: an action
    may put events back on the queue, so the loop need not end; [None] means
    the fuel ran out.  The events popped are returned beside the agent, in
    the order they were popped. *)
Fixpoint process_events_from (fuel : nat) (transitions : list Transition)
    (popped : list Event) (a : FSMAgent)
  : option (list Event * (FSMAgent * option PyExn)) :=
  match event_queue a with
  | [] => Some (popped, (a, None))
  | event :: rest =>
      match fuel with
      | 0 => None
      | S fuel' =>
          let a1 := set_event_queue a rest in
          let a2 := _log_trace a1 ("Processing event: " ++ event_type event)%string in
          match _react_to_event transitions event a2 with
          | (a3, None) =>
              process_events_from fuel' transitions (popped ++ [event]) a3
          | (a3, Some e) => Some (popped ++ [event], (a3, Some e))
          end
      end
  end.

Definition process_events (fuel : nat) (transitions : list Transition) (a : FSMAgent)
  : option (FSMAgent * option PyExn) :=
  option_map snd (process_events_from fuel transitions [] a).

(** The events one call of [process_events] pops, in order. *)
Definition dequeued (fuel : nat) (transitions : list Transition) (a : FSMAgent)
  : option (list Event) :=
  option_map fst (process_events_from fuel transitions [] a).

(** A rule matches an agent and an event when its source state is the
    agent's current state and its guard returns true. *)
Definition rule_matches (a : FSMAgent) (event : Event) (t : Transition) : Prop :=
  from_state t = current_state a /\ condition t a event = Ret true.

(** The rule with every failure of its guard turned into the answer
    [False]. *)
Definition contained (t : Transition) : Transition :=
  mk_transition (from_state t) (to_state t)
                (fun a event => Ret (can_transition t a event)) (action t).

(** No action of the rules changes the event queue. *)
Definition keeps_queue (ts : list Transition) : Prop :=
  forall t act, In t ts -> action t = Some act ->
  forall event a, event_queue (fst (act event a)) = event_queue a.

(** A driver that calls [receive_event] and [process_events] in some
    order, as [lab3_main.py] does; it returns every event popped so far. *)
Inductive Step : Type :=
| Receive (e : Event)
| Process.

Fixpoint run_steps (fuel : nat) (transitions : list Transition) (steps : list Step)
    (popped : list Event) (a : FSMAgent) : option (list Event * FSMAgent) :=
  match steps with
  | [] => Some (popped, a)
  | Receive e :: rest => run_steps fuel transitions rest popped (receive_event a e)
  | Process :: rest =>
      match process_events_from fuel transitions popped a with
      | Some (popped1, (a1, None)) => run_steps fuel transitions rest popped1 a1
      | _ => None
      end
  end.

(** [FSMAgent._check_goals]: the loop body is [pass]. *)
Definition _check_goals (a : FSMAgent) : FSMAgent := a.

(** [FSMAgent.update] *)
Definition update (fuel : nat) (transitions : list Transition) (a : FSMAgent)
  : option (FSMAgent * option PyExn) :=
  match process_events fuel transitions a with
  | Some (a1, None) => Some (_check_goals a1, None)
  | r => r
  end.

(** [FSMAgent.get_current_goal] *)
Definition get_current_goal (a : FSMAgent) : option AgentGoal :=
  find (fun goal => String.eqb (status goal) "active") (goals a).

End Kernel.

Arguments mk_agent {State D}.
Arguments agent_id {State D}.
Arguments name {State D}.
Arguments current_state {State D}.
Arguments goals {State D}.
Arguments event_queue {State D}.
Arguments state_history {State D}.
Arguments execution_trace {State D}.
Arguments clock {State D}.
Arguments domain {State D}.
Arguments set_current_state {State D}.
Arguments set_goals {State D}.
Arguments set_event_queue {State D}.
Arguments set_state_history {State D}.
Arguments set_execution_trace {State D}.
Arguments set_clock {State D}.
Arguments set_domain {State D}.
Arguments agent_now {State D}.
Arguments _log_trace {State D}.
Arguments mk_transition {State D}.
Arguments from_state {State D}.
Arguments to_state {State D}.
Arguments condition {State D}.
Arguments action {State D}.
Arguments can_transition {State D}.
Arguments execute_action {State D}.
Arguments add_goal {State D}.
Arguments add_transition {State D}.
Arguments get_current_goal {State D}.
Arguments _check_goals {State D}.
Arguments receive_event {State} py_str {D}.
Arguments fire {State} state_str {D}.
Arguments _react_to_event {State} State_eq_dec state_str {D}.
Arguments process_events_from {State} State_eq_dec state_str {D}.
Arguments process_events {State} State_eq_dec state_str {D}.
Arguments dequeued {State} State_eq_dec state_str {D}.
Arguments update {State} State_eq_dec state_str {D}.
Arguments run_steps {State} State_eq_dec state_str py_str {D}.
Arguments rule_matches {State D}.
Arguments contained {State D}.
Arguments keeps_queue {State D}.
Arguments FSMAgent_init {State} state_str {D}.

(* ================================================================== *)
(** ** lab4/fipa_acl.py *)

Module ACL.

(** [class Performative(Enum)] *)
Inductive Performative : Type :=
| INFORM
| REQUEST
| QUERY_IF
| QUERY_REF
| CONFIRM
| DISCONFIRM
| AGREE
| REFUSE
| PROPOSE
| ACCEPT_PROPOSAL
| REJECT_PROPOSAL
| CFP
| NOT_UNDERSTOOD.

(** [p.value] *)
Definition value (p : Performative) : string :=
  match p with
  | INFORM => "inform"
  | REQUEST => "request"
  | QUERY_IF => "query-if"
  | QUERY_REF => "query-ref"
  | CONFIRM => "confirm"
  | DISCONFIRM => "disconfirm"
  | AGREE => "agree"
  | REFUSE => "refuse"
  | PROPOSE => "propose"
  | ACCEPT_PROPOSAL => "accept-proposal"
  | REJECT_PROPOSAL => "reject-proposal"
  | CFP => "cfp"
  | NOT_UNDERSTOOD => "not-understood"
  end.

Definition all_performatives : list Performative :=
  [INFORM; REQUEST; QUERY_IF; QUERY_REF; CONFIRM; DISCONFIRM; AGREE; REFUSE;
   PROPOSE; ACCEPT_PROPOSAL; REJECT_PROPOSAL; CFP; NOT_UNDERSTOOD].

(** [Performative(s)]: the member whose value is [s]; [None] stands for
    [ValueError]. *)
Definition Performative_of_value (s : string) : option Performative :=
  find (fun p => String.eqb (value p) s) all_performatives.

Definition Performative_eq_dec (p q : Performative) : {p = q} + {p <> q}.
Proof. decide equality. Defined.

Definition Performative_eqb (p q : Performative) : bool :=
  if Performative_eq_dec p q then true else false.

(** [bool(p)]: a member of a plain [Enum] is true. *)
Definition Performative_truthy (p : Performative) : bool := true.

(** [class ACLMessage] *)
Record ACLMessage : Type := mk_message {
  performative : Performative;
  sender : string;
  receiver : string;
  content : PyVal;
  language : string;
  ontology : string;
  protocol : string;
  conversation_id : string;
  reply_to : option string;
  in_reply_to : option string;
  message_id : string;
  timestamp : datetime
}.

Definition default_language : string := "python-dict".
Definition default_ontology : string := "disaster-response".
Definition default_protocol : string := "fipa-request".

(** [ACLMessage._generate_message_id] *)
Definition _generate_message_id (sender : string) (c : Clock) : string * Clock :=
  let (t, c1) := now c in
  (("MSG_" ++ sender ++ "_" ++ strftime_compact t)%string, c1).

(** [ACLMessage._generate_conversation_id] *)
Definition _generate_conversation_id (c : Clock) : string * Clock :=
  let (t, c1) := now c in
  (("CONV_" ++ strftime_compact t)%string, c1).

(** [ACLMessage.__init__].  [conversation_id or ...] takes the generated id
    when the argument is [None] or the empty string. *)
Definition ACLMessage_init (performative : Performative) (sender receiver : string)
    (content : PyVal) (language ontology protocol : string)
    (conversation_id reply_to in_reply_to : option string) (c : Clock)
  : ACLMessage * Clock :=
  let (cid, c1) :=
    match conversation_id with
    | Some s => if String.eqb s "" then _generate_conversation_id c else (s, c)
    | None => _generate_conversation_id c
    end in
  let (mid, c2) := _generate_message_id sender c1 in
  let (t, c3) := now c2 in
  (mk_message performative sender receiver content language ontology protocol
              cid reply_to in_reply_to mid t, c3).

Definition opt_str (o : option string) : PyVal :=
  match o with
  | Some s => PyStr s
  | None => PyNone
  end.

(** [ACLMessage.to_dict] *)
Definition to_dict (m : ACLMessage) : PyDictT :=
  [ ("message_id", PyStr (message_id m));
    ("performative", PyStr (value (performative m)));
    ("sender", PyStr (sender m));
    ("receiver", PyStr (receiver m));
    ("content", content m);
    ("language", PyStr (language m));
    ("ontology", PyStr (ontology m));
    ("protocol", PyStr (protocol m));
    ("conversation_id", PyStr (conversation_id m));
    ("reply_to", opt_str (reply_to m));
    ("in_reply_to", opt_str (in_reply_to m));
    ("timestamp", PyStr (isoformat (timestamp m))) ].

(** Reading a field of the wire record at the type its annotation gives.
    [None] stands for the exception raised ([KeyError], [ValueError]) and
    for a value of another type, which the typed record cannot hold. *)
Definition as_str (v : PyVal) : option string :=
  match v with
  | PyStr s => Some s
  | _ => None
  end.

Definition as_opt_str (v : PyVal) : option (option string) :=
  match v with
  | PyStr s => Some (Some s)
  | PyNone => Some None
  | _ => None
  end.

(** [data[k]] read as a [str] *)
Definition item_str (data : PyDictT) (k : string) : option string :=
  match dict_get data k with
  | Some v => as_str v
  | None => None
  end.

(** [data.get(k, default)] read as a [str] *)
Definition get_str (data : PyDictT) (k default : string) : option string :=
  match dict_get data k with
  | Some v => as_str v
  | None => Some default
  end.

(** [data.get(k)] read as an [Optional[str]] *)
Definition get_opt_str (data : PyDictT) (k : string) : option (option string) :=
  match dict_get data k with
  | Some v => as_opt_str v
  | None => Some None
  end.

Definition set_message_id (m : ACLMessage) (i : string) : ACLMessage :=
  mk_message (performative m) (sender m) (receiver m) (content m) (language m)
             (ontology m) (protocol m) (conversation_id m) (reply_to m)
             (in_reply_to m) i (timestamp m).

Definition set_timestamp (m : ACLMessage) (t : datetime) : ACLMessage :=
  mk_message (performative m) (sender m) (receiver m) (content m) (language m)
             (ontology m) (protocol m) (conversation_id m) (reply_to m)
             (in_reply_to m) (message_id m) t.

(** The two [if ... in data] blocks at the end of [from_dict]. *)
Definition restore_message_id (data : PyDictT) (m : ACLMessage) : option ACLMessage :=
  match dict_get data "message_id" with
  | Some v => option_map (set_message_id m) (as_str v)
  | None => Some m
  end.

Definition restore_timestamp (data : PyDictT) (m : ACLMessage) : option ACLMessage :=
  match dict_get data "timestamp" with
  | Some v =>
      match as_str v with
      | Some s => option_map (set_timestamp m) (fromisoformat s)
      | None => None
      end
  | None => Some m
  end.

(** [ACLMessage.from_dict] *)
Definition from_dict (data : PyDictT) (c : Clock) : option (ACLMessage * Clock) :=
  match item_str data "performative" with
  | Some pv =>
  match Performative_of_value pv with
  | Some performative =>
  match item_str data "sender" with
  | Some sender =>
  match item_str data "receiver" with
  | Some receiver =>
  match dict_get data "content" with
  | Some content =>
  match get_str data "language" default_language with
  | Some language =>
  match get_str data "ontology" default_ontology with
  | Some ontology =>
  match get_str data "protocol" default_protocol with
  | Some protocol =>
  match get_opt_str data "conversation_id" with
  | Some conversation_id =>
  match get_opt_str data "reply_to" with
  | Some reply_to =>
  match get_opt_str data "in_reply_to" with
  | Some in_reply_to =>
      let (msg, c1) :=
        ACLMessage_init performative sender receiver content language ontology
                        protocol conversation_id reply_to in_reply_to c in
      match restore_message_id data msg with
      | Some msg1 =>
          match restore_timestamp data msg1 with
          | Some msg2 => Some (msg2, c1)
          | None => None
          end
      | None => None
      end
  | None => None end
  | None => None end
  | None => None end
  | None => None end
  | None => None end
  | None => None end
  | None => None end
  | None => None end
  | None => None end
  | None => None end
  | None => None end.

(** [ACLMessage.create_reply] *)
Definition create_reply (m : ACLMessage) (performative : Performative)
    (content : PyVal) (sender' : string) (c : Clock) : ACLMessage * Clock :=
  ACLMessage_init performative sender' (sender m) content (language m)
                  (ontology m) (protocol m) (Some (conversation_id m)) None
                  (Some (message_id m)) c.

(** [v is None], [isinstance(v, dict)] and [k in v] for a [dict] [v] *)
Definition is_none (v : PyVal) : bool :=
  match v with PyNone => true | _ => false end.

Definition isinstance_dict (v : PyVal) : bool :=
  match v with PyDict _ => true | _ => false end.

Definition has_key (v : PyVal) (k : string) : bool :=
  match v with PyDict d => dict_mem d k | _ => false end.

(** [ACLMessage.validate] *)
Definition validate (m : ACLMessage) : bool * option string :=
  if String.eqb (sender m) "" then (false, Some "Sender is required")
  else if String.eqb (receiver m) "" then (false, Some "Receiver is required")
  else if negb (Performative_truthy (performative m))
       then (false, Some "Performative is required")
  else if is_none (content m) then (false, Some "Content is required")
  else if Performative_eqb (performative m) REQUEST then
    if negb (isinstance_dict (content m)) || negb (has_key (content m) "action")
    then (false, Some "REQUEST performative requires content with 'action' field")
    else (true, None)
  else (true, None).

(** [MessageParser.extract_action]; [py_str] is [str()] on a content. *)
Definition extract_action (py_str : PyVal -> string) (m : ACLMessage) : PyVal :=
  if Performative_eqb (performative m) REQUEST then
    match content m with
    | PyDict d =>
        match dict_get d "action" with
        | Some v => v
        | None => PyNone
        end
    | v => PyStr (py_str v)
    end
  else PyNone.

(** [MessageParser.extract_information] *)
Definition extract_information (m : ACLMessage) : PyVal :=
  if Performative_eqb (performative m) INFORM then content m else PyNone.

(** Every reading of the clock is a valid datetime. *)
Definition clock_ok (c : Clock) : Prop := forall n, datetime_ok (readings c n) = true.

(** The messages the program can hold: built by [ACLMessage.__init__]
    (so also by [create_reply]), with the id and the time stamp possibly
    restored by [from_dict]. *)
Inductive constructed : ACLMessage -> Prop :=
| constructed_init p s r content l o pr cid rt irt c :
    clock_ok c ->
    constructed (fst (ACLMessage_init p s r content l o pr cid rt irt c))
| constructed_message_id m i :
    constructed m -> constructed (set_message_id m i)
| constructed_timestamp m t :
    constructed m -> datetime_ok t = true -> constructed (set_timestamp m t).

(** The id a construction assigns: the sender and the reading of the clock
    taken for it, which is the second reading when the conversation id is
    generated too. *)
Definition id_reading (cid : option string) (c : Clock) : datetime :=
  match cid with
  | Some x => if String.eqb x "" then readings c (S (ticks c)) else readings c (ticks c)
  | None => readings c (S (ticks c))
  end.

End ACL.
Export ACL.

(* ================================================================== *)
(** ** The [json] module, as far as [to_json] and [from_json] use it *)

Module PyJson.

(** A JSON document.  [json.dumps] prints such a document as text and
    [json.loads] reads the text back into the same document; the embedding
    works on the document.  The values printed are those of [PyVal]:
    [None], booleans, integers, strings, lists, tuples and dicts with
    string keys.  What [json] does with other values (it turns a dict key
    that is not a string into one, and raises on a set or a datetime) is
    outside the embedding, and so outside every statement made with it. *)
#[warnings="-register-all"]
Inductive Json : Type :=
| JNull
| JBool (b : bool)
| JNumber (z : Z)
| JString (s : string)
| JArray (items : list Json)
| JObject (members : list (string * Json)).

(** The document [json.dumps] prints for a value: a [list] and a [tuple]
    both become an array. *)
Fixpoint dumps (v : PyVal) : Json :=
  match v with
  | PyNone => JNull
  | PyBool b => JBool b
  | PyInt z => JNumber z
  | PyStr s => JString s
  | PyList items => JArray (map dumps items)
  | PyTuple items => JArray (map dumps items)
  | PyDict entries =>
      JObject (map (fun kv => match kv with (k, x) => (k, dumps x) end) entries)
  end.

(** The [dict] built from the members of an object, in order: a repeated
    name keeps its first place and its last value. *)
Definition dict_of_pairs (kvs : list (string * PyVal)) : PyDictT :=
  fold_left (fun d kv => dict_set d (fst kv) (snd kv)) kvs [].

(** The value [json.loads] builds for a document: an array becomes a
    [list]. *)
Fixpoint loads (j : Json) : PyVal :=
  match j with
  | JNull => PyNone
  | JBool b => PyBool b
  | JNumber z => PyInt z
  | JString s => PyStr s
  | JArray items => PyList (map loads items)
  | JObject members =>
      PyDict (dict_of_pairs
                (map (fun kv => match kv with (k, x) => (k, loads x) end) members))
  end.

(** The keys of a [dict] are pairwise different; this holds of every
    [dict] and is stated for the lists that stand for them. *)
Fixpoint distinct (keys : list string) : bool :=
  match keys with
  | [] => true
  | k :: rest => negb (existsb (String.eqb k) rest) && distinct rest
  end.

Fixpoint dict_wf (v : PyVal) : bool :=
  match v with
  | PyList items => forallb dict_wf items
  | PyTuple items => forallb dict_wf items
  | PyDict entries =>
      distinct (map fst entries) &&
      forallb (fun kv => match kv with (_, x) => dict_wf x end) entries
  | _ => true
  end.

(** No [tuple] occurs in the value. *)
Fixpoint no_tuple (v : PyVal) : bool :=
  match v with
  | PyList items => forallb no_tuple items
  | PyTuple _ => false
  | PyDict entries => forallb (fun kv => match kv with (_, x) => no_tuple x end) entries
  | _ => true
  end.

(** Induction on documents, through the lists inside them. *)
Section JsonInduction.

Variable P : Json -> Prop.
Hypothesis P_null : P JNull.
Hypothesis P_bool : forall b, P (JBool b).
Hypothesis P_number : forall z, P (JNumber z).
Hypothesis P_string : forall s, P (JString s).
Hypothesis P_array : forall items, Forall P items -> P (JArray items).
Hypothesis P_object :
  forall members, Forall (fun kv => P (snd kv)) members -> P (JObject members).

Fixpoint Json_nested_ind (j : Json) : P j :=
  match j with
  | JNull => P_null
  | JBool b => P_bool b
  | JNumber z => P_number z
  | JString s => P_string s
  | JArray items =>
      P_array items
        ((fix go (l : list Json) : Forall P l :=
            match l with
            | [] => Forall_nil P
            | x :: l' => Forall_cons x (Json_nested_ind x) (go l')
            end) items)
  | JObject members =>
      P_object members
        ((fix go (l : list (string * Json)) : Forall (fun kv => P (snd kv)) l :=
            match l with
            | [] => Forall_nil _
            | (k, x) :: l' =>
                Forall_cons (P := fun kv => P (snd kv)) (k, x)
                            (Json_nested_ind x) (go l')
            end) members)
  end.

End JsonInduction.

End PyJson.
Export PyJson.

(** [ACLMessage.to_json] *)
Definition to_json (m : ACLMessage) : Json := dumps (PyDict (to_dict m)).

(** [ACLMessage.from_json]: [from_dict] subscripts what [json.loads]
    returned, which raises unless that is a [dict]. *)
Definition from_json (j : Json) (c : Clock) : option (ACLMessage * Clock) :=
  match loads j with
  | PyDict data => from_dict data c
  | _ => None
  end.

(** The message [m] with the content [v] in place of its own. *)
Definition set_content (m : ACLMessage) (v : PyVal) : ACLMessage :=
  mk_message (performative m) (sender m) (receiver m) v (language m)
             (ontology m) (protocol m) (conversation_id m) (reply_to m)
             (in_reply_to m) (message_id m) (timestamp m).

(* ================================================================== *)
(** ** lab4/communicating_agent.py *)

Section Communicating.

Variable State : Type.
Variable State_eq_dec : forall x y : State, {x = y} + {x <> y}.
Variable state_str : State -> string.
Variable py_str : PyVal -> string.
Variable X : Type.

(** The fields [CommunicatingAgent.__init__] adds to an [FSMAgent], and
    [X] for those of a further subclass.  The handler table is kept beside
    the agent, as the transition list is. *)
Record CommFields : Type := mk_comm {
  inbox : list ACLMessage;
  outbox : list ACLMessage;
  message_history : list ACLMessage;
  ext : X
}.

Definition CommunicatingAgent : Type := @FSMAgent State CommFields.

Definition Handler : Type := ACLMessage -> Proc CommunicatingAgent.

(** [Dict[Performative, Callable]] *)
Definition HandlerTable : Type := Performative -> option Handler.

Definition no_handlers : HandlerTable := fun _ => None.

Definition set_inbox (a : CommunicatingAgent) (l : list ACLMessage) : CommunicatingAgent :=
  set_domain a (mk_comm l (outbox (domain a)) (message_history (domain a))
                        (ext (domain a))).

Definition set_outbox (a : CommunicatingAgent) (l : list ACLMessage) : CommunicatingAgent :=
  set_domain a (mk_comm (inbox (domain a)) l (message_history (domain a))
                        (ext (domain a))).

Definition set_message_history (a : CommunicatingAgent) (l : list ACLMessage)
  : CommunicatingAgent :=
  set_domain a (mk_comm (inbox (domain a)) (outbox (domain a)) l (ext (domain a))).

(** [self.message_handlers[p] = handler] *)
Definition handlers_set (tbl : HandlerTable) (p : Performative) (handler : Handler)
  : HandlerTable :=
  fun q => if Performative_eqb q p then Some handler else tbl q.

(** [CommunicatingAgent.register_message_handler] *)
Definition register_message_handler (tbl : HandlerTable) (a : CommunicatingAgent)
    (p : Performative) (handler : Handler) : HandlerTable * CommunicatingAgent :=
  (handlers_set tbl p handler,
   _log_trace a ("Registered handler for " ++ value p)%string).

(** An [Optional[str]] inside an f-string *)
Definition fmt_opt (o : option string) : string :=
  match o with
  | Some s => s
  | None => "None"
  end.

(** [CommunicatingAgent.send_message] *)
Definition send_message (a : CommunicatingAgent) (message : ACLMessage)
  : CommunicatingAgent :=
  let (is_valid, error) := validate message in
  if negb is_valid then
    _log_trace a ("ERROR: Invalid message - " ++ fmt_opt error)%string
  else
    let a1 := set_outbox a (outbox (domain a) ++ [message]) in
    let a2 := set_message_history a1 (message_history (domain a1) ++ [message]) in
    _log_trace a2
      ("SENT " ++ upper (value (performative message)) ++ " to " ++
       receiver message ++ ": " ++ py_str (content message))%string.

(** [CommunicatingAgent.receive_message] *)
Definition receive_message (a : CommunicatingAgent) (message : ACLMessage)
  : CommunicatingAgent :=
  let a1 := set_inbox a (inbox (domain a) ++ [message]) in
  let a2 := set_message_history a1 (message_history (domain a1) ++ [message]) in
  _log_trace a2
    ("RECEIVED " ++ upper (value (performative message)) ++ " from " ++
     sender message ++ ": " ++ py_str (content message))%string.

(** [original_message.create_reply(...)] followed by [self.send_message] *)
Definition send_reply (a : CommunicatingAgent) (original : ACLMessage)
    (p : Performative) (reply_content : PyVal) : CommunicatingAgent :=
  let (reply, c1) := create_reply original p reply_content (agent_id a) (clock a) in
  send_message (set_clock a c1) reply.

(** [CommunicatingAgent._send_not_understood] *)
Definition _send_not_understood (a : CommunicatingAgent)
    (original_message : ACLMessage) (reason : string) : CommunicatingAgent :=
  send_reply a original_message NOT_UNDERSTOOD
    (PyDict [("reason", PyStr reason);
             ("original_message", PyStr (message_id original_message))]).

(** [CommunicatingAgent._process_message] *)
Definition _process_message (tbl : HandlerTable) (message : ACLMessage)
  : Proc CommunicatingAgent :=
  andthen
    (done (fun a => _log_trace a ("Processing message: " ++ message_id message)%string))
    (match tbl (performative message) with
     | Some handler =>
         try_except (handler message)
           (fun e => done (fun a =>
              let a1 := _log_trace a ("ERROR in message handler: " ++ exn_text e)%string in
              _send_not_understood a1 message (exn_text e)))
     | None =>
         done (fun a =>
           let a1 :=
             _log_trace a ("No handler for " ++ value (performative message))%string in
           _send_not_understood a1 message
             ("No handler for " ++ value (performative message))%string)
     end).

(** [CommunicatingAgent.process_messages]; [None] when the fuel of the
    [while] loop ran out. *)
Fixpoint process_messages (fuel : nat) (tbl : HandlerTable) (a : CommunicatingAgent)
  : option (CommunicatingAgent * option PyExn) :=
  match inbox (domain a) with
  | [] => Some (a, None)
  | message :: rest =>
      match fuel with
      | 0 => None
      | S fuel' =>
          match _process_message tbl message (set_inbox a rest) with
          | (a1, None) => process_messages fuel' tbl a1
          | (a1, Some e) => Some (a1, Some e)
          end
      end
  end.

(** The default handlers. *)
Definition _handle_inform : Handler :=
  fun message => done (fun a =>
    let info := extract_information message in
    _log_trace a ("Informed: " ++ py_str info)%string).

Definition _handle_request : Handler :=
  fun message => done (fun a =>
    let action := extract_action py_str message in
    let a1 := _log_trace a ("Request to perform action: " ++ py_str action)%string in
    send_reply a1 message REFUSE
      (PyDict [("reason", PyStr "Action not supported"); ("action", action)])).

Definition _handle_query_if : Handler :=
  fun message => done (fun a =>
    _log_trace a ("Query: " ++ py_str (content message))%string).

Definition _handle_confirm : Handler :=
  fun message => done (fun a =>
    _log_trace a ("Confirmed: " ++ py_str (content message))%string).

Definition _handle_refuse : Handler :=
  fun message => done (fun a =>
    _log_trace a ("Request refused: " ++ py_str (content message))%string).

(** [CommunicatingAgent._register_default_handlers] *)
Definition _register_default_handlers (tbl : HandlerTable) (a : CommunicatingAgent)
  : HandlerTable * CommunicatingAgent :=
  let (t1, a1) := register_message_handler tbl a INFORM _handle_inform in
  let (t2, a2) := register_message_handler t1 a1 REQUEST _handle_request in
  let (t3, a3) := register_message_handler t2 a2 QUERY_IF _handle_query_if in
  let (t4, a4) := register_message_handler t3 a3 CONFIRM _handle_confirm in
  register_message_handler t4 a4 REFUSE _handle_refuse.

(** [CommunicatingAgent.__init__] *)
Definition CommunicatingAgent_init (agent_id name : string) (initial_state : State)
    (c : Clock) (x : X) : HandlerTable * CommunicatingAgent :=
  let a := FSMAgent_init state_str agent_id name initial_state c (mk_comm [] [] [] x) in
  let (tbl, a1) := _register_default_handlers no_handlers a in
  (tbl, _log_trace a1 "Communication capabilities initialized").

(** The reply [send_reply] builds. *)
Definition reply_of (a : CommunicatingAgent) (m : ACLMessage) (p : Performative) (ct : PyVal)
  : ACLMessage :=
  fst (create_reply m p ct (agent_id a) (clock a)).

Definition not_understood_content (m : ACLMessage) (reason : string) : PyVal :=
  PyDict [("reason", PyStr reason); ("original_message", PyStr (message_id m))].

(** What the fallback of [_process_message] comes to, when it runs from
    the agent [a1] with the reason [reason]: the call returns, one
    [not-understood] reply to the sender of [m] is behind what the outbox
    held, and the loop of [process_messages] goes on. *)
Definition fallback_outcome (tbl : HandlerTable) (m : ACLMessage) (a a1 : CommunicatingAgent)
    (reason : string) : Prop :=
  exists a',
    _process_message tbl m a = (a', None) /\
    let reply := reply_of a1 m NOT_UNDERSTOOD (not_understood_content m reason) in
    outbox (domain a') = outbox (domain a1) ++ [reply] /\
    message_history (domain a') = message_history (domain a1) ++ [reply] /\
    inbox (domain a') = inbox (domain a1) /\
    performative reply = NOT_UNDERSTOOD /\
    receiver reply = sender m /\
    sender reply = agent_id a1 /\
    content reply = not_understood_content m reason /\
    in_reply_to reply = Some (message_id m) /\
    forall fuel b rest,
      inbox (domain b) = m :: rest -> set_inbox b rest = a ->
      process_messages (S fuel) tbl b = process_messages fuel tbl a'.

(** The handler table [_register_default_handlers] leaves in an agent
    that had none. *)
Definition default_handlers : HandlerTable :=
  handlers_set
    (handlers_set
       (handlers_set
          (handlers_set (handlers_set no_handlers INFORM _handle_inform)
                        REQUEST _handle_request)
          QUERY_IF _handle_query_if)
       CONFIRM _handle_confirm)
    REFUSE _handle_refuse.

(** [CommunicatingAgent.update]: the messages first, then the events. *)
Definition comm_update (fuel : nat) (tbl : HandlerTable)
    (transitions : list (@Transition State CommFields)) (a : CommunicatingAgent)
  : option (CommunicatingAgent * option PyExn) :=
  match process_messages fuel tbl a with
  | Some (a1, None) => update State_eq_dec state_str fuel transitions a1
  | r => r
  end.

End Communicating.

Arguments mk_comm {X}.
Arguments inbox {X}.
Arguments outbox {X}.
Arguments message_history {X}.
Arguments ext {X}.
Arguments set_inbox {State X}.
Arguments set_outbox {State X}.
Arguments set_message_history {State X}.
Arguments no_handlers {State X}.
Arguments handlers_set {State X}.
Arguments register_message_handler {State X}.
Arguments send_message {State} py_str {X}.
Arguments receive_message {State} py_str {X}.
Arguments send_reply {State} py_str {X}.
Arguments _send_not_understood {State} py_str {X}.
Arguments _process_message {State} py_str {X}.
Arguments process_messages {State} py_str {X}.
Arguments _handle_inform {State} py_str {X}.
Arguments _handle_request {State} py_str {X}.
Arguments _handle_query_if {State} py_str {X}.
Arguments _handle_confirm {State} py_str {X}.
Arguments _handle_refuse {State} py_str {X}.
Arguments _register_default_handlers {State} py_str {X}.
Arguments default_handlers {State} py_str {X}.
Arguments CommunicatingAgent_init {State} state_str py_str {X}.
Arguments comm_update {State} State_eq_dec state_str py_str {X}.
Arguments reply_of {State X}.
Arguments not_understood_content m reason : assert.
Arguments fallback_outcome {State} py_str {X}.

(* ================================================================== *)
(** ** Concrete agents, events and messages *)

Module Scenario.

(** [lab3/rescue_agent.py]: [class RescueAgentState(Enum)] *)
Inductive RescueAgentState : Type :=
| IDLE
| RESPONDING
| RESCUING
| TRANSPORTING
| COMPLETED.

Definition RescueAgentState_eq_dec (x y : RescueAgentState) : {x = y} + {x <> y}.
Proof. decide equality. Defined.

Definition state_str (s : RescueAgentState) : string :=
  match s with
  | IDLE => "RescueAgentState.IDLE"
  | RESPONDING => "RescueAgentState.RESPONDING"
  | RESCUING => "RescueAgentState.RESCUING"
  | TRANSPORTING => "RescueAgentState.TRANSPORTING"
  | COMPLETED => "RescueAgentState.COMPLETED"
  end.

(** A rendering of values for the trace; the properties below hold for
    any. *)
Definition show (v : PyVal) : string :=
  match v with
  | PyNone => "None"
  | PyBool true => "True"
  | PyBool false => "False"
  | PyStr s => s
  | PyInt _ => "<int>"
  | PyList _ => "<list>"
  | PyTuple _ => "<tuple>"
  | PyDict _ => "<dict>"
  end.

Definition noon : datetime := mk_datetime 2026 1 15 12 0 0 0.

(** A clock that advances by a microsecond at every reading, and one whose
    readings all fall into the same microsecond. *)
Definition ticking : Clock :=
  mk_clock (fun n => mk_datetime 2026 1 15 12 0 ((N.of_nat n / 1000000) mod 60)
                                 (N.of_nat n mod 1000000)) 0.

Definition frozen : Clock := mk_clock (fun _ => noon) 0.

Definition fire_detected : Event :=
  mk_event "FIRE_DETECTED" [] 4 noon "FIRE_DETECTED_20260115120000000000".

Definition building_collapse : Event :=
  mk_event "BUILDING_COLLAPSE" [] 5 noon "BUILDING_COLLAPSE_20260115120000000000".

Definition rescuer : @FSMAgent RescueAgentState unit :=
  FSMAgent_init state_str "rescue_1" "Rescue Team" IDLE ticking tt.

(** IDLE to RESPONDING on a building collapse. *)
Definition on_collapse : @Transition RescueAgentState unit :=
  mk_transition IDLE RESPONDING
    (fun _ event => Ret (String.eqb (event_type event) "BUILDING_COLLAPSE"))
    None.

(** IDLE to RESPONDING on a fire, with an action that reports the
    collapse of the burning building to the agent itself. *)
Definition escalate : @Transition RescueAgentState unit :=
  mk_transition IDLE RESPONDING
    (fun _ event => Ret (String.eqb (event_type event) "FIRE_DETECTED"))
    (Some (fun _ => done (fun a => receive_event show a building_collapse))).

(** A rule whose guard reads a payload field that is not there. *)
Definition broken_guard : @Transition RescueAgentState unit :=
  mk_transition IDLE RESCUING
    (fun _ event =>
       match dict_get (data event) "location" with
       | Some _ => Ret true
       | None => Exc (mk_exn "KeyError" "'location'")
       end)
    None.

(** A communicating agent [B] with the default handlers, and messages of
    an agent [A] to it. *)
Definition agent_b : @CommunicatingAgent RescueAgentState unit :=
  snd (CommunicatingAgent_init state_str show "agent_b" "Agent B" IDLE ticking tt).

Definition investigate : PyVal :=
  PyDict [("action", PyStr "investigate_location");
          ("parameters", PyDict [("location", PyTuple [PyInt 3; PyInt 4])])].

Definition request_a : ACLMessage :=
  fst (ACLMessage_init REQUEST "agent_a" "agent_b" investigate default_language
         default_ontology default_protocol None None None ticking).

Definition disconfirm_a : ACLMessage :=
  fst (ACLMessage_init DISCONFIRM "agent_a" "agent_b"
         (PyDict [("proposition", PyStr "area_clear")]) default_language
         default_ontology default_protocol None None None ticking).

Definition inform_a : ACLMessage :=
  fst (ACLMessage_init INFORM "agent_a" "agent_b"
         (PyDict [("fact", PyStr "road_blocked")]) default_language
         default_ontology default_protocol None None None ticking).

Definition agree_a : ACLMessage :=
  fst (ACLMessage_init AGREE "agent_a" "agent_b"
         (PyDict [("action", PyStr "return_to_base")]) default_language
         default_ontology default_protocol None None None ticking).

(** A message that names no sender, and a request without an action. *)
Definition anonymous : ACLMessage :=
  fst (ACLMessage_init AGREE "" "agent_b" (PyDict []) default_language
         default_ontology default_protocol None None None ticking).

Definition anonymous_request : ACLMessage :=
  fst (ACLMessage_init REQUEST "" "agent_b" investigate default_language
         default_ontology default_protocol None None None ticking).

Definition bare_request : ACLMessage :=
  fst (ACLMessage_init REQUEST "agent_a" "agent_b"
         (PyDict [("parameters", PyDict [])]) default_language
         default_ontology default_protocol None None None ticking).

(** An agent built with an empty id. *)
Definition nameless : @CommunicatingAgent RescueAgentState unit :=
  snd (CommunicatingAgent_init state_str show "" "Nameless" IDLE ticking tt).

(** A handler that raises. *)
Definition failing_handler : @Handler RescueAgentState unit :=
  fun _ a => (a, Some (mk_exn "KeyError" "'mission'")).

End Scenario.

(* ================================================================== *)
(** ** Further code: the message parser and chains of replies *)

(** A [dict] from strings to values of type [V], in insertion order. *)
Fixpoint adict_get {V : Type} (d : list (string * V)) (k : string) : option V :=
  match d with
  | [] => None
  | (k', v) :: d' => if String.eqb k' k then Some v else adict_get d' k
  end.

Fixpoint adict_set {V : Type} (d : list (string * V)) (k : string) (v : V)
  : list (string * V) :=
  match d with
  | [] => [(k, v)]
  | (k', v') :: d' =>
      if String.eqb k' k then (k', v) :: d' else (k', v') :: adict_set d' k v
  end.

(** [del d[k]] for a key that is there *)
Definition adict_del {V : Type} (d : list (string * V)) (k : string)
  : list (string * V) :=
  filter (fun entry => negb (String.eqb (fst entry) k)) d.

(** The values [MessageParser.parse] puts into its result: the performative
    itself, the time stamp itself, and strings and contents. *)
Inductive ParsedVal : Type :=
| PVal (v : PyVal)
| PPerformative (p : Performative)
| PDatetime (t : datetime).

(** [content.get(k, default)] for a [dict] content *)
Definition get_or (d : PyDictT) (k : string) (default : PyVal) : PyVal :=
  match dict_get d k with
  | Some v => v
  | None => default
  end.

(** [MessageParser.parse] *)
Definition parse (message : ACLMessage) : list (string * ParsedVal) :=
  let parsed :=
    [ ("performative", PPerformative (performative message));
      ("sender", PVal (PyStr (sender message)));
      ("receiver", PVal (PyStr (receiver message)));
      ("conversation_id", PVal (PyStr (conversation_id message)));
      ("timestamp", PDatetime (timestamp message)) ] in
  if Performative_eqb (performative message) INFORM then
    let parsed1 := adict_set parsed "information" (PVal (content message)) in
    adict_set parsed1 "fact"
      (PVal (match content message with
             | PyDict d => get_or d "fact" PyNone
             | v => v
             end))
  else if Performative_eqb (performative message) REQUEST then
    match content message with
    | PyDict d =>
        let parsed1 := adict_set parsed "action" (PVal (get_or d "action" PyNone)) in
        adict_set parsed1 "parameters" (PVal (get_or d "parameters" (PyDict [])))
    | v =>
        let parsed1 := adict_set parsed "action" (PVal v) in
        adict_set parsed1 "parameters" (PVal (PyDict []))
    end
  else if Performative_eqb (performative message) QUERY_IF then
    adict_set parsed "query" (PVal (content message))
  else if Performative_eqb (performative message) CONFIRM
          || Performative_eqb (performative message) DISCONFIRM then
    adict_set parsed "proposition" (PVal (content message))
  else if Performative_eqb (performative message) AGREE
          || Performative_eqb (performative message) REFUSE then
    adict_set parsed "action" (PVal (content message))
  else parsed.

(** A conversation continued by [create_reply] only: each step replies to
    the message before it, with its own performative, content and sender. *)
Fixpoint reply_chain (m : ACLMessage) (steps : list (Performative * PyVal * string))
    (c : Clock) : list ACLMessage * Clock :=
  match steps with
  | [] => ([], c)
  | (p, ct, s) :: rest =>
      let (r, c1) := create_reply m p ct s c in
      let (rs, c2) := reply_chain r rest c1 in
      (r :: rs, c2)
  end.

(** Each message of the list answers the one before it. *)
Fixpoint linked (prev : ACLMessage) (l : list ACLMessage) : Prop :=
  match l with
  | [] => True
  | r :: rest =>
      in_reply_to r = Some (message_id prev) /\ receiver r = sender prev /\
      linked r rest
  end.

(* ================================================================== *)
(** ** Further code: what the kernel keeps *)

Section KernelInvariants.

Variable State : Type.
Variable D : Type.

(** The entry written last into the state history is for the current
    state. *)
Definition history_tracks_state (a : @FSMAgent State D) : Prop :=
  exists h t reason, state_history a = h ++ [(current_state a, t, reason)].

(** No action of the rules changes the state history. *)
Definition keeps_history (ts : list (@Transition State D)) : Prop :=
  forall t act, In t ts -> action t = Some act ->
  forall event a, state_history (fst (act event a)) = state_history a.

End KernelInvariants.

Arguments history_tracks_state {State D}.
Arguments keeps_history {State D}.

(* ================================================================== *)
(** ** Further code: the accessors of the communicating agent *)

Section CommAccessors.

Variable State : Type.
Variable X : Type.

(** [CommunicatingAgent.get_sent_messages] *)
Definition get_sent_messages (a : @CommunicatingAgent State X) : list ACLMessage :=
  filter (fun msg => String.eqb (sender msg) (agent_id a)) (message_history (domain a)).

(** [CommunicatingAgent.get_received_messages] *)
Definition get_received_messages (a : @CommunicatingAgent State X) : list ACLMessage :=
  filter (fun msg => String.eqb (receiver msg) (agent_id a))
         (message_history (domain a)).

(** [CommunicatingAgent.get_conversation_messages] *)
Definition get_conversation_messages (a : @CommunicatingAgent State X)
    (conversation : string) : list ACLMessage :=
  filter (fun msg => String.eqb (conversation_id msg) conversation)
         (message_history (domain a)).

(** No handler of the table changes the inbox. *)
Definition keeps_inbox (tbl : @HandlerTable State X) : Prop :=
  forall p h, tbl p = Some h ->
  forall m a, inbox (domain (fst (h m a))) = inbox (domain a).

(** Every message waiting in the outbox passes [validate]. *)
Definition outbox_valid (a : @CommunicatingAgent State X) : Prop :=
  Forall (fun m => fst (validate m) = true) (outbox (domain a)).

(** Every message waiting in the inbox or the outbox is in the message
    history. *)
Definition recorded (a : @CommunicatingAgent State X) : Prop :=
  incl (outbox (domain a)) (message_history (domain a)) /\
  incl (inbox (domain a)) (message_history (domain a)).

End CommAccessors.

Arguments get_sent_messages {State X}.
Arguments get_received_messages {State X}.
Arguments get_conversation_messages {State X}.
Arguments keeps_inbox {State X}.
Arguments outbox_valid {State X}.
Arguments recorded {State X}.

(* ================================================================== *)
(** ** lab4/lab4_main.py: the message router *)

(** [l[i] = x]; the program never assigns out of range, where this does
    nothing. *)
Fixpoint put {A : Type} (i : nat) (x : A) (l : list A) : list A :=
  match l, i with
  | [], _ => []
  | _ :: l', 0 => x :: l'
  | y :: l', S i' => y :: put i' x l'
  end.

(** The messages of [msgs] addressed to the agent with the id [id]. *)
Definition messages_for (id : string) (msgs : list ACLMessage) : list ACLMessage :=
  filter (fun m => String.eqb (receiver m) id) msgs.

Section Router.

Variable State : Type.
Variable py_str : PyVal -> string.
Variable X : Type.

(** The inner loop of [route_messages]: the first agent whose id is the
    receiver of the message receives it, and the loop is left.  The list
    holds the agents themselves, each of them once. *)
Fixpoint deliver (agents : list (@CommunicatingAgent State X)) (msg : ACLMessage)
  : list (@CommunicatingAgent State X) :=
  match agents with
  | [] => []
  | receiver_agent :: rest =>
      if String.eqb (agent_id receiver_agent) (receiver msg)
      then receive_message py_str receiver_agent msg :: rest
      else receiver_agent :: deliver rest msg
  end.

(** The [while sender.outbox] loop for the sender at position [i]; [None]
    when the fuel ran out. *)
Fixpoint drain_outbox (fuel : nat) (i : nat)
    (agents : list (@CommunicatingAgent State X))
  : option (list (@CommunicatingAgent State X)) :=
  match nth_error agents i with
  | None => Some agents
  | Some sender_agent =>
      match outbox (domain sender_agent) with
      | [] => Some agents
      | msg :: rest =>
          match fuel with
          | 0 => None
          | S fuel' =>
              drain_outbox fuel' i
                (deliver (put i (set_outbox sender_agent rest) agents) msg)
          end
      end
  end.

(** The [for sender in agents] loop, from position [i] on for [n] agents. *)
Fixpoint route_from (fuel : nat) (i n : nat)
    (agents : list (@CommunicatingAgent State X))
  : option (list (@CommunicatingAgent State X)) :=
  match n with
  | 0 => Some agents
  | S n' =>
      match drain_outbox fuel i agents with
      | Some agents1 => route_from fuel (S i) n' agents1
      | None => None
      end
  end.

(** [route_messages(agents)] *)
Definition route_messages (fuel : nat) (agents : list (@CommunicatingAgent State X))
  : option (list (@CommunicatingAgent State X)) :=
  route_from fuel 0 (List.length agents) agents.

(** The messages of [msgs] addressed to the agent [a]. *)
Definition addressed_to (a : @CommunicatingAgent State X) (msgs : list ACLMessage)
  : list ACLMessage :=
  messages_for (agent_id a) msgs.

End Router.

Arguments deliver {State} py_str {X}.
Arguments drain_outbox {State} py_str {X}.
Arguments route_from {State} py_str {X}.
Arguments route_messages {State} py_str {X}.
Arguments addressed_to {State X}.

(* ================================================================== *)
(** ** lab4/message_logger.py: the message log *)

Module MessageLog.

(** [MessageLogger]: the messages in the order they were logged, and the
    same messages grouped by conversation id. *)
Record MessageLogger : Type := mk_logger {
  messages : list ACLMessage;
  conversations : list (string * list ACLMessage)
}.

(** [MessageLogger.__init__] *)
Definition MessageLogger_init : MessageLogger := mk_logger [] [].

(** [MessageLogger.log_message] *)
Definition log_message (self : MessageLogger) (message : ACLMessage) : MessageLogger :=
  let messages1 := messages self ++ [message] in
  let conv_id := conversation_id message in
  let conversations1 :=
    match adict_get (conversations self) conv_id with
    | None => adict_set (conversations self) conv_id []
    | Some _ => conversations self
    end in
  (* [self.conversations[conv_id].append(message)]: the key is there *)
  match adict_get conversations1 conv_id with
  | Some conversation =>
      mk_logger messages1 (adict_set conversations1 conv_id (conversation ++ [message]))
  | None => mk_logger messages1 conversations1
  end.

(** [MessageLogger.get_messages_by_agent] *)
Definition get_messages_by_agent (self : MessageLogger) (agent_id : string)
  : list ACLMessage :=
  filter (fun msg => String.eqb (sender msg) agent_id || String.eqb (receiver msg) agent_id)
         (messages self).

(** [MessageLogger.get_messages_by_performative] *)
Definition get_messages_by_performative (self : MessageLogger) (p : Performative)
  : list ACLMessage :=
  filter (fun msg => Performative_eqb (performative msg) p) (messages self).

(** [MessageLogger.get_conversation] *)
Definition get_conversation (self : MessageLogger) (conversation_id : string)
  : list ACLMessage :=
  match adict_get (conversations self) conversation_id with
  | Some conversation => conversation
  | None => []
  end.

(** [d.get(k, 0)] *)
Definition get_count (d : list (string * nat)) (k : string) : nat :=
  match adict_get d k with
  | Some n => n
  | None => 0
  end.

(** [d[k] = d.get(k, 0) + 1] *)
Definition count_up (d : list (string * nat)) (k : string) : list (string * nat) :=
  adict_set d k (get_count d k + 1).

(** The [dict] that [get_statistics] returns, by its four keys. *)
Record Statistics : Type := mk_statistics {
  total_messages : nat;
  total_conversations : nat;
  by_performative : list (string * nat);
  by_agent : list (string * nat)
}.

(** [MessageLogger.get_statistics] *)
Definition get_statistics (self : MessageLogger) : Statistics :=
  let by_performative1 :=
    fold_left (fun d msg => count_up d (value (performative msg))) (messages self) [] in
  let by_agent1 :=
    fold_left (fun d msg => count_up d (sender msg)) (messages self) [] in
  mk_statistics (List.length (messages self)) (List.length (conversations self))
                by_performative1 by_agent1.

(** The logger after [log_message] was called on each message of [msgs] in
    turn, from a new logger. *)
Definition logged (msgs : list ACLMessage) : MessageLogger :=
  fold_left log_message msgs MessageLogger_init.

(** The messages of the conversation [cid] among [msgs]. *)
Definition in_conversation (cid : string) (msgs : list ACLMessage) : list ACLMessage :=
  filter (fun m => String.eqb (conversation_id m) cid) msgs.

(** The messages of [msgs] that the agent [id] sent. *)
Definition sent_by (id : string) (msgs : list ACLMessage) : list ACLMessage :=
  filter (fun m => String.eqb (sender m) id) msgs.

(** What a table of counts holds under a key that was counted [n] times:
    no entry when [n] is zero. *)
Definition count_entry (n : nat) : option nat :=
  match n with
  | 0 => None
  | S _ => Some n
  end.

End MessageLog.
Export MessageLog.

(* ================================================================== *)
(** ** lab3/rescue_agent.py: the rescue agent on the grid *)

(** [f] called [k] times in a row. *)
Fixpoint calls {A : Type} (k : nat) (f : A -> A) (a : A) : A :=
  match k with
  | 0 => a
  | S k' => calls k' f (f a)
  end.

(** The number of moves between two places of the grid, when a move may
    change both coordinates by one. *)
Definition grid_distance (p q : Z * Z) : Z :=
  Z.max (Z.abs (fst q - fst p)) (Z.abs (snd q - snd p)).

Section RescueGrid.

Variable State : Type.
Variable py_str : PyVal -> string.

(** The fields [RescueAgent.__init__] adds.  A location is a pair of
    integers, as [(0, 0)] is and as every event of the program carries
    it; [target_location] is [None] or such a pair. *)
Record RescueFields : Type := mk_rescue {
  current_location : Z * Z;
  target_location : option (Z * Z);
  rescued_count : Z;
  current_mission : option PyDictT
}.

Definition RescueAgent : Type := @FSMAgent State RescueFields.

Definition set_current_location (a : RescueAgent) (l : Z * Z) : RescueAgent :=
  set_domain a (mk_rescue l (target_location (domain a)) (rescued_count (domain a))
                          (current_mission (domain a))).

(** [str()] of a location *)
Definition location_str (l : Z * Z) : string :=
  py_str (PyTuple [PyInt (fst l); PyInt (snd l)]).

(** [p == q] on locations *)
Definition location_eqb (p q : Z * Z) : bool :=
  ((fst p =? fst q) && (snd p =? snd q))%Z.

(** [RescueAgent._move_toward_target].  A target that is a pair is true
    in the test, whatever its coordinates. *)
Definition _move_toward_target (a : RescueAgent) : RescueAgent :=
  match target_location (domain a) with
  | Some (tx, ty) =>
      if negb (location_eqb (current_location (domain a)) (tx, ty)) then
        let (x, y) := current_location (domain a) in
        let new_x := (x + (if tx >? x then 1 else if tx <? x then -1 else 0))%Z in
        let new_y := (y + (if ty >? y then 1 else if ty <? y then -1 else 0))%Z in
        let a1 := set_current_location a (new_x, new_y) in
        _log_trace a1
          ("Moving to target: now at " ++ location_str (current_location (domain a1)))
      else a
  | None => a
  end.

(** [RescueAgent._move_to_base] *)
Definition _move_to_base (a : RescueAgent) : RescueAgent :=
  let base_location := (0, 0)%Z in
  if negb (location_eqb (current_location (domain a)) base_location) then
    let (x, y) := current_location (domain a) in
    let new_x := (x + (if 0 >? x then 1 else if 0 <? x then -1 else 0))%Z in
    let new_y := (y + (if 0 >? y then 1 else if 0 <? y then -1 else 0))%Z in
    let a1 := set_current_location a (new_x, new_y) in
    _log_trace a1
      ("Returning to base: now at " ++ location_str (current_location (domain a1)))
  else a.

End RescueGrid.

Arguments mk_rescue : clear implicits.
Arguments current_location : clear implicits.
Arguments target_location : clear implicits.
Arguments rescued_count : clear implicits.
Arguments current_mission : clear implicits.
Arguments set_current_location {State}.
Arguments _move_toward_target {State} py_str.
Arguments _move_to_base {State} py_str.

(* ================================================================== *)
(** ** lab4/field_agent.py: the field agent and the requests it is sent *)

(** [type(v).__name__] *)
Definition type_name (v : PyVal) : string :=
  match v with
  | PyNone => "NoneType"
  | PyBool _ => "bool"
  | PyInt _ => "int"
  | PyStr _ => "str"
  | PyList _ => "list"
  | PyTuple _ => "tuple"
  | PyDict _ => "dict"
  end.

(** What [v.get(...)] raises when [v] is not a [dict]. *)
Definition no_get (v : PyVal) : PyExn :=
  mk_exn "AttributeError" ("'" ++ type_name v ++ "' object has no attribute 'get'").

(** [v == s] for a string literal [s] *)
Definition is_str (v : PyVal) (s : string) : bool :=
  match v with
  | PyStr x => String.eqb x s
  | _ => false
  end.

Module Field.

(** [class FieldAgentState] *)
Inductive FieldAgentState : Type :=
| IDLE
| TRAVELING
| INVESTIGATING
| REPORTING
| COMPLETED.

Definition state_str (s : FieldAgentState) : string :=
  match s with
  | IDLE => "FieldAgentState.IDLE"
  | TRAVELING => "FieldAgentState.TRAVELING"
  | INVESTIGATING => "FieldAgentState.INVESTIGATING"
  | REPORTING => "FieldAgentState.REPORTING"
  | COMPLETED => "FieldAgentState.COMPLETED"
  end.

(** [s.value] *)
Definition state_value (s : FieldAgentState) : string :=
  match s with
  | IDLE => "idle"
  | TRAVELING => "traveling"
  | INVESTIGATING => "investigating"
  | REPORTING => "reporting"
  | COMPLETED => "completed"
  end.

(** The fields [FieldAgent.__init__] adds to a [CommunicatingAgent]. *)
Record FieldFields : Type := mk_field {
  current_location : PyVal;
  target_location : PyVal;
  current_mission : option PyDictT;
  coordinator_id : option string;
  discoveries : list string
}.

Definition FieldAgent : Type := @CommunicatingAgent FieldAgentState FieldFields.

Definition fields (a : FieldAgent) : FieldFields := ext (domain a).

Definition set_fields (a : FieldAgent) (f : FieldFields) : FieldAgent :=
  set_domain a (mk_comm (inbox (domain a)) (outbox (domain a))
                        (message_history (domain a)) f).

Definition set_target_location (a : FieldAgent) (v : PyVal) : FieldAgent :=
  set_fields a (mk_field (current_location (fields a)) v (current_mission (fields a))
                         (coordinator_id (fields a)) (discoveries (fields a))).

Definition set_current_mission (a : FieldAgent) (m : option PyDictT) : FieldAgent :=
  set_fields a (mk_field (current_location (fields a)) (target_location (fields a)) m
                         (coordinator_id (fields a)) (discoveries (fields a))).

Definition set_coordinator_id (a : FieldAgent) (c : option string) : FieldAgent :=
  set_fields a (mk_field (current_location (fields a)) (target_location (fields a))
                         (current_mission (fields a)) c (discoveries (fields a))).

Section Handlers.

Variable py_str : PyVal -> string.

(** [FieldAgent.set_coordinator] *)
Definition set_coordinator (a : FieldAgent) (coordinator : string) : FieldAgent :=
  let a1 := set_coordinator_id a (Some coordinator) in
  _log_trace a1 ("Assigned to coordinator: " ++ coordinator).

(** [FieldAgent._accept_investigation_mission].  [parameters.get] raises
    when [parameters] is not a [dict], before anything is assigned. *)
Definition _accept_investigation_mission (request_msg : ACLMessage) (parameters : PyVal)
  : Proc FieldAgent :=
  fun a =>
    match current_mission (fields a) with
    | Some _ =>
        (send_reply py_str a request_msg REFUSE
           (PyDict [("reason", PyStr "Already on active mission")]), None)
    | None =>
        match parameters with
        | PyDict d =>
            let a1 :=
              set_current_mission a
                (Some [("action", PyStr "investigate_location");
                       ("location", get_or d "location" PyNone);
                       ("type", get_or d "mission_type" PyNone);
                       ("priority", get_or d "priority" PyNone);
                       ("investigation_complete", PyBool false);
                       ("conversation_id", PyStr (conversation_id request_msg))]) in
            let a2 := set_target_location a1 (get_or d "location" PyNone) in
            let a3 := set_coordinator_id a2 (Some (sender request_msg)) in
            let a4 :=
              send_reply py_str a3 request_msg AGREE
                (PyDict [("action", PyStr "investigate_location");
                         ("location", target_location (fields a3));
                         ("estimated_arrival", PyStr "calculating...")]) in
            (_log_trace a4
               ("Accepted investigation mission to " ++
                py_str (target_location (fields a4))), None)
        | _ => (a, Some (no_get parameters))
        end
    end.

(** [FieldAgent._accept_return_mission] *)
Definition _accept_return_mission (request_msg : ACLMessage) : Proc FieldAgent :=
  fun a =>
    let a1 := set_target_location a (PyTuple [PyInt 0; PyInt 0]) in
    let a2 :=
      send_reply py_str a1 request_msg AGREE
        (PyDict [("action", PyStr "return_to_base")]) in
    (_log_trace a2 "Returning to base", None).

(** [FieldAgent._accept_assist_mission] *)
Definition _accept_assist_mission (request_msg : ACLMessage) (parameters : PyVal)
  : Proc FieldAgent :=
  fun a =>
    match parameters with
    | PyDict d =>
        let target_agent := get_or d "agent_id" PyNone in
        let location := get_or d "location" PyNone in
        let a1 :=
          send_reply py_str a request_msg AGREE
            (PyDict [("action", PyStr "assist_agent"); ("target_agent", target_agent)]) in
        (_log_trace a1
           ("Moving to assist agent " ++ py_str target_agent ++ " at " ++
            py_str location), None)
    | _ => (a, Some (no_get parameters))
    end.

(** [FieldAgent._handle_coordinator_request] *)
Definition _handle_coordinator_request
  : @Handler FieldAgentState FieldFields :=
  fun message a =>
    match content message with
    | PyDict d =>
        let action := get_or d "action" PyNone in
        let parameters := get_or d "parameters" (PyDict []) in
        let a1 :=
          _log_trace a
            ("Received REQUEST from " ++ sender message ++ ": action=" ++ py_str action) in
        if is_str action "investigate_location" then
          _accept_investigation_mission message parameters a1
        else if is_str action "return_to_base" then
          _accept_return_mission message a1
        else if is_str action "assist_agent" then
          _accept_assist_mission message parameters a1
        else
          (send_reply py_str a1 message REFUSE
             (PyDict [("reason", PyStr ("Unknown action: " ++ py_str action))]), None)
    | _ =>
        (send_reply py_str a message REFUSE
           (PyDict [("reason", PyStr "Invalid request format")]), None)
    end.

(** [FieldAgent._handle_query].  A [dict] is true in a test when it is
    not empty. *)
Definition _handle_query : @Handler FieldAgentState FieldFields :=
  fun message => done (fun a =>
    let query :=
      match content message with
      | PyDict d => get_or d "query" PyNone
      | v => v
      end in
    if is_str query "mission_status" then
      send_reply py_str a message INFORM
        (PyDict [("type", PyStr "status_update");
                 ("status", PyStr (state_value (current_state a)));
                 ("location", current_location (fields a));
                 ("mission",
                  match current_mission (fields a) with
                  | Some (entry :: rest) => get_or (entry :: rest) "type" PyNone
                  | _ => PyNone
                  end)])
    else a).

(** [FieldAgent._handle_coordinator_confirm] *)
Definition _handle_coordinator_confirm : @Handler FieldAgentState FieldFields :=
  fun message => done (fun a =>
    _log_trace a ("Coordinator confirmed: " ++ py_str (content message))).

(** The handler table [FieldAgent.__init__] leaves: the default handlers,
    with those for [request], [query-if] and [confirm] replaced. *)
Definition field_handlers : @HandlerTable FieldAgentState FieldFields :=
  handlers_set
    (handlers_set
       (handlers_set (default_handlers py_str) REQUEST _handle_coordinator_request)
       QUERY_IF _handle_query)
    CONFIRM _handle_coordinator_confirm.

End Handlers.

(** The answers a field agent gives to a request. *)
Definition is_answer (p : Performative) : Prop :=
  p = AGREE \/ p = REFUSE \/ p = NOT_UNDERSTOOD.

(** The agent [a0] has become [a'] by putting the one message [reply] into
    its outbox, as a reply of its own to [m]. *)
Definition answered (a0 a' : FieldAgent) (m : ACLMessage) (reply : ACLMessage) : Prop :=
  outbox (domain a') = outbox (domain a0) ++ [reply] /\
  inbox (domain a') = inbox (domain a0) /\
  receiver reply = sender m /\
  sender reply = agent_id a0 /\
  in_reply_to reply = Some (message_id m) /\
  (conversation_id m <> "" -> conversation_id reply = conversation_id m).

End Field.

(* ================================================================== *)
(** ** lab4/coordinator_agent.py: the coordinator and its field agents *)

(** [n >= v] for an [int] [n]: a [bool] counts as 0 or 1, and no other
    value of a content can be compared with an [int]. *)
Definition int_ge (n : Z) (v : PyVal) : Returned bool :=
  match v with
  | PyInt z => Ret (n >=? z)%Z
  | PyBool b => Ret (n >=? (if b then 1 else 0))%Z
  | _ =>
      Exc (mk_exn "TypeError"
             ("'>=' not supported between instances of 'int' and '" ++
              type_name v ++ "'"))
  end.

Module Coordinator.

(** [class CoordinatorState] *)
Inductive CoordinatorState : Type :=
| IDLE
| ASSESSING
| COORDINATING
| MONITORING
| COMPLETED.

Definition state_str (s : CoordinatorState) : string :=
  match s with
  | IDLE => "CoordinatorState.IDLE"
  | ASSESSING => "CoordinatorState.ASSESSING"
  | COORDINATING => "CoordinatorState.COORDINATING"
  | MONITORING => "CoordinatorState.MONITORING"
  | COMPLETED => "CoordinatorState.COMPLETED"
  end.

(** The fields [CoordinatorAgent.__init__] adds to a
    [CommunicatingAgent]. *)
Record CoordFields : Type := mk_coord {
  field_agents : list string;
  active_missions : list (string * PyDictT);
  situation_reports : list PyDictT
}.

Definition CoordinatorAgent : Type := @CommunicatingAgent CoordinatorState CoordFields.

Definition fields (a : CoordinatorAgent) : CoordFields := ext (domain a).

Definition set_fields (a : CoordinatorAgent) (f : CoordFields) : CoordinatorAgent :=
  set_domain a (mk_comm (inbox (domain a)) (outbox (domain a))
                        (message_history (domain a)) f).

Definition set_field_agents (a : CoordinatorAgent) (l : list string) : CoordinatorAgent :=
  set_fields a (mk_coord l (active_missions (fields a)) (situation_reports (fields a))).

Definition set_active_missions (a : CoordinatorAgent) (d : list (string * PyDictT))
  : CoordinatorAgent :=
  set_fields a (mk_coord (field_agents (fields a)) d (situation_reports (fields a))).

Section Methods.

Variable py_str : PyVal -> string.

(** [CoordinatorAgent.register_field_agent] *)
Definition register_field_agent (a : CoordinatorAgent) (agent : string)
  : CoordinatorAgent :=
  if negb (existsb (String.eqb agent) (field_agents (fields a))) then
    let a1 := set_field_agents a (field_agents (fields a) ++ [agent]) in
    _log_trace a1 ("Registered field agent: " ++ agent)
  else a.

(** The request [dispatch_field_agents] builds for one agent. *)
Definition investigation_request (mission_details : PyDictT) : PyVal :=
  PyDict [("action", PyStr "investigate_location");
          ("parameters",
           PyDict [("location", get_or mission_details "location" PyNone);
                   ("mission_type", get_or mission_details "type" PyNone);
                   ("priority", get_or mission_details "priority" (PyStr "high"))])].

(** The body of the loop of [dispatch_field_agents] for an agent without
    a mission: the request is built and handed to [send_message], the
    mission is noted. *)
Definition dispatch_to (mission_details : PyDictT) (agent : string)
    (a : CoordinatorAgent) : CoordinatorAgent :=
  let location := get_or mission_details "location" PyNone in
  let mission_type := get_or mission_details "type" PyNone in
  let (request_msg, c1) :=
    ACLMessage_init REQUEST (agent_id a) agent (investigation_request mission_details)
                    default_language default_ontology default_protocol None None None
                    (clock a) in
  let a1 := send_message py_str (set_clock a c1) request_msg in
  let a2 :=
    set_active_missions a1
      (adict_set (active_missions (fields a1)) agent
         [("location", location);
          ("type", mission_type);
          ("status", PyStr "dispatched");
          ("conversation_id", PyStr (conversation_id request_msg))]) in
  _log_trace a2 ("Dispatched " ++ agent ++ " to investigate " ++ py_str location).

(** The loop of [dispatch_field_agents] over the agents still to visit,
    with the counter [dispatched]. *)
Fixpoint dispatch_loop (mission_details : PyDictT) (required : PyVal)
    (agents : list string) (dispatched : Z) (a : CoordinatorAgent)
  : (CoordinatorAgent * Z) * option PyExn :=
  match agents with
  | [] => ((a, dispatched), None)
  | agent :: rest =>
      match int_ge dispatched required with
      | Exc e => ((a, dispatched), Some e)
      | Ret true => ((a, dispatched), None)
      | Ret false =>
          match adict_get (active_missions (fields a)) agent with
          | None =>
              dispatch_loop mission_details required rest (dispatched + 1)%Z
                            (dispatch_to mission_details agent a)
          | Some _ => dispatch_loop mission_details required rest dispatched a
          end
      end
  end.

(** [CoordinatorAgent.dispatch_field_agents] *)
Definition dispatch_field_agents (mission_details : PyDictT) : Proc CoordinatorAgent :=
  fun a =>
    let a1 := set_current_state a COORDINATING in
    let required := get_or mission_details "required_agents" (PyInt 1) in
    match dispatch_loop mission_details required (field_agents (fields a1)) 0%Z a1 with
    | ((a2, _), Some e) => (a2, Some e)
    | ((a2, dispatched), None) =>
        if (dispatched >? 0)%Z then
          let a3 := set_current_state a2 MONITORING in
          (_log_trace a3
             ("Dispatched " ++ py_str (PyInt dispatched) ++
              " agents. Now monitoring operations."), None)
        else
          (_log_trace a2 "WARNING: No available field agents to dispatch", None)
    end.

(** [CoordinatorAgent._process_discovery_report] *)
Definition _process_discovery_report (agent : string) (info : PyDictT)
    (message : ACLMessage) (a : CoordinatorAgent) : CoordinatorAgent :=
  let discovery := get_or info "discovery" PyNone in
  let location := get_or info "location" PyNone in
  let a1 :=
    _log_trace a
      ("Field agent " ++ agent ++ " discovered: " ++ py_str discovery ++ " at " ++
       py_str location) in
  let a2 :=
    send_reply py_str a1 message CONFIRM
      (PyDict [("acknowledged", PyBool true); ("discovery", discovery)]) in
  if is_str (get_or info "severity" PyNone) "critical" then
    _log_trace a2 "Critical discovery - requesting additional support"
  else a2.

(** [CoordinatorAgent._process_status_update] *)
Definition _process_status_update (agent : string) (info : PyDictT)
    (a : CoordinatorAgent) : CoordinatorAgent :=
  let status := get_or info "status" PyNone in
  match adict_get (active_missions (fields a)) agent with
  | Some mission =>
      let a1 :=
        set_active_missions a
          (adict_set (active_missions (fields a)) agent
                     (dict_set mission "status" status)) in
      _log_trace a1 ("Updated " ++ agent ++ " status: " ++ py_str status)
  | None => a
  end.

(** [CoordinatorAgent._process_mission_completion] *)
Definition _process_mission_completion (agent : string) (info : PyDictT)
    (a : CoordinatorAgent) : CoordinatorAgent :=
  let a1 :=
    _log_trace a
      ("Agent " ++ agent ++ " completed mission: " ++
       py_str (get_or info "result" PyNone)) in
  let a2 :=
    match adict_get (active_missions (fields a1)) agent with
    | Some _ => set_active_missions a1 (adict_del (active_missions (fields a1)) agent)
    | None => a1
    end in
  match active_missions (fields a2) with
  | [] =>
      let a3 := set_current_state a2 COMPLETED in
      _log_trace a3 "All missions completed. Coordinator returning to IDLE"
  | _ :: _ => a2
  end.

(** [CoordinatorAgent._process_emergency_report] *)
Definition _process_emergency_report (agent : string) (info : PyDictT)
    (message : ACLMessage) (a : CoordinatorAgent) : CoordinatorAgent :=
  let emergency := get_or info "emergency" PyNone in
  let a1 :=
    _log_trace a ("EMERGENCY reported by " ++ agent ++ ": " ++ py_str emergency) in
  send_reply py_str a1 message CONFIRM
    (PyDict [("emergency_acknowledged", PyBool true);
             ("support_dispatched", PyBool true)]).

(** [CoordinatorAgent._handle_field_inform] *)
Definition _handle_field_inform : @Handler CoordinatorState CoordFields :=
  fun message => done (fun a =>
    let info := content message in
    let a1 :=
      _log_trace a
        ("Received report from " ++ sender message ++ ": " ++ py_str info) in
    match info with
    | PyDict d =>
        let info_type := get_or d "type" PyNone in
        if is_str info_type "discovery" then
          _process_discovery_report (sender message) d message a1
        else if is_str info_type "status_update" then
          _process_status_update (sender message) d a1
        else if is_str info_type "mission_complete" then
          _process_mission_completion (sender message) d a1
        else if is_str info_type "emergency" then
          _process_emergency_report (sender message) d message a1
        else a1
    | _ => a1
    end).

(** [CoordinatorAgent._handle_confirmation] *)
Definition _handle_confirmation : @Handler CoordinatorState CoordFields :=
  fun message => done (fun a =>
    _log_trace a
      ("Received confirmation from " ++ sender message ++ ": " ++
       py_str (content message))).

(** [CoordinatorAgent._handle_refusal] *)
Definition _handle_refusal : @Handler CoordinatorState CoordFields :=
  fun message => done (fun a =>
    let reason :=
      match content message with
      | PyDict d => get_or d "reason" PyNone
      | v => v
      end in
    let a1 :=
      _log_trace a
        ("Agent " ++ sender message ++ " refused request. Reason: " ++ py_str reason) in
    match adict_get (active_missions (fields a1)) (sender message) with
    | Some _ =>
        set_active_missions a1 (adict_del (active_missions (fields a1)) (sender message))
    | None => a1
    end).

(** The handler table [CoordinatorAgent.__init__] leaves: the default
    handlers, with those for [inform], [confirm] and [refuse] replaced. *)
Definition coordinator_handlers : @HandlerTable CoordinatorState CoordFields :=
  handlers_set
    (handlers_set
       (handlers_set (default_handlers py_str) INFORM _handle_field_inform)
       CONFIRM _handle_confirmation)
    REFUSE _handle_refusal.

End Methods.

(** The registered agents without a mission, in the order they were
    registered. *)
Definition free_agents (a : CoordinatorAgent) : list string :=
  filter (fun agent =>
            match adict_get (active_missions (fields a)) agent with
            | None => true
            | Some _ => false
            end)
         (field_agents (fields a)).

End Coordinator.

(* ================================================================== *)
(** ** Further concrete agents, messages and records *)

Module Cases.

Import Scenario.

(** The rescuer with a fire and a collapse in its queue, and what one call
    of [process_events] with the rule [on_collapse] makes of it. *)
Definition alerted : @FSMAgent RescueAgentState unit :=
  receive_event show (receive_event show rescuer fire_detected) building_collapse.

Definition calmed : @FSMAgent RescueAgentState unit :=
  match process_events RescueAgentState_eq_dec state_str 2 [on_collapse] alerted with
  | Some (a', _) => a'
  | None => alerted
  end.

(** Wire records: one without a performative, one with the four required
    fields only. *)
Definition no_performative : PyDictT :=
  [("sender", PyStr "agent_a"); ("receiver", PyStr "agent_b");
   ("content", PyStr "ready")].

Definition bare_inform : PyDictT :=
  ("performative", PyStr "inform") :: no_performative.

(** Two replies to a request: the agreement of [B], and the confirmation
    of [A]. *)
Definition two_replies : list (Performative * PyVal * string) :=
  [(AGREE, PyDict [("action", PyStr "investigate_location")], "agent_b");
   (CONFIRM, PyDict [("acknowledged", PyBool true)], "agent_a")].

(** The agent [A], its [not-understood] message to [B], and [A] with an
    [inform] for [B] in its outbox. *)
Definition agent_a : @CommunicatingAgent RescueAgentState unit :=
  snd (CommunicatingAgent_init state_str show "agent_a" "Agent A" IDLE ticking tt).

Definition puzzled_a : ACLMessage :=
  fst (ACLMessage_init NOT_UNDERSTOOD "agent_a" "agent_b"
         (PyDict [("reason", PyStr "No handler for agree")]) default_language
         default_ontology default_protocol None None None ticking).

Definition agent_a_sending : @CommunicatingAgent RescueAgentState unit :=
  send_message show agent_a inform_a.

(** A rescue agent at the base on its way to the place [(3, -2)]. *)
Definition scout : @RescueAgent RescueAgentState :=
  FSMAgent_init state_str "rescue_2" "Scout" RESPONDING ticking
                (mk_rescue (0, 0)%Z (Some (3, -2)%Z) 0%Z None).

(** A field agent without a mission, with the request handler of its
    class over the default handlers. *)
Definition field_b : Field.FieldAgent :=
  snd (CommunicatingAgent_init Field.state_str show "agent_b" "Field Agent B"
         Field.IDLE ticking
         (Field.mk_field (PyTuple [PyInt 0; PyInt 0]) PyNone None None [])).

Definition field_table : @HandlerTable Field.FieldAgentState Field.FieldFields :=
  handlers_set (default_handlers show) REQUEST (Field._handle_coordinator_request show).

(** A coordinator with three field agents, one of them registered twice,
    and a mission for two agents. *)
Definition coordinator : Coordinator.CoordinatorAgent :=
  snd (CommunicatingAgent_init Coordinator.state_str show "coord_1" "Coordinator"
         Coordinator.IDLE ticking (Coordinator.mk_coord [] [] [])).

Definition field_ids : list string := ["field_1"; "field_2"; "field_1"; "field_3"].

Definition chief : Coordinator.CoordinatorAgent :=
  fold_left (Coordinator.register_field_agent) field_ids coordinator.

Definition earthquake : PyDictT :=
  [("type", PyStr "earthquake");
   ("location", PyTuple [PyInt 25; PyInt 30]);
   ("severity", PyStr "high");
   ("required_agents", PyInt 2)].

(** The request of the coordinator to the field agent [B] for that
    mission. *)
Definition chief_request : ACLMessage :=
  fst (ACLMessage_init REQUEST "coord_1" "agent_b"
         (Coordinator.investigation_request earthquake) default_language
         default_ontology default_protocol None None None ticking).

End Cases.

(* ================================================================== *)
(** * Properties *)

(** ** The stable descending sort *)

Section SortFacts.

Context {A : Type} (key : A -> Z).

Lemma desc_tail (x : A) (l : list A) : desc key (x :: l) -> desc key l.
Proof. intros H; inversion H; assumption. Qed.

Lemma desc_head (x : A) (l : list A) :
  desc key (x :: l) -> Forall (fun y => (key y <= key x)%Z) l.
Proof. intros H; inversion H; assumption. Qed.

Lemma insert_stable_In (x y : A) (l : list A) :
  In y (insert_stable key x l) <-> y = x \/ In y l.
Proof.
  induction l as [|z l IH]; simpl.
  - intuition congruence.
  - destruct (key z <? key x)%Z; simpl.
    + intuition congruence.
    + rewrite IH. intuition congruence.
Qed.

Lemma insert_stable_desc (x : A) (l : list A) :
  desc key l -> desc key (insert_stable key x l).
Proof.
  induction l as [|y l IH]; simpl; intros Hl.
  - repeat constructor.
  - destruct (key y <? key x)%Z eqn:E.
    + apply Z.ltb_lt in E. constructor; [assumption|].
      constructor; [lia|].
      apply desc_head in Hl. eapply Forall_impl; [|exact Hl].
      simpl; intros; lia.
    + apply Z.ltb_ge in E. constructor.
      * apply IH. eapply desc_tail; eassumption.
      * apply Forall_forall. intros z Hz.
        apply insert_stable_In in Hz. destruct Hz as [->|Hz]; [assumption|].
        apply desc_head in Hl. rewrite Forall_forall in Hl. auto.
Qed.

(** Where an arriving element lands in a sorted list: behind the elements
    whose key is not smaller, in front of those whose key is smaller. *)
Lemma insert_stable_split (x : A) (l : list A) :
  desc key l ->
  exists l1 l2,
    l = l1 ++ l2 /\ insert_stable key x l = l1 ++ x :: l2 /\
    Forall (fun y => (key x <= key y)%Z) l1 /\
    Forall (fun y => (key y < key x)%Z) l2.
Proof.
  induction l as [|y l IH]; simpl; intros Hl.
  - exists [], []. repeat split; constructor.
  - destruct (key y <? key x)%Z eqn:E.
    + apply Z.ltb_lt in E. exists [], (y :: l). repeat split; try constructor.
      * assumption.
      * apply desc_head in Hl. eapply Forall_impl; [|exact Hl].
        simpl; intros; lia.
    + apply Z.ltb_ge in E.
      destruct (IH (desc_tail _ _ Hl)) as (l1 & l2 & -> & Hi & H1 & H2).
      exists (y :: l1), l2. rewrite Hi. repeat split; try assumption.
      constructor; assumption.
Qed.

Lemma fold_insert_desc (l acc : list A) :
  desc key acc -> desc key (fold_left (fun acc x => insert_stable key x acc) l acc).
Proof.
  revert acc; induction l as [|x l IH]; simpl; intros acc Hacc; [assumption|].
  apply IH, insert_stable_desc, Hacc.
Qed.

Lemma sort_desc_sorted (l : list A) : desc key (sort_desc key l).
Proof. apply fold_insert_desc. constructor. Qed.

Lemma sort_desc_snoc (l : list A) (x : A) :
  sort_desc key (l ++ [x]) = insert_stable key x (sort_desc key l).
Proof. unfold sort_desc. rewrite fold_left_app. reflexivity. Qed.

Lemma insert_stable_last (x : A) (l : list A) :
  Forall (fun y => (key x <= key y)%Z) l -> insert_stable key x l = l ++ [x].
Proof.
  induction 1 as [|y l Hy _ IH]; simpl; [reflexivity|].
  destruct (key y <? key x)%Z eqn:E.
  - apply Z.ltb_lt in E. lia.
  - rewrite IH. reflexivity.
Qed.

Lemma desc_app_inv (l1 l2 : list A) :
  desc key (l1 ++ l2) ->
  desc key l1 /\ desc key l2 /\ forall x y, In x l1 -> In y l2 -> (key y <= key x)%Z.
Proof.
  induction l1 as [|a l1 IH]; simpl; intros H.
  - repeat split; [constructor|assumption|intros ? ? []].
  - inversion H as [|? ? Hs Hf]; subst.
    destruct (IH Hs) as (H1 & H2 & H3).
    rewrite Forall_app in Hf. destruct Hf as [Hf1 Hf2].
    repeat split; [constructor; assumption|assumption|].
    intros x y [<-|Hx] Hy.
    + rewrite Forall_forall in Hf2. auto.
    + auto.
Qed.

Lemma fold_insert_sorted (l acc : list A) :
  desc key (acc ++ l) ->
  fold_left (fun acc x => insert_stable key x acc) l acc = acc ++ l.
Proof.
  revert acc; induction l as [|x l IH]; simpl; intros acc H.
  - symmetry; apply app_nil_r.
  - rewrite insert_stable_last.
    + rewrite IH; rewrite <- app_assoc; [reflexivity|exact H].
    + apply Forall_forall. intros y Hy.
      destruct (desc_app_inv _ _ H) as (_ & _ & H3). apply H3; [assumption|left; reflexivity].
Qed.

(** Sorting a sorted list changes nothing. *)
Lemma sort_desc_fixed (l : list A) : desc key l -> sort_desc key l = l.
Proof. intros H. unfold sort_desc. rewrite fold_insert_sorted; [reflexivity|exact H]. Qed.

(** Appending to the sorted list and sorting again is sorting the lot. *)
Lemma sort_desc_resort (l : list A) (x : A) :
  sort_desc key (sort_desc key l ++ [x]) = sort_desc key (l ++ [x]).
Proof.
  rewrite !sort_desc_snoc. rewrite sort_desc_fixed; [reflexivity|apply sort_desc_sorted].
Qed.

Lemma filter_none (p : Z) (l : list A) :
  Forall (fun y => key y <> p) l -> filter (same_key key p) l = [].
Proof.
  induction 1 as [|y l Hy _ IH]; simpl; [reflexivity|].
  unfold same_key at 1. destruct (key y =? p)%Z eqn:E; [|assumption].
  apply Z.eqb_eq in E. contradiction.
Qed.

(** Stability of one insertion: within a key, the arrival goes last. *)
Lemma insert_stable_filter (p : Z) (x : A) (l : list A) :
  desc key l ->
  filter (same_key key p) (insert_stable key x l) =
  filter (same_key key p) l ++ filter (same_key key p) [x].
Proof.
  intros Hl. destruct (insert_stable_split x l Hl) as (l1 & l2 & -> & -> & H1 & H2).
  rewrite !filter_app. simpl.
  destruct (same_key key p x) eqn:E.
  - unfold same_key in E. apply Z.eqb_eq in E. rewrite (filter_none p l2).
    + rewrite app_nil_r. reflexivity.
    + eapply Forall_impl; [|exact H2]. simpl; intros; lia.
  - rewrite app_nil_r. reflexivity.
Qed.

(** Stability of the sort: within a key, the order of the input is kept. *)
Lemma sort_desc_stable (p : Z) (l : list A) :
  filter (same_key key p) (sort_desc key l) = filter (same_key key p) l.
Proof.
  induction l as [|x l IH] using rev_ind; [reflexivity|].
  rewrite sort_desc_snoc, insert_stable_filter by apply sort_desc_sorted.
  rewrite IH, filter_app. reflexivity.
Qed.

Lemma insert_stable_perm (x : A) (l : list A) :
  Permutation (insert_stable key x l) (x :: l).
Proof.
  induction l as [|y l IH]; simpl; [reflexivity|].
  destruct (key y <? key x)%Z; [reflexivity|].
  rewrite IH. apply perm_swap.
Qed.

Lemma sort_desc_perm (l : list A) : Permutation (sort_desc key l) l.
Proof.
  induction l as [|x l IH] using rev_ind; [reflexivity|].
  rewrite sort_desc_snoc, insert_stable_perm, IH.
  apply Permutation_cons_append.
Qed.

Lemma filter_same_key_cons (p : Z) (x : A) (l : list A) :
  filter (same_key key p) (x :: l) =
  if (key x =? p)%Z then x :: filter (same_key key p) l else filter (same_key key p) l.
Proof. reflexivity. Qed.

(** A sorted list is determined by its classes of equal key, so
    [sort_desc] is the only stable descending sort. *)
Lemma desc_stable_unique (l1 l2 : list A) :
  desc key l1 -> desc key l2 ->
  (forall p, filter (same_key key p) l1 = filter (same_key key p) l2) ->
  l1 = l2.
Proof.
  revert l2; induction l1 as [|x l1 IH]; intros l2 H1 H2 Hf.
  - destruct l2 as [|y l2]; [reflexivity|].
    specialize (Hf (key y)). rewrite filter_same_key_cons, Z.eqb_refl in Hf.
    discriminate.
  - destruct l2 as [|y l2].
    + specialize (Hf (key x)). rewrite filter_same_key_cons, Z.eqb_refl in Hf.
      discriminate.
    + assert (Hxy : key x = key y).
      { assert (In x (filter (same_key key (key x)) (y :: l2))) as Hx.
        { rewrite <- Hf, filter_same_key_cons, Z.eqb_refl. left; reflexivity. }
        assert (In y (filter (same_key key (key y)) (x :: l1))) as Hy.
        { rewrite Hf, filter_same_key_cons, Z.eqb_refl. left; reflexivity. }
        apply filter_In in Hx. destruct Hx as [Hx _].
        apply filter_In in Hy. destruct Hy as [Hy _].
        pose proof (desc_head _ _ H1) as F1. pose proof (desc_head _ _ H2) as F2.
        rewrite Forall_forall in F1, F2.
        destruct Hx as [<-|Hx]; [reflexivity|].
        destruct Hy as [<-|Hy]; [reflexivity|].
        specialize (F1 _ Hy). specialize (F2 _ Hx). lia. }
      pose proof (Hf (key x)) as Hk. rewrite !filter_same_key_cons in Hk.
      rewrite <- Hxy, Z.eqb_refl in Hk. injection Hk as <- Hk.
      f_equal. apply IH; [eapply desc_tail; eassumption..|].
      intros p. specialize (Hf p). rewrite !filter_same_key_cons in Hf.
      destruct (key x =? p)%Z; [injection Hf as Hf|]; assumption.
Qed.

End SortFacts.

(** ** The agent kernel *)

Section KernelFacts.

Variable State : Type.
Variable State_eq_dec : forall x y : State, {x = y} + {x <> y}.
Variable state_str : State -> string.
Variable py_str : PyVal -> string.
Variable D : Type.

Local Abbreviation Agent := (@FSMAgent State D).
Local Abbreviation Rule := (@Transition State D).
Local Abbreviation react := (_react_to_event State_eq_dec state_str).
Local Abbreviation drain := (process_events_from State_eq_dec state_str).

Lemma log_trace_queue (a : Agent) (m : string) :
  event_queue (_log_trace a m) = event_queue a.
Proof. reflexivity. Qed.

Lemma log_trace_state (a : Agent) (m : string) :
  current_state (_log_trace a m) = current_state a.
Proof. reflexivity. Qed.

Lemma receive_event_queue (a : Agent) (e : Event) :
  event_queue (receive_event py_str a e) = sort_desc priority (event_queue a ++ [e]).
Proof. reflexivity. Qed.

Lemma can_transition_true (t : Rule) (a : Agent) (event : Event) :
  can_transition t a event = true <-> condition t a event = Ret true.
Proof.
  unfold can_transition. destruct (condition t a event) as [[|]|e]; split;
    intros H; try reflexivity; discriminate.
Qed.

Lemma react_skip (t : Rule) (ts : list Rule) (event : Event) (a : Agent) :
  ~ rule_matches a event t -> react (t :: ts) event a = react ts event a.
Proof.
  intros H. simpl. destruct (State_eq_dec (from_state t) (current_state a)) as [E|E];
    [|reflexivity].
  destruct (can_transition t a event) eqn:C; [|reflexivity].
  apply can_transition_true in C. exfalso. apply H. split; assumption.
Qed.

Lemma react_hit (t : Rule) (ts : list Rule) (event : Event) (a : Agent) :
  rule_matches a event t -> react (t :: ts) event a = fire state_str t event a.
Proof.
  intros [E C]. simpl. destruct (State_eq_dec (from_state t) (current_state a));
    [|contradiction].
  apply can_transition_true in C. rewrite C. reflexivity.
Qed.

Lemma rule_matches_dec (a : Agent) (event : Event) (t : Rule) :
  rule_matches a event t \/ ~ rule_matches a event t.
Proof.
  unfold rule_matches.
  destruct (State_eq_dec (from_state t) (current_state a)) as [E|E];
    [|right; tauto].
  destruct (condition t a event) as [[|]|e]; [left; tauto|right|right];
    intros [_ H]; discriminate.
Qed.

(** C1.  When an event is processed, either exactly the first rule in
    registration order that matches (source state equal to the current
    state, guard true) fires and no other rule does, or no rule matches and
    the agent is left as it was, with no exception. *)
Theorem react_fires_first_match (ts : list Rule) (event : Event) (a : Agent) :
  (exists pre t post,
      ts = pre ++ t :: post /\
      (forall t', In t' pre -> ~ rule_matches a event t') /\
      rule_matches a event t /\
      react ts event a = fire state_str t event a)
  \/
  ((forall t', In t' ts -> ~ rule_matches a event t') /\
   react ts event a = (a, None)).
Proof.
  induction ts as [|t ts IH].
  - right. split; [intros ? []|reflexivity].
  - destruct (rule_matches_dec a event t) as [M|M].
    + left. exists [], t, ts. repeat split; try (exact (proj1 M) || exact (proj2 M)).
      * intros ? [].
      * apply react_hit, M.
    + rewrite (react_skip t ts event a M).
      destruct IH as [(pre & t1 & post & -> & Hpre & M1 & R)|[Hnone R]].
      * left. exists (t :: pre), t1, post. repeat split;
          try (exact (proj1 M1) || exact (proj2 M1) || exact R).
        intros t' [<-|Hin]; [exact M|apply Hpre, Hin].
      * right. split; [|exact R].
        intros t' [<-|Hin]; [exact M|apply Hnone, Hin].
Qed.

Lemma react_contained (ts : list Rule) (event : Event) (a : Agent) :
  react (map contained ts) event a = react ts event a.
Proof.
  induction ts as [|t ts IH]; [reflexivity|].
  simpl. rewrite IH.
  destruct (State_eq_dec (from_state t) (current_state a)); [|reflexivity].
  unfold can_transition at 1. simpl.
  destruct (can_transition t a event); reflexivity.
Qed.

Lemma drain_contained (fuel : nat) (ts : list Rule) (popped : list Event) (a : Agent) :
  drain fuel (map contained ts) popped a = drain fuel ts popped a.
Proof.
  revert popped a; induction fuel as [|fuel IH]; intros popped a; simpl.
  - reflexivity.
  - destruct (event_queue a) as [|event rest]; [reflexivity|].
    rewrite react_contained.
    destruct (react ts event _) as [a3 [e|]]; [reflexivity|apply IH].
Qed.

(** C3.  A rule whose guard raises while an event is processed counts as
    not matching: the outcome is that of the rule list without it, so the
    rule changes nothing and the rules behind it are still tried; and a
    whole drain of the queue cannot tell a guard that raises from one that
    answers false, so the events behind are processed as well. *)
Theorem raising_guard_is_skipped (pre post : list Rule) (t : Rule)
    (event : Event) (a : Agent) (e : PyExn) :
  condition t a event = Exc e ->
  can_transition t a event = false /\
  react [t] event a = (a, None) /\
  react (pre ++ t :: post) event a = react (pre ++ post) event a /\
  (forall fuel (ts : list Rule) a',
      process_events State_eq_dec state_str fuel (map contained ts) a' =
      process_events State_eq_dec state_str fuel ts a').
Proof.
  intros He.
  assert (M : ~ rule_matches a event t).
  { intros [_ C]. rewrite He in C. discriminate. }
  repeat split.
  - unfold can_transition. rewrite He. reflexivity.
  - apply (react_skip t [] event a M).
  - induction pre as [|r pre IH]; simpl app.
    + apply react_skip, M.
    + simpl. rewrite IH. reflexivity.
  - intros fuel ts a'. unfold process_events. rewrite drain_contained. reflexivity.
Qed.

Lemma keeps_queue_tail (t : Rule) (ts : list Rule) :
  keeps_queue (t :: ts) -> keeps_queue ts.
Proof. intros H t' act Hin. apply H. right; exact Hin. Qed.

Lemma fire_keeps_queue (t : Rule) (event : Event) (a : Agent) :
  (forall act, action t = Some act ->
     forall ev b, event_queue (fst (act ev b)) = event_queue b) ->
  event_queue (fst (fire state_str t event a)) = event_queue a.
Proof.
  intros H. unfold fire, andthen, execute_action.
  destruct (action t) as [act|] eqn:Ea.
  - specialize (H act eq_refl event a).
    destruct (act event a) as [a1 [e|]]; simpl in *; exact H.
  - reflexivity.
Qed.

Lemma react_keeps_queue (ts : list Rule) (event : Event) (a : Agent) :
  keeps_queue ts -> event_queue (fst (react ts event a)) = event_queue a.
Proof.
  induction ts as [|t ts IH]; intros K; [reflexivity|].
  simpl. destruct (State_eq_dec (from_state t) (current_state a)).
  - destruct (can_transition t a event).
    + apply fire_keeps_queue. intros act Ha. apply (K t act); [left; reflexivity|exact Ha].
    + apply IH. eapply keeps_queue_tail, K.
  - apply IH. eapply keeps_queue_tail, K.
Qed.

(** With enough fuel, one call of [process_events] pops the queue from the
    head on; it pops all of it unless an action raises. *)
Lemma drain_order (ts : list Rule) :
  keeps_queue ts ->
  forall fuel popped a, List.length (event_queue a) <= fuel ->
  exists taken rest a' r,
    drain fuel ts popped a = Some (popped ++ taken, (a', r)) /\
    event_queue a = taken ++ rest /\
    (r = None -> rest = []).
Proof.
  intros K. induction fuel as [|fuel IH]; intros popped a Hlen.
  - destruct (event_queue a) as [|event q] eqn:Eq; [|simpl in Hlen; lia].
    exists [], [], a, None. simpl. rewrite Eq, app_nil_r. auto.
  - simpl. destruct (event_queue a) as [|event q] eqn:Eq.
    + exists [], [], a, None. rewrite app_nil_r. auto.
    + pose proof (react_keeps_queue ts event
        (_log_trace (set_event_queue a q)
                    ("Processing event: " ++ event_type event)%string) K) as Hq.
      destruct (react ts event _) as [a3 [e|]]; simpl in Hq.
      * exists [event], q, a3, (Some e). repeat split. discriminate.
      * destruct (IH (popped ++ [event]) a3) as (taken & rest & a' & r & Hd & Hs & Hr).
        { rewrite Hq. simpl in Hlen. lia. }
        exists (event :: taken), rest, a', r. rewrite Hd, <- app_assoc.
        repeat split; [|exact Hr]. rewrite Hq in Hs. simpl. rewrite Hs. reflexivity.
Qed.

Lemma receive_all_queue (es : list Event) (a : Agent) :
  event_queue a = [] ->
  event_queue (fold_left (receive_event py_str) es a) = sort_desc priority es.
Proof.
  intros H0. induction es as [|e es IH] using rev_ind.
  - exact H0.
  - rewrite fold_left_app. cbn [fold_left]. rewrite receive_event_queue, IH.
    apply sort_desc_resort.
Qed.

Lemma desc_prefix {A : Type} (key : A -> Z) (l1 l2 : list A) :
  desc key (l1 ++ l2) -> desc key l1.
Proof. intros H. apply desc_app_inv in H. tauto. Qed.

(** A drain that returns normally leaves the queue empty. *)
Lemma drain_empties (ts : list Rule) (fuel : nat) (popped popped' : list Event)
    (a a' : Agent) :
  drain fuel ts popped a = Some (popped', (a', None)) -> event_queue a' = [].
Proof.
  revert popped a. induction fuel as [|fuel IH]; intros popped a; simpl.
  - destruct (event_queue a) eqn:Eq; [|discriminate].
    intros H; injection H as _ <-. exact Eq.
  - destruct (event_queue a) as [|event q] eqn:Eq.
    + intros H; injection H as _ <-. exact Eq.
    + destruct (react ts event _) as [a3 [e|]]; [discriminate|]. apply IH.
Qed.

Lemma run_steps_sorted (ts : list Rule) (fuel : nat) (steps : list Step)
    (popped popped' : list Event) (a a' : Agent) :
  desc priority (event_queue a) ->
  run_steps State_eq_dec state_str py_str fuel ts steps popped a = Some (popped', a') ->
  desc priority (event_queue a').
Proof.
  revert popped a. induction steps as [|[e|] steps IH]; intros popped a Hs; simpl.
  - intros H; injection H as _ <-. exact Hs.
  - apply IH. rewrite receive_event_queue. apply sort_desc_sorted.
  - destruct (drain fuel ts popped a) as [[p1 [a1 [e|]]]|] eqn:Ed; try discriminate.
    apply IH. rewrite (drain_empties _ _ _ _ _ _ Ed). constructor.
Qed.

(** C2, as the code has it.  (1) Events received one after the other, with
    no processing in between, are popped by the next [process_events] in
    non-increasing priority order, events of equal priority in the order
    they arrived; the call pops all of them unless an action raises, and
    then it has popped a front part of that order.  (2) In any interleaving
    of receiving and processing the queue stays sorted, and an arriving
    event is put behind every pending event whose priority is not lower and
    in front of every pending event whose priority is lower; so each pop
    takes a pending event of highest priority, the earliest arrival among
    those. *)
Theorem dequeue_order (ts : list Rule) (es : list Event) (a : Agent) (fuel : nat) :
  keeps_queue ts ->
  event_queue a = [] ->
  List.length es <= fuel ->
  (exists popped rest a' r,
      drain fuel ts [] (fold_left (receive_event py_str) es a)
        = Some (popped, (a', r)) /\
      popped ++ rest = sort_desc priority es /\
      (r = None -> rest = []) /\
      desc priority popped /\
      forall p, filter (same_key priority p) popped ++
                filter (same_key priority p) rest
                = filter (same_key priority p) es)
  /\
  (forall steps popped0 popped1 b,
      run_steps State_eq_dec state_str py_str fuel ts steps popped0 a
        = Some (popped1, b) ->
      desc priority (event_queue b) /\
      (forall e rest, event_queue b = e :: rest ->
         Forall (fun x => (priority x <= priority e)%Z) rest) /\
      forall e, exists q1 q2,
          event_queue b = q1 ++ q2 /\
          event_queue (receive_event py_str b e) = q1 ++ e :: q2 /\
          Forall (fun x => (priority e <= priority x)%Z) q1 /\
          Forall (fun x => (priority x < priority e)%Z) q2).
Proof.
  intros K H0 Hlen. split.
  - destruct (drain_order ts K fuel [] (fold_left (receive_event py_str) es a))
      as (taken & rest & a' & r & Hd & Hs & Hr).
    { rewrite receive_all_queue by exact H0.
      rewrite (Permutation_length (sort_desc_perm priority es)). exact Hlen. }
    rewrite receive_all_queue in Hs by exact H0.
    exists taken, rest, a', r. repeat split.
    + exact Hd.
    + symmetry; exact Hs.
    + exact Hr.
    + eapply desc_prefix. rewrite <- Hs. apply sort_desc_sorted.
    + intros p. rewrite <- filter_app, <- Hs. apply sort_desc_stable.
  - intros steps popped0 popped1 b Hrun.
    assert (Hb : desc priority (event_queue b)).
    { eapply run_steps_sorted; [|exact Hrun]. rewrite H0. constructor. }
    repeat split.
    + exact Hb.
    + intros e rest Eq. rewrite Eq in Hb. apply (desc_head priority _ _ Hb).
    + intros e. rewrite receive_event_queue, sort_desc_snoc.
      rewrite sort_desc_fixed by exact Hb.
      destruct (insert_stable_split priority e _ Hb) as (q1 & q2 & E1 & E2 & F1 & F2).
      exists q1, q2. auto.
Qed.

End KernelFacts.

(** ** Dates as text *)

Section TimeFacts.

Lemma append_empty_r (s : string) : (s ++ "")%string = s.
Proof. induction s as [|c s IH]; simpl; [reflexivity|rewrite IH; reflexivity]. Qed.

Lemma append_assoc (s1 s2 s3 : string) :
  ((s1 ++ s2) ++ s3)%string = (s1 ++ (s2 ++ s3))%string.
Proof. induction s1 as [|c s1 IH]; simpl; [reflexivity|rewrite IH; reflexivity]. Qed.

Lemma append_length (s1 s2 : string) :
  String.length (s1 ++ s2) = String.length s1 + String.length s2.
Proof. induction s1 as [|c s1 IH]; simpl; [reflexivity|rewrite IH; reflexivity]. Qed.

(** Two texts with equally long fronts are equal only part by part. *)
Lemma append_inj (a b c d : string) :
  String.length a = String.length c ->
  (a ++ b)%string = (c ++ d)%string -> a = c /\ b = d.
Proof.
  revert c; induction a as [|x a IH]; intros [|y c] Hl H; simpl in *;
    try discriminate.
  - split; [reflexivity|exact H].
  - injection H as -> H. injection Hl as Hl.
    destruct (IH c Hl H) as [-> ->]. split; reflexivity.
Qed.

Lemma append_inj_r (a b c d : string) :
  String.length b = String.length d ->
  (a ++ b)%string = (c ++ d)%string -> a = c /\ b = d.
Proof.
  intros Hl H. apply append_inj; [|exact H].
  apply (f_equal String.length) in H. rewrite !append_length in H. lia.
Qed.

Lemma digit_val_char (d : N) : digit_val (digit_char d) = Some (d mod 10)%N.
Proof.
  unfold digit_val, digit_char.
  assert (Hd : (d mod 10 < 10)%N) by (apply N.mod_upper_bound; discriminate).
  remember (d mod 10)%N as r eqn:Er. clear Er.
  rewrite N_ascii_embedding by lia.
  replace ((48 <=? 48 + r)%N) with true by (symmetry; apply N.leb_le; lia).
  replace ((48 + r <=? 57)%N) with true by (symmetry; apply N.leb_le; lia).
  cbn [andb]. f_equal. lia.
Qed.

Lemma zero_pad_length (w : nat) (n : N) : String.length (zero_pad w n) = w.
Proof. induction w as [|w IH]; simpl; [reflexivity|rewrite IH; reflexivity]. Qed.

(** Reading back the digits that were printed. *)
Lemma read_digits_zero_pad (w : nat) (n acc : N) (rest : string) :
  read_digits w (zero_pad w n ++ rest) acc
  = Some ((acc * 10 ^ N.of_nat w + n mod 10 ^ N.of_nat w)%N, rest).
Proof.
  revert acc; induction w as [|w IH]; intros acc.
  - simpl. rewrite N.mod_1_r. f_equal. f_equal. lia.
  - cbn [zero_pad read_digits append]. rewrite digit_val_char, IH.
    f_equal. f_equal. rewrite Nat2N.inj_succ, N.pow_succ_r'.
    rewrite (N.mul_comm 10 (10 ^ N.of_nat w)), N.Div0.mod_mul_r. lia.
Qed.

Lemma read_digits_fits (w : nat) (n : N) (rest : string) :
  (n < 10 ^ N.of_nat w)%N ->
  read_digits w (zero_pad w n ++ rest) 0 = Some (n, rest).
Proof.
  intros H. rewrite read_digits_zero_pad, N.mod_small by exact H. reflexivity.
Qed.

Lemma zero_pad_inj (w : nat) (n1 n2 : N) (r1 r2 : string) :
  (n1 < 10 ^ N.of_nat w)%N -> (n2 < 10 ^ N.of_nat w)%N ->
  (zero_pad w n1 ++ r1)%string = (zero_pad w n2 ++ r2)%string ->
  n1 = n2 /\ r1 = r2.
Proof.
  intros H1 H2 H. apply (f_equal (fun s => read_digits w s 0)) in H.
  rewrite !read_digits_fits in H by assumption.
  injection H as -> ->. split; reflexivity.
Qed.

Lemma days_in_month_le (y m : N) : (days_in_month y m <= 31)%N.
Proof.
  unfold days_in_month.
  destruct (m =? 2)%N; [destruct (is_leap y); lia|].
  destruct ((m =? 4) || (m =? 6) || (m =? 9) || (m =? 11))%N; lia.
Qed.

(** The widths of the printed fields suffice for a valid datetime. *)
Lemma datetime_ok_bounds (t : datetime) :
  datetime_ok t = true ->
  (year t < 10 ^ 4 /\ month t < 10 ^ 2 /\ day t < 10 ^ 2 /\ hour t < 10 ^ 2 /\
   minute t < 10 ^ 2 /\ second t < 10 ^ 2 /\ microsecond t < 10 ^ 6)%N.
Proof.
  unfold datetime_ok. rewrite !andb_true_iff.
  rewrite !N.leb_le, !N.ltb_lt.
  pose proof (days_in_month_le (year t) (month t)).
  change (10 ^ 4)%N with 10000%N. change (10 ^ 2)%N with 100%N.
  change (10 ^ 6)%N with 1000000%N. lia.
Qed.

Lemma expect_here (c : ascii) (s : string) : expect c (String c s) = Some s.
Proof. simpl. rewrite Ascii.eqb_refl. reflexivity. Qed.

Lemma read_fraction_printed (us : N) :
  (us < 10 ^ 6)%N ->
  read_fraction (if (us =? 0)%N then "" else String "." (zero_pad 6 us)) = Some us.
Proof.
  intros H. destruct (us =? 0)%N eqn:E.
  - apply N.eqb_eq in E. subst. reflexivity.
  - unfold read_fraction. rewrite expect_here.
    rewrite <- (append_empty_r (zero_pad 6 us)).
    rewrite (read_digits_fits 6 us "" H). reflexivity.
Qed.

(** [datetime.fromisoformat(t.isoformat()) == t] *)
Lemma fromisoformat_isoformat (t : datetime) :
  datetime_ok t = true -> fromisoformat (isoformat t) = Some t.
Proof.
  intros Hok. destruct (datetime_ok_bounds t Hok) as (Hy & Hmo & Hd & Hh & Hmi & Hs & Hus).
  unfold fromisoformat, isoformat.
  rewrite (read_digits_fits 4 _ _ Hy). cbn [append]. rewrite expect_here.
  rewrite (read_digits_fits 2 _ _ Hmo). cbn [append]. rewrite expect_here.
  rewrite (read_digits_fits 2 _ _ Hd). cbn [append]. rewrite expect_here.
  rewrite (read_digits_fits 2 _ _ Hh). cbn [append]. rewrite expect_here.
  rewrite (read_digits_fits 2 _ _ Hmi). cbn [append]. rewrite expect_here.
  rewrite (read_digits_fits 2 _ _ Hs).
  rewrite (read_fraction_printed _ Hus).
  destruct t; simpl in *. rewrite Hok. reflexivity.
Qed.

Lemma fromisoformat_ok (s : string) (t : datetime) :
  fromisoformat s = Some t -> datetime_ok t = true.
Proof.
  unfold fromisoformat.
  repeat match goal with
         | |- context [match ?x with _ => _ end] =>
             match x with
             | datetime_ok _ => fail 1
             | _ => destruct x as [[? ?]|] || destruct x as [?|]
             end; try discriminate
         end.
  destruct (datetime_ok _) eqn:E; [|discriminate].
  intros H; injection H as <-. exact E.
Qed.

(** The compact time stamp determines the datetime. *)
Lemma strftime_compact_inj (t1 t2 : datetime) :
  datetime_ok t1 = true -> datetime_ok t2 = true ->
  strftime_compact t1 = strftime_compact t2 -> t1 = t2.
Proof.
  intros H1 H2 H.
  destruct (datetime_ok_bounds t1 H1) as (Hy1 & Hmo1 & Hd1 & Hh1 & Hmi1 & Hs1 & Hus1).
  destruct (datetime_ok_bounds t2 H2) as (Hy2 & Hmo2 & Hd2 & Hh2 & Hmi2 & Hs2 & Hus2).
  unfold strftime_compact in H.
  apply zero_pad_inj in H; [destruct H as [Ey H]|assumption..].
  apply zero_pad_inj in H; [destruct H as [Emo H]|assumption..].
  apply zero_pad_inj in H; [destruct H as [Ed H]|assumption..].
  apply zero_pad_inj in H; [destruct H as [Eh H]|assumption..].
  apply zero_pad_inj in H; [destruct H as [Emi H]|assumption..].
  apply zero_pad_inj in H; [destruct H as [Es H]|assumption..].
  rewrite <- (append_empty_r (zero_pad 6 (microsecond t1))) in H.
  rewrite <- (append_empty_r (zero_pad 6 (microsecond t2))) in H.
  apply zero_pad_inj in H; [destruct H as [Eus _]|assumption..].
  destruct t1, t2; simpl in *; subst; reflexivity.
Qed.

Lemma strftime_compact_length (t : datetime) :
  String.length (strftime_compact t) = 20.
Proof.
  unfold strftime_compact. rewrite !append_length, !zero_pad_length. reflexivity.
Qed.

End TimeFacts.

(** ** Messages *)

Section MessageFacts.

Lemma init_conversation_id p s r content l o pr cid rt irt c :
  conversation_id (fst (ACLMessage_init p s r content l o pr cid rt irt c)) <> "".
Proof.
  unfold ACLMessage_init.
  destruct cid as [x|]; [destruct (String.eqb x "") eqn:E|]; simpl;
    try discriminate.
  apply String.eqb_neq. exact E.
Qed.

Lemma init_timestamp p s r content l o pr cid rt irt c :
  clock_ok c ->
  datetime_ok (timestamp (fst (ACLMessage_init p s r content l o pr cid rt irt c))) = true.
Proof.
  intros H. unfold ACLMessage_init.
  destruct cid as [x|]; [destruct (String.eqb x "")|]; simpl; apply H.
Qed.

(** The invariant of the class: a conversation id is never empty, and the
    time stamp is a valid datetime. *)
Lemma constructed_invariant (m : ACLMessage) :
  constructed m -> conversation_id m <> "" /\ datetime_ok (timestamp m) = true.
Proof.
  induction 1 as [p s r content l o pr cid rt irt c Hc|m i _ IH|m t _ IH Ht].
  - split; [apply init_conversation_id|apply init_timestamp, Hc].
  - exact IH.
  - split; [apply IH|exact Ht].
Qed.

Lemma create_reply_constructed (m : ACLMessage) p content s c :
  clock_ok c -> constructed (fst (create_reply m p content s c)).
Proof. intros H. unfold create_reply. apply constructed_init, H. Qed.

Lemma from_dict_constructed (data : PyDictT) (c c' : Clock) (m : ACLMessage) :
  clock_ok c -> from_dict data c = Some (m, c') -> constructed m.
Proof.
  intros Hc. unfold from_dict.
  destruct (item_str data "performative") as [pv|]; [|discriminate].
  destruct (Performative_of_value pv) as [p|]; [|discriminate].
  destruct (item_str data "sender") as [s|]; [|discriminate].
  destruct (item_str data "receiver") as [r|]; [|discriminate].
  destruct (dict_get data "content") as [ct|]; [|discriminate].
  destruct (get_str data "language" default_language) as [l|]; [|discriminate].
  destruct (get_str data "ontology" default_ontology) as [o|]; [|discriminate].
  destruct (get_str data "protocol" default_protocol) as [pr|]; [|discriminate].
  destruct (get_opt_str data "conversation_id") as [cid|]; [|discriminate].
  destruct (get_opt_str data "reply_to") as [rt|]; [|discriminate].
  destruct (get_opt_str data "in_reply_to") as [irt|]; [|discriminate].
  pose proof (constructed_init p s r ct l o pr cid rt irt c Hc) as K.
  destruct (ACLMessage_init p s r ct l o pr cid rt irt c) as [msg c1]. simpl in K.
  destruct (restore_message_id data msg) as [msg1|] eqn:E1; [|discriminate].
  destruct (restore_timestamp data msg1) as [msg2|] eqn:E2; [|discriminate].
  intros H; injection H as <- _.
  assert (K1 : constructed msg1).
  { unfold restore_message_id in E1.
    destruct (dict_get data "message_id") as [v|].
    - destruct (as_str v) as [i|]; [|discriminate].
      injection E1 as <-. apply constructed_message_id, K.
    - injection E1 as <-. exact K. }
  unfold restore_timestamp in E2.
  destruct (dict_get data "timestamp") as [v|].
  - destruct (as_str v) as [x|]; [|discriminate].
    destruct (fromisoformat x) as [t|] eqn:Ef; [|discriminate].
    injection E2 as <-. apply constructed_timestamp; [exact K1|].
    eapply fromisoformat_ok, Ef.
  - injection E2 as <-. exact K1.
Qed.

(** What [create_reply] sets whatever the conversation id is. *)
Lemma create_reply_fields (m : ACLMessage) (p : Performative) (reply_content : PyVal)
    (replier : string) (c : Clock) :
  let reply := fst (create_reply m p reply_content replier c) in
  receiver reply = sender m /\
  in_reply_to reply = Some (message_id m) /\
  performative reply = p /\
  content reply = reply_content /\
  sender reply = replier.
Proof.
  unfold create_reply, ACLMessage_init.
  destruct (String.eqb (conversation_id m) ""); simpl; repeat split; reflexivity.
Qed.

(** The links of a reply to the message it answers. *)
Lemma create_reply_thread (m : ACLMessage) (p : Performative) (reply_content : PyVal)
    (replier : string) (c : Clock) :
  conversation_id m <> "" ->
  conversation_id (fst (create_reply m p reply_content replier c)) = conversation_id m /\
  language (fst (create_reply m p reply_content replier c)) = language m /\
  ontology (fst (create_reply m p reply_content replier c)) = ontology m /\
  protocol (fst (create_reply m p reply_content replier c)) = protocol m.
Proof.
  intros Hcid. apply String.eqb_neq in Hcid.
  unfold create_reply, ACLMessage_init. rewrite Hcid. simpl.
  repeat split; reflexivity.
Qed.

(** C5.  A reply built by [create_reply] from a message [m], with any
    performative, content and sender, is addressed to the sender of [m],
    stays in the conversation of [m], names [m] in [in_reply_to] and has the
    language, ontology and protocol of [m]. *)
Theorem create_reply_links (m : ACLMessage) (p : Performative) (reply_content : PyVal)
    (replier : string) (c : Clock) :
  constructed m ->
  let reply := fst (create_reply m p reply_content replier c) in
  receiver reply = sender m /\
  conversation_id reply = conversation_id m /\
  in_reply_to reply = Some (message_id m) /\
  language reply = language m /\
  ontology reply = ontology m /\
  protocol reply = protocol m /\
  performative reply = p /\
  content reply = reply_content /\
  sender reply = replier.
Proof.
  intros K. destruct (constructed_invariant m K) as [Hcid _]. cbv zeta.
  destruct (create_reply_thread m p reply_content replier c Hcid) as (H1 & H2 & H3 & H4).
  destruct (create_reply_fields m p reply_content replier c) as (H5 & H6 & H7 & H8 & H9).
  repeat split; assumption.
Qed.

Lemma performative_of_value (p : Performative) : Performative_of_value (value p) = Some p.
Proof. destruct p; reflexivity. Qed.

Lemma as_opt_str_opt_str (o : option string) : as_opt_str (opt_str o) = Some o.
Proof. destruct o; reflexivity. Qed.

(** [from_dict] after [to_dict] gives the message back, whatever the clock
    shows meanwhile. *)
Lemma from_dict_to_dict (m : ACLMessage) (c : Clock) :
  constructed m -> option_map fst (from_dict (to_dict m) c) = Some m.
Proof.
  intros K. destruct (constructed_invariant m K) as [Hcid Hts].
  apply String.eqb_neq in Hcid.
  unfold from_dict, item_str, get_str, get_opt_str, to_dict.
  cbn [dict_get String.eqb Ascii.eqb Bool.eqb].
  rewrite !as_opt_str_opt_str. cbn [as_str as_opt_str].
  rewrite performative_of_value.
  unfold ACLMessage_init. rewrite Hcid.
  cbn [_generate_message_id now fst snd].
  unfold restore_message_id, restore_timestamp.
  cbn [dict_get String.eqb Ascii.eqb Bool.eqb as_str option_map].
  rewrite (fromisoformat_isoformat _ Hts).
  destruct m; reflexivity.
Qed.

Lemma dict_get_absent (d : PyDictT) (k : string) :
  existsb (String.eqb k) (map fst d) = false -> dict_get d k = None.
Proof.
  induction d as [|[k' v] d IH]; simpl; [reflexivity|].
  rewrite orb_false_iff. intros [E H]. rewrite String.eqb_sym, E. apply IH, H.
Qed.

Lemma dict_set_new (d : PyDictT) (k : string) (v : PyVal) :
  existsb (String.eqb k) (map fst d) = false -> dict_set d k v = d ++ [(k, v)].
Proof.
  induction d as [|[k' v'] d IH]; simpl; [reflexivity|].
  rewrite orb_false_iff. intros [E H]. rewrite String.eqb_sym, E, IH by exact H.
  reflexivity.
Qed.

Lemma existsb_snoc (k x : string) (l : list string) :
  existsb (String.eqb k) (l ++ [x]) = existsb (String.eqb k) l || String.eqb k x.
Proof. rewrite existsb_app. simpl. rewrite orb_false_r. reflexivity. Qed.

Lemma fold_dict_set (d acc : PyDictT) :
  distinct (map fst d) = true ->
  (forall k, In k (map fst d) -> existsb (String.eqb k) (map fst acc) = false) ->
  fold_left (fun d kv => dict_set d (fst kv) (snd kv)) d acc = acc ++ d.
Proof.
  revert acc; induction d as [|[k v] d IH]; intros acc Hd Hacc; simpl.
  - symmetry; apply app_nil_r.
  - simpl in Hd. apply andb_true_iff in Hd. destruct Hd as [Hk Hd].
    apply negb_true_iff in Hk.
    rewrite dict_set_new by (apply Hacc; left; reflexivity).
    rewrite IH.
    + rewrite <- app_assoc. reflexivity.
    + exact Hd.
    + intros k' Hin. rewrite map_app. simpl. rewrite existsb_snoc.
      rewrite (Hacc k') by (right; exact Hin). simpl.
      destruct (String.eqb k' k) eqn:E; [|reflexivity].
      apply String.eqb_eq in E. subst k'.
      assert (existsb (String.eqb k) (map fst d) = true) as Hc.
      { apply existsb_exists. exists k. split; [exact Hin|apply String.eqb_refl]. }
      congruence.
Qed.

(** The members of a printed [dict] build the same [dict] again. *)
Lemma dict_of_pairs_distinct (d : PyDictT) :
  distinct (map fst d) = true -> dict_of_pairs d = d.
Proof.
  intros H. unfold dict_of_pairs. rewrite fold_dict_set; [reflexivity|exact H|].
  reflexivity.
Qed.

Lemma loads_dumps_dict (d : PyDictT) :
  distinct (map fst d) = true ->
  Forall (fun kv => loads (dumps (snd kv)) = snd kv) d ->
  loads (dumps (PyDict d)) = PyDict d.
Proof.
  intros Hd Hf. cbn [loads dumps]. rewrite map_map.
  replace (map _ d) with d; [rewrite dict_of_pairs_distinct by exact Hd; reflexivity|].
  induction Hf as [|[k v] d Hv _ IH]; [reflexivity|].
  simpl in *. apply andb_true_iff in Hd. destruct Hd as [_ Hd].
  rewrite Hv, <- IH by exact Hd. reflexivity.
Qed.

(** [json.loads(json.dumps(v)) == v] for a value without tuples. *)
Lemma loads_dumps (v : PyVal) :
  dict_wf v = true -> no_tuple v = true -> loads (dumps v) = v.
Proof.
  induction v as [| | | |items IH|items IH|entries IH] using PyVal_nested_ind;
    try reflexivity.
  - cbn [dict_wf no_tuple loads dumps]. rewrite !forallb_forall. intros Hw Hn.
    rewrite map_map. f_equal. rewrite Forall_forall in IH.
    rewrite <- (map_id items) at 2. apply map_ext_in.
    intros x Hx. apply IH; auto.
  - discriminate.
  - cbn [dict_wf no_tuple]. rewrite andb_true_iff, !forallb_forall.
    intros [Hd Hw] Hn. apply loads_dumps_dict; [exact Hd|].
    rewrite Forall_forall in IH |- *. intros [k x] Hin. simpl.
    apply (IH (k, x) Hin); [apply (Hw (k, x) Hin)|apply (Hn (k, x) Hin)].
Qed.

Lemma loads_dumps_opt_str (o : option string) : loads (dumps (opt_str o)) = opt_str o.
Proof. destruct o; reflexivity. Qed.

(** The wire record survives [json.dumps] and [json.loads] when the
    content does. *)
Lemma loads_dumps_to_dict (m : ACLMessage) :
  loads (dumps (content m)) = content m ->
  loads (dumps (PyDict (to_dict m))) = PyDict (to_dict m).
Proof.
  intros Hc. apply loads_dumps_dict; [reflexivity|].
  unfold to_dict. repeat (apply Forall_cons || apply Forall_nil);
    cbn [snd]; try reflexivity; try apply loads_dumps_opt_str. exact Hc.
Qed.

(** What [json.loads] builds holds no tuple. *)
Lemma dict_set_no_tuple (d : PyDictT) (k : string) (v : PyVal) :
  forallb (fun kv => match kv with (_, x) => no_tuple x end) d = true ->
  no_tuple v = true ->
  forallb (fun kv => match kv with (_, x) => no_tuple x end) (dict_set d k v) = true.
Proof.
  intros Hd Hv. induction d as [|[k' v'] d IH]; simpl.
  - rewrite Hv. reflexivity.
  - simpl in Hd. apply andb_true_iff in Hd. destruct Hd as [Hv' Hd].
    destruct (String.eqb k' k); simpl.
    + rewrite Hv, Hd. reflexivity.
    + rewrite Hv', (IH Hd). reflexivity.
Qed.

Lemma dict_of_pairs_no_tuple (kvs : list (string * PyVal)) :
  Forall (fun kv => no_tuple (snd kv) = true) kvs ->
  forallb (fun kv => match kv with (_, x) => no_tuple x end) (dict_of_pairs kvs) = true.
Proof.
  unfold dict_of_pairs. intros H.
  assert (G : forall acc,
             forallb (fun kv => match kv with (_, x) => no_tuple x end) acc = true ->
             forallb (fun kv => match kv with (_, x) => no_tuple x end)
                     (fold_left (fun d kv => dict_set d (fst kv) (snd kv)) kvs acc)
             = true).
  { induction H as [|[k v] kvs Hv _ IH]; intros acc Hacc; simpl; [exact Hacc|].
    apply IH, dict_set_no_tuple; [exact Hacc|exact Hv]. }
  apply G. reflexivity.
Qed.

Lemma loads_no_tuple (j : Json) : no_tuple (loads j) = true.
Proof.
  induction j as [| | | |items IH|members IH] using Json_nested_ind;
    try reflexivity.
  - cbn [loads no_tuple]. apply forallb_forall. intros x Hx.
    apply in_map_iff in Hx. destruct Hx as (y & <- & Hy).
    rewrite Forall_forall in IH. apply IH, Hy.
  - cbn [loads no_tuple]. apply dict_of_pairs_no_tuple.
    induction IH as [|[k x] members Hx _ IHm]; simpl; constructor; assumption.
Qed.

(** A content that comes back unchanged holds no tuple. *)
Lemma loads_dumps_inv (v : PyVal) : loads (dumps v) = v -> no_tuple v = true.
Proof. intros H. rewrite <- H. apply loads_no_tuple. Qed.

Lemma constructed_set_content (m : ACLMessage) (v : PyVal) :
  constructed m -> constructed (set_content m v).
Proof.
  induction 1 as [p s r ct l o pr cid rt irt c Hc|m i _ IH|m t _ IH Ht].
  - replace (set_content (fst (ACLMessage_init p s r ct l o pr cid rt irt c)) v)
      with (fst (ACLMessage_init p s r v l o pr cid rt irt c)).
    + apply constructed_init, Hc.
    + unfold ACLMessage_init.
      destruct cid as [x|]; [destruct (String.eqb x "")|]; reflexivity.
  - exact (constructed_message_id (set_content m v) i IH).
  - exact (constructed_timestamp (set_content m v) t IH Ht).
Qed.

(** The wire record after [json.dumps] and [json.loads] is the wire record
    of the message whose content went through the two. *)
Lemma loads_dumps_wire (m : ACLMessage) :
  loads (dumps (PyDict (to_dict m)))
  = PyDict (to_dict (set_content m (loads (dumps (content m))))).
Proof.
  cbn [loads dumps]. rewrite map_map. unfold to_dict. cbn [map].
  rewrite dict_of_pairs_distinct by reflexivity.
  cbn [loads dumps]. rewrite !loads_dumps_opt_str. reflexivity.
Qed.

(** [from_json] after [to_json] gives the message back with its content
    read back from the text. *)
Lemma from_json_to_json (m : ACLMessage) (c : Clock) :
  constructed m ->
  option_map fst (from_json (to_json m) c)
  = Some (set_content m (loads (dumps (content m)))).
Proof.
  intros K. unfold from_json, to_json. rewrite loads_dumps_wire.
  apply from_dict_to_dict, constructed_set_content, K.
Qed.

(** C6, as the code has it.  For every message, of every performative,
    [from_dict] after [to_dict] gives a message equal to the original in
    every field.  [from_json] after [to_json] gives the original with its
    content as [json.loads] reads it back from what [json.dumps] printed.
    For a content built from [None], booleans, integers, strings, lists,
    tuples and dicts with string keys, that is the original message
    exactly when no tuple occurs in the content: a content built from
    [None], booleans, integers, strings, lists and dicts with string keys
    comes back unchanged, and one that holds a tuple never does. *)
Theorem serialization_round_trip (m : ACLMessage) (c : Clock) :
  constructed m ->
  option_map fst (from_dict (to_dict m) c) = Some m /\
  option_map fst (from_json (to_json m) c)
  = Some (set_content m (loads (dumps (content m)))) /\
  (dict_wf (content m) = true ->
   (no_tuple (content m) = true
    <-> option_map fst (from_json (to_json m) c) = Some m)).
Proof.
  intros K. split; [apply from_dict_to_dict, K|].
  split; [apply from_json_to_json, K|].
  intros Hw. rewrite (from_json_to_json m c K). split.
  - intros Hn. rewrite (loads_dumps (content m) Hw Hn). destruct m; reflexivity.
  - intros H. injection H as H. apply loads_dumps_inv.
    apply (f_equal content) in H. exact H.
Qed.

Lemma ticking_ok : clock_ok Scenario.ticking.
Proof.
  intros n. unfold Scenario.ticking, datetime_ok. cbn [readings year month day hour minute second microsecond].
  assert (H1 : ((N.of_nat n / 1000000) mod 60 < 60)%N) by (apply N.mod_upper_bound; discriminate).
  assert (H2 : (N.of_nat n mod 1000000 < 1000000)%N) by (apply N.mod_upper_bound; discriminate).
  apply N.ltb_lt in H1, H2. rewrite H1, H2. reflexivity.
Qed.

Lemma request_a_constructed : constructed Scenario.request_a.
Proof. apply constructed_init, ticking_ok. Qed.

Lemma inform_a_constructed : constructed Scenario.inform_a.
Proof. apply constructed_init, ticking_ok. Qed.

Lemma serialization_round_trip_witness :
  constructed Scenario.inform_a /\
  (option_map fst (from_dict (to_dict Scenario.inform_a) Scenario.frozen)
     = Some Scenario.inform_a /\
   option_map fst (from_json (to_json Scenario.inform_a) Scenario.frozen)
   = Some (set_content Scenario.inform_a
             (loads (dumps (content Scenario.inform_a)))) /\
   (dict_wf (content Scenario.inform_a) = true ->
    (no_tuple (content Scenario.inform_a) = true
     <-> option_map fst (from_json (to_json Scenario.inform_a) Scenario.frozen)
         = Some Scenario.inform_a))).
Proof.
  split.
  - exact inform_a_constructed.
  - exact (serialization_round_trip Scenario.inform_a Scenario.frozen
             inform_a_constructed).
Defined.

(** C6 fails as stated: the request of the coordinator scenario is valid
    and carries its location as a tuple; after [to_json] and [from_json] the
    location is a list, so the content differs. *)
Lemma json_round_trip_changes_tuple :
  constructed Scenario.request_a /\
  validate Scenario.request_a = (true, None) /\
  option_map (fun r => content (fst r))
             (from_json (to_json Scenario.request_a) Scenario.frozen)
    = Some (PyDict [("action", PyStr "investigate_location");
                    ("parameters",
                     PyDict [("location", PyList [PyInt 3; PyInt 4])])]) /\
  option_map fst (from_json (to_json Scenario.request_a) Scenario.frozen)
    <> Some Scenario.request_a.
Proof.
  split; [exact request_a_constructed|].
  split; [reflexivity|].
  split; [vm_compute; reflexivity|].
  vm_compute. intros H. discriminate H.
Qed.

Lemma init_message_id p s r content l o pr cid rt irt c :
  message_id (fst (ACLMessage_init p s r content l o pr cid rt irt c))
  = ("MSG_" ++ s ++ "_" ++ strftime_compact (id_reading cid c))%string.
Proof.
  unfold ACLMessage_init, id_reading.
  destruct cid as [x|]; [destruct (String.eqb x "")|]; reflexivity.
Qed.

(** Two generated ids are equal exactly when the senders are equal and the
    readings of the clock are. *)
Lemma generated_ids_equal (s1 s2 : string) (t1 t2 : datetime) :
  datetime_ok t1 = true -> datetime_ok t2 = true ->
  ("MSG_" ++ s1 ++ "_" ++ strftime_compact t1)%string
  = ("MSG_" ++ s2 ++ "_" ++ strftime_compact t2)%string <->
  s1 = s2 /\ t1 = t2.
Proof.
  intros H1 H2. split.
  - intros H. apply append_inj in H; [|reflexivity]. destruct H as [_ H].
    apply append_inj_r in H.
    + destruct H as [-> H]. apply append_inj in H; [|reflexivity].
      destruct H as [_ H].
      split; [reflexivity|]. apply strftime_compact_inj; assumption.
    + rewrite !append_length, !strftime_compact_length. reflexivity.
  - intros [-> ->]. reflexivity.
Qed.

(** Constructions by different senders, or at different readings of the
    clock, get different ids. *)
Lemma message_ids_differ p1 p2 s1 s2 r1 r2 ct1 ct2 l1 l2 o1 o2 pr1 pr2
    cid1 cid2 rt1 rt2 irt1 irt2 c1 c2 :
  clock_ok c1 -> clock_ok c2 ->
  s1 <> s2 \/ id_reading cid1 c1 <> id_reading cid2 c2 ->
  message_id (fst (ACLMessage_init p1 s1 r1 ct1 l1 o1 pr1 cid1 rt1 irt1 c1)) <>
  message_id (fst (ACLMessage_init p2 s2 r2 ct2 l2 o2 pr2 cid2 rt2 irt2 c2)).
Proof.
  intros K1 K2 Hd. rewrite !init_message_id. intros H.
  apply generated_ids_equal in H.
  - destruct H as [Hs Ht]. destruct Hd; contradiction.
  - unfold id_reading. destruct cid1 as [x|]; [destruct (String.eqb x "")|]; apply K1.
  - unfold id_reading. destruct cid2 as [x|]; [destruct (String.eqb x "")|]; apply K2.
Qed.

(** C9 on the code.  Two messages that one sender builds one after the
    other while the clock shows the same microsecond are different messages
    with the same [message_id], and the conversation ids generated for them
    are the same too. *)
Theorem message_id_collision :
  let first :=
    ACLMessage_init INFORM "agent_a" "agent_b" (PyDict [("fact", PyStr "road_blocked")])
      default_language default_ontology default_protocol None None None
      Scenario.frozen in
  let second :=
    ACLMessage_init REQUEST "agent_a" "agent_c" Scenario.investigate
      default_language default_ontology default_protocol None None None
      (snd first) in
  fst first <> fst second /\
  message_id (fst first) = "MSG_agent_a_20260115120000000000" /\
  message_id (fst second) = "MSG_agent_a_20260115120000000000" /\
  conversation_id (fst first) = conversation_id (fst second).
Proof.
  cbv zeta. repeat split; try (vm_compute; reflexivity).
  vm_compute. intros H. discriminate H.
Qed.

End MessageFacts.

(** ** The communicating agent *)

Section CommFacts.

Variable State : Type.
Variable py_str : PyVal -> string.
Variable X : Type.

Local Abbreviation CA := (@CommunicatingAgent State X).
Local Abbreviation Table := (@HandlerTable State X).

Lemma validate_accepts (m : ACLMessage) :
  sender m <> "" -> receiver m <> "" -> is_none (content m) = false ->
  performative m <> REQUEST -> validate m = (true, None).
Proof.
  intros Hs Hr Hc Hp. unfold validate.
  apply String.eqb_neq in Hs, Hr. rewrite Hs, Hr, Hc. simpl.
  unfold Performative_eqb.
  destruct (Performative_eq_dec (performative m) REQUEST); [contradiction|reflexivity].
Qed.

Lemma validate_rejects_request (m : ACLMessage) :
  performative m = REQUEST -> has_key (content m) "action" = false ->
  fst (validate m) = false.
Proof.
  intros Hp Hk. unfold validate.
  destruct (String.eqb (sender m) ""); [reflexivity|].
  destruct (String.eqb (receiver m) ""); [reflexivity|]. simpl.
  destruct (is_none (content m)); [reflexivity|].
  rewrite Hp, Hk, orb_true_r. reflexivity.
Qed.

Lemma validate_rejects_sender (m : ACLMessage) :
  sender m = "" -> fst (validate m) = false.
Proof. intros H. unfold validate. rewrite H. reflexivity. Qed.

Lemma validate_rejects_receiver (m : ACLMessage) :
  receiver m = "" -> fst (validate m) = false.
Proof.
  intros H. unfold validate. rewrite H.
  destruct (String.eqb (sender m) ""); reflexivity.
Qed.

Lemma send_message_valid (a : CA) (m : ACLMessage) :
  validate m = (true, None) ->
  outbox (domain (send_message py_str a m)) = outbox (domain a) ++ [m] /\
  message_history (domain (send_message py_str a m)) = message_history (domain a) ++ [m] /\
  inbox (domain (send_message py_str a m)) = inbox (domain a).
Proof. intros H. unfold send_message. rewrite H. repeat split; reflexivity. Qed.

Lemma send_message_invalid (a : CA) (m : ACLMessage) :
  fst (validate m) = false ->
  send_message py_str a m
  = _log_trace a ("ERROR: Invalid message - " ++ fmt_opt (snd (validate m)))%string.
Proof.
  intros H. unfold send_message. destruct (validate m) as [v err]. simpl in H.
  rewrite H. reflexivity.
Qed.

Lemma send_reply_sent (a : CA) (m : ACLMessage) (p : Performative) (ct : PyVal) :
  agent_id a <> "" -> sender m <> "" -> p <> REQUEST -> is_none ct = false ->
  let a' := send_reply py_str a m p ct in
  outbox (domain a') = outbox (domain a) ++ [reply_of a m p ct] /\
  message_history (domain a') = message_history (domain a) ++ [reply_of a m p ct] /\
  inbox (domain a') = inbox (domain a).
Proof.
  intros Ha Hs Hp Hc. unfold send_reply, reply_of.
  destruct (create_reply_fields m p ct (agent_id a) (clock a))
    as (Hr & _ & Hpf & Hct & Hsd).
  destruct (create_reply m p ct (agent_id a) (clock a)) as [reply c1].
  simpl in *.
  assert (Hv : validate reply = (true, None)).
  { apply validate_accepts.
    - rewrite Hsd. exact Ha.
    - rewrite Hr. exact Hs.
    - rewrite Hct. exact Hc.
    - rewrite Hpf. exact Hp. }
  exact (send_message_valid (set_clock a c1) reply Hv).
Qed.

Lemma send_reply_dropped (a : CA) (m : ACLMessage) (p : Performative) (ct : PyVal) :
  agent_id a = "" \/ sender m = "" ->
  let a' := send_reply py_str a m p ct in
  outbox (domain a') = outbox (domain a) /\
  message_history (domain a') = message_history (domain a) /\
  inbox (domain a') = inbox (domain a).
Proof.
  intros H. unfold send_reply.
  destruct (create_reply_fields m p ct (agent_id a) (clock a))
    as (Hr & _ & _ & _ & Hsd).
  destruct (create_reply m p ct (agent_id a) (clock a)) as [reply c1].
  simpl in *. rewrite send_message_invalid.
  - repeat split; reflexivity.
  - destruct H as [H|H].
    + apply validate_rejects_sender. rewrite Hsd. exact H.
    + apply validate_rejects_receiver. rewrite Hr. exact H.
Qed.

Lemma fallback_reached (tbl : Table) (m : ACLMessage) (a a1 : CA) (reason : string) :
  _process_message py_str tbl m a
    = (_send_not_understood py_str a1 m reason, None) ->
  agent_id a1 <> "" -> sender m <> "" ->
  fallback_outcome py_str tbl m a a1 reason.
Proof.
  intros Hrun Ha Hs. exists (_send_not_understood py_str a1 m reason).
  split; [exact Hrun|]. cbv zeta.
  destruct (send_reply_sent a1 m NOT_UNDERSTOOD (not_understood_content m reason)
              Ha Hs ltac:(discriminate) eq_refl) as (Ho & Hh & Hi).
  destruct (create_reply_fields m NOT_UNDERSTOOD (not_understood_content m reason)
              (agent_id a1) (clock a1)) as (Hr & Hirt & Hp & Hc & Hsd).
  repeat split; try assumption.
  intros fuel b rest Hb Hset. cbn [process_messages]. rewrite Hb, Hset, Hrun.
  reflexivity.
Qed.

Lemma fallback_no_handler (tbl : Table) (m : ACLMessage) (a : CA) :
  sender m <> "" -> tbl (performative m) = None -> agent_id a <> "" ->
  fallback_outcome py_str tbl m a
    (_log_trace (_log_trace a ("Processing message: " ++ message_id m)%string)
                ("No handler for " ++ value (performative m))%string)
    ("No handler for " ++ value (performative m))%string.
Proof.
  intros Hs Hn Ha. apply fallback_reached; [|exact Ha|exact Hs].
  unfold _process_message, andthen, done. rewrite Hn. reflexivity.
Qed.

Lemma fallback_handler_raises (tbl : Table) (m : ACLMessage) (a ah : CA)
    (h : @Handler State X) (e : PyExn) :
  sender m <> "" -> tbl (performative m) = Some h ->
  h m (_log_trace a ("Processing message: " ++ message_id m)%string) = (ah, Some e) ->
  agent_id ah <> "" ->
  fallback_outcome py_str tbl m a
    (_log_trace ah ("ERROR in message handler: " ++ exn_text e)%string)
    (exn_text e).
Proof.
  intros Hs Hh Hrun Ha. apply fallback_reached; [|exact Ha|exact Hs].
  unfold _process_message, andthen, done, try_except. rewrite Hh, Hrun. reflexivity.
Qed.

(** C4, as the code has it.  When a message from a named sender has no
    registered handler, or its handler raises, and the agent has a
    non-empty id, processing it returns without an exception and puts
    exactly one [not-understood] reply into the outbox, addressed to the
    sender of the message and carrying the reason and the message id; the
    drain of the inbox goes on with the next message. *)
Theorem not_understood_fallback (tbl : Table) (m : ACLMessage) (a : CA) :
  sender m <> "" ->
  let a0 := _log_trace a ("Processing message: " ++ message_id m)%string in
  (tbl (performative m) = None -> agent_id a <> "" ->
   let reason := ("No handler for " ++ value (performative m))%string in
   fallback_outcome py_str tbl m a (_log_trace a0 reason) reason)
  /\
  (forall h ah e,
      tbl (performative m) = Some h -> h m a0 = (ah, Some e) -> agent_id ah <> "" ->
      fallback_outcome py_str tbl m a
        (_log_trace ah ("ERROR in message handler: " ++ exn_text e)%string)
        (exn_text e)).
Proof.
  intros Hs a0. split.
  - intros Hn Ha reason. apply fallback_no_handler; assumption.
  - intros h ah e Hh Hrun Ha. eapply fallback_handler_raises; eassumption.
Qed.

(** C7.  A request whose content has no ['action'] entry fails [validate],
    and [send_message] returns having written only the error to the trace:
    outbox and message history are as before. *)
Theorem request_without_action_not_sent (a : CA) (m : ACLMessage) :
  performative m = REQUEST ->
  has_key (content m) "action" = false ->
  fst (validate m) = false /\
  outbox (domain (send_message py_str a m)) = outbox (domain a) /\
  message_history (domain (send_message py_str a m)) = message_history (domain a) /\
  send_message py_str a m
  = _log_trace a ("ERROR: Invalid message - " ++ fmt_opt (snd (validate m)))%string.
Proof.
  intros Hp Hk. pose proof (validate_rejects_request m Hp Hk) as Hv.
  rewrite (send_message_invalid a m Hv). repeat split; [exact Hv|reflexivity..].
Qed.

Lemma trace_only_handler (tbl : Table) (m : ACLMessage) (a : CA)
    (line : ACLMessage -> string) :
  tbl (performative m) = Some (fun msg => done (fun b => _log_trace b (line msg))) ->
  exists a',
    _process_message py_str tbl m a = (a', None) /\
    outbox (domain a') = outbox (domain a) /\
    message_history (domain a') = message_history (domain a) /\
    inbox (domain a') = inbox (domain a).
Proof.
  intros H. unfold _process_message, andthen, done, try_except. rewrite H.
  eexists. split; [reflexivity|]. repeat split; reflexivity.
Qed.

(** C8, as the code has it.  With the default handlers, processing an
    [inform] or a [confirm] message only writes to the trace.  Processing a
    [request] from a named sender, by an agent with a non-empty id, puts
    exactly one [refuse] reply into the outbox, in the conversation of the
    request.  [disconfirm] has no default handler: such a message gets the
    [not-understood] reply. *)
Theorem default_handlers_behaviour (m : ACLMessage) (a : CA) :
  (performative m = INFORM \/ performative m = CONFIRM ->
   exists a',
     _process_message py_str (default_handlers py_str) m a = (a', None) /\
     outbox (domain a') = outbox (domain a) /\
     message_history (domain a') = message_history (domain a) /\
     inbox (domain a') = inbox (domain a))
  /\
  (performative m = REQUEST -> constructed m -> sender m <> "" -> agent_id a <> "" ->
   exists a' reply,
     _process_message py_str (default_handlers py_str) m a = (a', None) /\
     outbox (domain a') = outbox (domain a) ++ [reply] /\
     performative reply = REFUSE /\
     conversation_id reply = conversation_id m /\
     receiver reply = sender m /\
     in_reply_to reply = Some (message_id m) /\
     content reply = PyDict [("reason", PyStr "Action not supported");
                             ("action", extract_action py_str m)])
  /\
  (performative m = DISCONFIRM -> sender m <> "" -> agent_id a <> "" ->
   (default_handlers py_str : Table) DISCONFIRM = None /\
   fallback_outcome py_str (default_handlers py_str) m a
     (_log_trace (_log_trace a ("Processing message: " ++ message_id m)%string)
                 "No handler for disconfirm")
     "No handler for disconfirm").
Proof.
  split; [|split].
  - intros [Hp|Hp].
    + apply (trace_only_handler _ m a
               (fun msg => "Informed: " ++ py_str (extract_information msg))%string).
      rewrite Hp. reflexivity.
    + apply (trace_only_handler _ m a
               (fun msg => "Confirmed: " ++ py_str (content msg))%string).
      rewrite Hp. reflexivity.
  - intros Hp K Hs Ha.
    set (a1 := _log_trace
                 (_log_trace a ("Processing message: " ++ message_id m)%string)
                 ("Request to perform action: " ++
                  py_str (extract_action py_str m))%string).
    set (ct := PyDict [("reason", PyStr "Action not supported");
                       ("action", extract_action py_str m)]).
    exists (send_reply py_str a1 m REFUSE ct), (reply_of a1 m REFUSE ct).
    destruct (send_reply_sent a1 m REFUSE ct Ha Hs ltac:(discriminate) eq_refl)
      as (Ho & _ & _).
    destruct (constructed_invariant m K) as [Hcid _].
    destruct (create_reply_thread m REFUSE ct (agent_id a1) (clock a1) Hcid)
      as (Hc & _).
    destruct (create_reply_fields m REFUSE ct (agent_id a1) (clock a1))
      as (Hr & Hirt & Hpf & Hct & _).
    repeat split; try assumption.
    unfold _process_message, andthen, done, try_except. rewrite Hp. reflexivity.
  - intros Hp Hs Ha. split; [reflexivity|].
    pose proof (fallback_no_handler (default_handlers py_str) m a Hs) as Hf.
    rewrite Hp in Hf. apply Hf; [reflexivity|exact Ha].
Qed.

(** C10.  [receive_message] puts every message, valid or not, at the end
    of the inbox and of the message history; and [_process_message] hands a
    message that has a registered handler to that handler without looking
    at [validate]. *)
Theorem receive_message_unconditional (a : CA) (m : ACLMessage) :
  inbox (domain (receive_message py_str a m)) = inbox (domain a) ++ [m] /\
  message_history (domain (receive_message py_str a m))
    = message_history (domain a) ++ [m] /\
  outbox (domain (receive_message py_str a m)) = outbox (domain a) /\
  (forall (tbl : Table) h fuel,
      inbox (domain a) = [] ->
      tbl (performative m) = Some h ->
      forall a1,
        h m (_log_trace (set_inbox (receive_message py_str a m) [])
                        ("Processing message: " ++ message_id m)%string)
          = (a1, None) ->
        process_messages py_str (S fuel) tbl (receive_message py_str a m)
          = process_messages py_str fuel tbl a1).
Proof.
  repeat split.
  intros tbl h fuel Hi Hh a1 Hrun.
  cbn [process_messages].
  replace (inbox (domain (receive_message py_str a m))) with (inbox (domain a) ++ [m])
    by reflexivity.
  rewrite Hi. cbn [app].
  unfold _process_message, andthen, done, try_except. rewrite Hh, Hrun. reflexivity.
Qed.

End CommFacts.

(** ** The properties on the scenarios *)

Import Scenario.

(** [sorted([("a", 3), ("b", 3), ("c", 5), ("d", 3)], key=..., reverse=True)]:
    the elements of key 3 keep their order. *)
Example sort_desc_ties :
  sort_desc snd [("a", 3%Z); ("b", 3%Z); ("c", 5%Z); ("d", 3%Z)]
  = [("c", 5%Z); ("a", 3%Z); ("b", 3%Z); ("d", 3%Z)].
Proof. reflexivity. Qed.

(** The first scenario of the specification: an idle agent with the one
    rule IDLE to RESPONDING on a building collapse receives a fire event of
    priority 4 and then a collapse event of priority 5.  The collapse is
    processed first and moves the agent to RESPONDING; the fire event,
    processed second, matches nothing. *)
Example collapse_before_fire :
  dequeued RescueAgentState_eq_dec state_str 2 [on_collapse]
    (receive_event show (receive_event show rescuer fire_detected) building_collapse)
  = Some [building_collapse; fire_detected] /\
  option_map (fun r => (current_state (fst r), event_queue (fst r), snd r))
    (process_events RescueAgentState_eq_dec state_str 2 [on_collapse]
       (receive_event show (receive_event show rescuer fire_detected)
                      building_collapse))
  = Some (RESPONDING, [], None).
Proof. split; vm_compute; reflexivity. Qed.

(** The second scenario: a request for an investigation sent to an agent
    with the default handlers is answered by a refusal in the same
    conversation. *)
Example request_is_refused :
  option_map
    (fun r => map (fun reply => (performative reply, receiver reply,
                                 conversation_id reply))
                  (outbox (domain (fst r))))
    (process_messages show 1 (default_handlers show)
       (receive_message show agent_b request_a))
  = Some [(REFUSE, "agent_a", conversation_id request_a)].
Proof. vm_compute. reflexivity. Qed.

(** The third scenario: completing a goal twice raises nothing, and
    [completed_at] is the time of the later call. *)
Example goal_completed_twice :
  let (g0, c0) := AgentGoal_init "quick_response" "Respond quickly" 5 ticking in
  let (g1, c1) := complete g0 c0 in
  let (g2, c2) := complete g1 c1 in
  status g2 = "completed" /\
  completed_at g1 = Some (readings ticking 1) /\
  completed_at g2 = Some (readings ticking 2).
Proof. vm_compute. repeat split; reflexivity. Qed.

Lemma on_collapse_keeps_queue : keeps_queue [on_collapse].
Proof. intros t act [<-|[]] H. discriminate H. Qed.

Lemma dequeue_order_witness :
  keeps_queue [on_collapse] /\
  event_queue rescuer = [] /\
  List.length [fire_detected; building_collapse] <= 2 /\
  exists popped rest a' r,
    process_events_from RescueAgentState_eq_dec state_str 2 [on_collapse] []
      (fold_left (receive_event show) [fire_detected; building_collapse] rescuer)
      = Some (popped, (a', r)) /\
    popped ++ rest = sort_desc priority [fire_detected; building_collapse] /\
    (r = None -> rest = []) /\
    desc priority popped /\
    forall p, filter (same_key priority p) popped ++ filter (same_key priority p) rest
              = filter (same_key priority p) [fire_detected; building_collapse].
Proof.
  split; [exact on_collapse_keeps_queue|].
  split; [reflexivity|].
  split; [apply le_n|].
  exact (proj1 (dequeue_order RescueAgentState RescueAgentState_eq_dec state_str show
                  unit [on_collapse]
                  [fire_detected; building_collapse] rescuer 2
                  on_collapse_keeps_queue eq_refl (le_n 2))).
Defined.

(** C2 fails as stated.  The fire event (priority 4) is received and
    processed, then the collapse event (priority 5) is received and
    processed: the events are popped in the order fire, collapse, which is
    not a non-increasing priority order.  The same order comes out of a
    single call of [process_events] when the action fired by the fire event
    hands the collapse event to [receive_event]. *)
Lemma interleaved_dequeue_not_sorted :
  (exists popped a',
      run_steps RescueAgentState_eq_dec state_str show 2 [on_collapse]
        [Receive fire_detected; Process; Receive building_collapse; Process] [] rescuer
        = Some (popped, a') /\
      popped = [fire_detected; building_collapse] /\
      ~ desc priority popped)
  /\
  (dequeued RescueAgentState_eq_dec state_str 2 [escalate]
     (receive_event show rescuer fire_detected)
   = Some [fire_detected; building_collapse] /\
   ~ desc priority [fire_detected; building_collapse]).
Proof.
  assert (N : ~ desc priority [fire_detected; building_collapse]).
  { intros H. apply desc_head in H. inversion H as [|? ? Hle _]. subst.
    vm_compute in Hle. apply Hle. reflexivity. }
  split.
  - eexists. eexists. split; [vm_compute; reflexivity|].
    split; [reflexivity|exact N].
  - split; [vm_compute; reflexivity|exact N].
Qed.

Lemma raising_guard_is_skipped_witness :
  condition broken_guard rescuer building_collapse
    = Exc (mk_exn "KeyError" "'location'") /\
  can_transition broken_guard rescuer building_collapse = false /\
  _react_to_event RescueAgentState_eq_dec state_str [broken_guard]
    building_collapse rescuer = (rescuer, None) /\
  _react_to_event RescueAgentState_eq_dec state_str
    ([] ++ broken_guard :: [on_collapse]) building_collapse rescuer
  = _react_to_event RescueAgentState_eq_dec state_str
      ([] ++ [on_collapse]) building_collapse rescuer /\
  (forall fuel ts (a' : @FSMAgent RescueAgentState unit),
      process_events RescueAgentState_eq_dec state_str fuel (map contained ts) a'
      = process_events RescueAgentState_eq_dec state_str fuel ts a').
Proof.
  split; [reflexivity|].
  exact (raising_guard_is_skipped RescueAgentState RescueAgentState_eq_dec state_str
           unit []
           [on_collapse] broken_guard building_collapse rescuer
           (mk_exn "KeyError" "'location'") eq_refl).
Defined.

Lemma agree_a_named : sender agree_a <> "".
Proof. discriminate. Qed.

Lemma not_understood_fallback_witness :
  sender agree_a <> "" /\
  fallback_outcome show (default_handlers show) agree_a agent_b
    (_log_trace
       (_log_trace agent_b ("Processing message: " ++ message_id agree_a)%string)
       "No handler for agree")
    "No handler for agree".
Proof.
  split; [exact agree_a_named|].
  apply (proj1 (not_understood_fallback RescueAgentState show unit
                  (default_handlers show) agree_a agent_b agree_a_named)).
  - reflexivity.
  - discriminate.
Defined.

(** C4 fails as stated.  A message that names no sender is in the inbox
    like any other; its performative has no handler, the reply built for it
    has no receiver, [send_message] rejects the reply, and the outbox stays
    empty.  So it does when the agent has an empty id and the reply has no
    sender. *)
Lemma anonymous_sender_gets_no_reply :
  (sender anonymous = "" /\
   (default_handlers show : @HandlerTable RescueAgentState unit)
     (performative anonymous) = None /\
   outbox (domain agent_b) = [] /\
   exists a',
     _process_message show (default_handlers show) anonymous
       (set_inbox (receive_message show agent_b anonymous) []) = (a', None) /\
     outbox (domain a') = [] /\
     message_history (domain a') = [anonymous])
  /\
  (agent_id nameless = "" /\
   exists a',
     _process_message show (default_handlers show) agree_a
       (set_inbox (receive_message show nameless agree_a) []) = (a', None) /\
     outbox (domain a') = [] /\
     message_history (domain a') = [agree_a]).
Proof.
  split.
  - split; [reflexivity|]. split; [reflexivity|]. split; [reflexivity|].
    eexists. split; [vm_compute; reflexivity|]. split; reflexivity.
  - split; [reflexivity|].
    eexists. split; [vm_compute; reflexivity|]. split; reflexivity.
Qed.

Lemma create_reply_links_witness :
  constructed request_a /\
  receiver (fst (create_reply request_a REFUSE (PyDict []) "agent_b" frozen))
    = sender request_a /\
  conversation_id (fst (create_reply request_a REFUSE (PyDict []) "agent_b" frozen))
    = conversation_id request_a /\
  in_reply_to (fst (create_reply request_a REFUSE (PyDict []) "agent_b" frozen))
    = Some (message_id request_a).
Proof.
  split; [exact request_a_constructed|].
  pose proof (create_reply_links request_a REFUSE (PyDict []) "agent_b" frozen
                request_a_constructed) as H.
  cbv zeta in H. destruct H as (H1 & H2 & H3 & _).
  split; [exact H1|]. split; [exact H2|exact H3].
Defined.

Lemma request_without_action_not_sent_witness :
  performative bare_request = REQUEST /\
  has_key (content bare_request) "action" = false /\
  fst (validate bare_request) = false /\
  outbox (domain (send_message show agent_b bare_request)) = outbox (domain agent_b) /\
  message_history (domain (send_message show agent_b bare_request))
    = message_history (domain agent_b) /\
  send_message show agent_b bare_request
  = _log_trace agent_b
      ("ERROR: Invalid message - " ++ fmt_opt (snd (validate bare_request)))%string.
Proof.
  split; [reflexivity|]. split; [reflexivity|].
  exact (request_without_action_not_sent RescueAgentState show unit agent_b
           bare_request eq_refl eq_refl).
Defined.

Lemma request_a_named : sender request_a <> "".
Proof. discriminate. Qed.

Lemma agent_b_named : agent_id agent_b <> "".
Proof. discriminate. Qed.

Lemma default_handlers_behaviour_witness :
  performative request_a = REQUEST /\
  constructed request_a /\
  sender request_a <> "" /\
  agent_id agent_b <> "" /\
  exists a' reply,
    _process_message show (default_handlers show) request_a agent_b = (a', None) /\
    outbox (domain a') = outbox (domain agent_b) ++ [reply] /\
    performative reply = REFUSE /\
    conversation_id reply = conversation_id request_a /\
    receiver reply = sender request_a /\
    in_reply_to reply = Some (message_id request_a) /\
    content reply = PyDict [("reason", PyStr "Action not supported");
                            ("action", extract_action show request_a)].
Proof.
  split; [reflexivity|]. split; [exact request_a_constructed|].
  split; [exact request_a_named|]. split; [exact agent_b_named|].
  exact (proj1 (proj2 (default_handlers_behaviour RescueAgentState show unit
                         request_a agent_b))
           eq_refl request_a_constructed request_a_named agent_b_named).
Defined.

(** C8 fails as stated.  With the default handlers a [disconfirm] message
    is not trace-only: no handler is registered for it, and processing it
    puts a [not-understood] reply into the outbox.  And a [request] that
    names no sender gets no [refuse] reply: the reply has no receiver and
    [send_message] rejects it. *)
Lemma disconfirm_draws_not_understood :
  (performative disconfirm_a = DISCONFIRM /\
   outbox (domain agent_b) = [] /\
   exists a' reply,
     _process_message show (default_handlers show) disconfirm_a agent_b = (a', None) /\
     outbox (domain a') = [reply] /\
     performative reply = NOT_UNDERSTOOD /\
     receiver reply = "agent_a")
  /\
  (performative anonymous_request = REQUEST /\
   exists a',
     _process_message show (default_handlers show) anonymous_request agent_b
       = (a', None) /\
     outbox (domain a') = []).
Proof.
  split.
  - split; [reflexivity|]. split; [reflexivity|].
    eexists. eexists. split; [vm_compute; reflexivity|].
    split; [reflexivity|]. split; reflexivity.
  - split; [reflexivity|].
    eexists. split; [vm_compute; reflexivity|]. reflexivity.
Qed.

Lemma receive_message_unconditional_witness :
  fst (validate anonymous_request) = false /\
  inbox (domain (receive_message show agent_b anonymous_request))
    = inbox (domain agent_b) ++ [anonymous_request] /\
  message_history (domain (receive_message show agent_b anonymous_request))
    = message_history (domain agent_b) ++ [anonymous_request] /\
  process_messages show 2 (default_handlers show)
    (receive_message show agent_b anonymous_request)
  = process_messages show 1 (default_handlers show)
      (fst (_handle_request show anonymous_request
              (_log_trace (set_inbox (receive_message show agent_b anonymous_request) [])
                          ("Processing message: " ++ message_id anonymous_request)%string))).
Proof.
  split; [reflexivity|].
  destruct (receive_message_unconditional RescueAgentState show unit agent_b
              anonymous_request) as (H1 & H2 & _ & H4).
  split; [exact H1|]. split; [exact H2|].
  apply (H4 (default_handlers show) (_handle_request show) 1 eq_refl eq_refl).
  unfold _handle_request, done. cbn [fst]. reflexivity.
Defined.

(* ================================================================== *)
(** * Further properties *)

(** ** Validation, wire tags and deserialization *)

Section MoreMessageFacts.

(** X1.  [validate] accepts a message exactly when sender and receiver are
    non-empty, the content is not [None] and, for a request, the content is
    a dict with an ['action'] entry; it names an error exactly when it
    rejects. *)
Theorem validate_characterised (m : ACLMessage) :
  (fst (validate m) = true <->
   sender m <> "" /\ receiver m <> "" /\ is_none (content m) = false /\
   (performative m = REQUEST -> has_key (content m) "action" = true)) /\
  (snd (validate m) = None <-> fst (validate m) = true).
Proof.
  unfold validate.
  destruct (String.eqb (sender m) "") eqn:Es.
  { apply String.eqb_eq in Es. simpl.
    intuition (try discriminate; try congruence). }
  destruct (String.eqb (receiver m) "") eqn:Er.
  { apply String.eqb_eq in Er. simpl.
    intuition (try discriminate; try congruence). }
  apply String.eqb_neq in Es, Er. cbn [negb Performative_truthy].
  destruct (is_none (content m)) eqn:Ec.
  { simpl. intuition (try discriminate; try congruence). }
  unfold Performative_eqb.
  destruct (Performative_eq_dec (performative m) REQUEST) as [Ep|Ep].
  - destruct (has_key (content m) "action") eqn:Ek.
    + assert (Hd : isinstance_dict (content m) = true).
      { destruct (content m); try discriminate; reflexivity. }
      rewrite Hd. simpl. intuition (try discriminate; try congruence).
    + rewrite orb_true_r. simpl. intuition (try discriminate; try congruence).
  - simpl. intuition (try discriminate; try congruence).
Qed.

Lemma performative_of_value_sound (s : string) (p : Performative) :
  Performative_of_value s = Some p -> value p = s.
Proof.
  unfold Performative_of_value. intros H. apply find_some in H.
  destruct H as [_ H]. apply String.eqb_eq in H. exact H.
Qed.

(** X2.  The wire tags of the performatives and the enumeration correspond
    one to one: looking up the tag of a member gives the member, a lookup
    that succeeds gives a member with that tag, and different members have
    different tags. *)
Theorem performative_tags_one_to_one :
  (forall p, Performative_of_value (value p) = Some p) /\
  (forall s p, Performative_of_value s = Some p -> value p = s) /\
  (forall p q, value p = value q -> p = q).
Proof.
  split; [exact performative_of_value|].
  split; [exact performative_of_value_sound|].
  intros p q H. pose proof (performative_of_value p) as Hp.
  rewrite H, performative_of_value in Hp. injection Hp as Hp. symmetry; exact Hp.
Qed.

(** X3.  [from_dict] raises when the wire record lacks one of the keys
    [performative], [sender], [receiver] and [content], and when its
    performative is not the tag of a member. *)
Theorem from_dict_required_keys (data : PyDictT) (c : Clock) (k : string) :
  (In k ["performative"; "sender"; "receiver"; "content"] /\ dict_get data k = None) \/
  (exists s, dict_get data "performative" = Some (PyStr s) /\
             Performative_of_value s = None) ->
  from_dict data c = None.
Proof.
  intros [[Hin Hk]|(s & Hs & Hp)].
  - unfold from_dict, item_str.
    destruct Hin as [<-|[<-|[<-|[<-|[]]]]]; rewrite ?Hk; try reflexivity.
    + destruct (match dict_get data "performative" with Some v => as_str v | None => None end);
        [|reflexivity].
      destruct (Performative_of_value _); reflexivity.
    + destruct (match dict_get data "performative" with Some v => as_str v | None => None end);
        [|reflexivity].
      destruct (Performative_of_value _); [|reflexivity].
      destruct (match dict_get data "sender" with Some v => as_str v | None => None end);
        reflexivity.
    + destruct (match dict_get data "performative" with Some v => as_str v | None => None end);
        [|reflexivity].
      destruct (Performative_of_value _); [|reflexivity].
      destruct (match dict_get data "sender" with Some v => as_str v | None => None end);
        [|reflexivity].
      destruct (match dict_get data "receiver" with Some v => as_str v | None => None end);
        reflexivity.
  - unfold from_dict, item_str. rewrite Hs. cbn [as_str]. rewrite Hp. reflexivity.
Qed.

(** X4.  A wire record that has the four required fields and none of the
    others is deserialized like a construction with the default language,
    ontology and protocol: the message gets a generated conversation id, a
    generated message id and the current time.  Nothing is validated on the
    way. *)
Theorem from_dict_defaults (data : PyDictT) (c : Clock) (p : Performative)
    (s r : string) (ct : PyVal) :
  dict_get data "performative" = Some (PyStr (value p)) ->
  dict_get data "sender" = Some (PyStr s) ->
  dict_get data "receiver" = Some (PyStr r) ->
  dict_get data "content" = Some ct ->
  (forall k, In k ["language"; "ontology"; "protocol"; "conversation_id";
                   "reply_to"; "in_reply_to"; "message_id"; "timestamp"] ->
             dict_get data k = None) ->
  from_dict data c
  = Some (ACLMessage_init p s r ct "python-dict" "disaster-response" "fipa-request"
                          None None None c).
Proof.
  intros Hp Hs Hr Hc Hopt.
  unfold from_dict, item_str, get_str, get_opt_str, restore_message_id,
    restore_timestamp.
  rewrite Hp, Hs, Hr, Hc. cbn [as_str]. rewrite performative_of_value.
  rewrite !Hopt by (simpl; tauto).
  destruct (ACLMessage_init _ _ _ _ _ _ _ _ _ _ _) as [msg c1]. reflexivity.
Qed.

Lemma create_reply_conversation (m : ACLMessage) p ct s c :
  conversation_id m <> "" ->
  conversation_id (fst (create_reply m p ct s c)) = conversation_id m.
Proof. intros H. apply (create_reply_thread m p ct s c H). Qed.

Lemma reply_chain_linked (steps : list (Performative * PyVal * string)) :
  forall m c, conversation_id m <> "" ->
  Forall (fun r => conversation_id r = conversation_id m) (fst (reply_chain m steps c)) /\
  linked m (fst (reply_chain m steps c)).
Proof.
  induction steps as [|[[p ct] s] steps IH]; intros m c Hm; simpl.
  - split; constructor.
  - pose proof (create_reply_conversation m p ct s c Hm) as Hc.
    destruct (create_reply_fields m p ct s c) as (Hr & Hirt & _).
    destruct (create_reply m p ct s c) as [r c1]. simpl in *.
    assert (Hr0 : conversation_id r <> "") by (rewrite Hc; exact Hm).
    destruct (IH r c1 Hr0) as [Hf Hl].
    destruct (reply_chain r steps c1) as [rs c2]. simpl in *.
    split.
    + constructor; [exact Hc|]. eapply Forall_impl; [|exact Hf].
      simpl. intros x Hx. rewrite Hx. exact Hc.
    + repeat split; assumption.
Qed.

(** X5.  A conversation continued by [create_reply] alone keeps its
    conversation id however long it gets, and every message of it names the
    message before it in [in_reply_to] and is addressed to that message's
    sender. *)
Theorem reply_chain_keeps_conversation (m : ACLMessage)
    (steps : list (Performative * PyVal * string)) (c : Clock) :
  constructed m ->
  Forall (fun r => conversation_id r = conversation_id m) (fst (reply_chain m steps c)) /\
  linked m (fst (reply_chain m steps c)) /\
  List.length (fst (reply_chain m steps c)) = List.length steps.
Proof.
  intros K. destruct (constructed_invariant m K) as [Hm _].
  destruct (reply_chain_linked steps m c Hm) as [H1 H2].
  repeat split; try assumption.
  clear. revert m c. induction steps as [|[[p ct] s] steps IH]; intros m c; simpl.
  - reflexivity.
  - destruct (create_reply m p ct s c) as [r c1].
    specialize (IH r c1). destruct (reply_chain r steps c1) as [rs c2].
    simpl in *. rewrite IH. reflexivity.
Qed.

End MoreMessageFacts.

Section ParserFacts.

Variable py_str : PyVal -> string.

(** X6.  [MessageParser.parse] always carries the five envelope entries.
    Its [information] entry is what [extract_information] returns for an
    inform message, and its [action] entry is what [extract_action] returns
    for a request whose content is a dict.  For a request with any other
    content the two differ in kind: [parse] gives the content itself,
    [extract_action] its [str()]. *)
Theorem parse_agrees_with_extractors (m : ACLMessage) :
  (adict_get (parse m) "performative" = Some (PPerformative (performative m)) /\
   adict_get (parse m) "sender" = Some (PVal (PyStr (sender m))) /\
   adict_get (parse m) "receiver" = Some (PVal (PyStr (receiver m))) /\
   adict_get (parse m) "conversation_id" = Some (PVal (PyStr (conversation_id m))) /\
   adict_get (parse m) "timestamp" = Some (PDatetime (timestamp m))) /\
  (performative m = INFORM ->
   adict_get (parse m) "information" = Some (PVal (extract_information m))) /\
  (performative m = REQUEST -> isinstance_dict (content m) = true ->
   adict_get (parse m) "action" = Some (PVal (extract_action py_str m))) /\
  (performative m = REQUEST -> isinstance_dict (content m) = false ->
   adict_get (parse m) "action" = Some (PVal (content m)) /\
   extract_action py_str m = PyStr (py_str (content m))).
Proof.
  unfold parse, extract_information, extract_action.
  destruct (performative m) eqn:Ep; cbn [Performative_eqb Performative_eq_dec];
    destruct (content m) eqn:Ec; simpl;
    repeat split; intros; try discriminate; try reflexivity.
Qed.

End ParserFacts.

(** ** The kernel: history, conservation of events, identifiers, goals *)

Section MoreKernelFacts.

Variable State : Type.
Variable State_eq_dec : forall x y : State, {x = y} + {x <> y}.
Variable state_str : State -> string.
Variable py_str : PyVal -> string.
Variable D : Type.

Local Abbreviation Agent := (@FSMAgent State D).
Local Abbreviation Rule := (@Transition State D).
Local Abbreviation react := (_react_to_event State_eq_dec state_str).
Local Abbreviation drain := (process_events_from State_eq_dec state_str).

Lemma fire_tracks_state (t : Rule) (event : Event) (a a' : Agent) :
  fire state_str t event a = (a', None) -> history_tracks_state a'.
Proof.
  unfold fire, andthen, done, execute_action.
  destruct (action t) as [act|].
  - destruct (act event a) as [a1 [e|]]; [discriminate|].
    intros H; injection H as <-.
    eexists _, _, _. reflexivity.
  - intros H; injection H as <-. eexists _, _, _. reflexivity.
Qed.

Lemma react_tracks_state (ts : list Rule) (event : Event) (a a' : Agent) :
  history_tracks_state a -> react ts event a = (a', None) -> history_tracks_state a'.
Proof.
  intros Ha. induction ts as [|t ts IH]; simpl.
  - intros H; injection H as <-. exact Ha.
  - destruct (State_eq_dec (from_state t) (current_state a)); [|exact IH].
    destruct (can_transition t a event); [|exact IH].
    apply fire_tracks_state.
Qed.

Lemma log_trace_tracks_state (a : Agent) (line : string) :
  history_tracks_state a -> history_tracks_state (_log_trace a line).
Proof. intros (h & t & r & H). exists h, t, r. exact H. Qed.

Lemma drain_tracks_state (ts : list Rule) (fuel : nat) :
  forall popped popped' (a a' : Agent),
  history_tracks_state a ->
  drain fuel ts popped a = Some (popped', (a', None)) ->
  history_tracks_state a'.
Proof.
  induction fuel as [|fuel IH]; intros popped popped' a a' Ha; simpl.
  - destruct (event_queue a); [|discriminate].
    intros H; injection H as _ <-. exact Ha.
  - destruct (event_queue a) as [|event q].
    + intros H; injection H as _ <-. exact Ha.
    + destruct (react ts event _) as [a3 [e|]] eqn:Er; [discriminate|].
      apply IH. eapply react_tracks_state; [|exact Er].
      apply log_trace_tracks_state.
      destruct Ha as (h & t & r & H). exists h, t, r. exact H.
Qed.

(** X7.  The state history follows the current state: the entry written
    last is for the state the agent is in.  This holds of a new agent and is
    kept by [receive_event], by reacting to an event and by a whole
    [process_events], whatever the actions do, as long as they return. *)
Theorem history_follows_state :
  (forall id nm s c (d : D),
      history_tracks_state (FSMAgent_init state_str id nm s c d)) /\
  (forall (a : Agent) e,
      history_tracks_state a -> history_tracks_state (receive_event py_str a e)) /\
  (forall ts event (a a' : Agent),
      history_tracks_state a -> react ts event a = (a', None) ->
      history_tracks_state a') /\
  (forall fuel ts (a a' : Agent),
      history_tracks_state a ->
      process_events State_eq_dec state_str fuel ts a = Some (a', None) ->
      history_tracks_state a').
Proof.
  split; [|split; [|split]].
  - intros id nm s c d. unfold FSMAgent_init.
    exists [], (readings c (ticks c)), "initialized". reflexivity.
  - intros a e (h & t & r & H). exists h, t, r. exact H.
  - intros ts event a a'. apply react_tracks_state.
  - intros fuel ts a a' Ha. unfold process_events.
    destruct (drain fuel ts [] a) as [[popped [a1 r]]|] eqn:Ed; [|discriminate].
    simpl. intros H; injection H as -> ->.
    eapply drain_tracks_state; eassumption.
Qed.

Lemma keeps_history_tail (t : Rule) (ts : list Rule) :
  keeps_history (t :: ts) -> keeps_history ts.
Proof. intros H t' act Hin. apply H. right; exact Hin. Qed.

Lemma fire_history (t : Rule) (event : Event) (a : Agent) :
  (forall act, action t = Some act ->
     forall ev b, state_history (fst (act ev b)) = state_history b) ->
  exists added,
    state_history (fst (fire state_str t event a)) = state_history a ++ added /\
    List.length added <= 1.
Proof.
  intros H. unfold fire, andthen, done, execute_action.
  destruct (action t) as [act|] eqn:Ea.
  - specialize (H act eq_refl event a).
    destruct (act event a) as [a1 [e|]]; simpl in *.
    + exists []. rewrite app_nil_r. split; [exact H|auto].
    + eexists [_]. rewrite <- H. split; [reflexivity|auto].
  - eexists [_]. split; [reflexivity|auto].
Qed.

Lemma react_history (ts : list Rule) (event : Event) (a : Agent) :
  keeps_history ts ->
  exists added,
    state_history (fst (react ts event a)) = state_history a ++ added /\
    List.length added <= 1.
Proof.
  induction ts as [|t ts IH]; intros K; simpl.
  - exists []. rewrite app_nil_r. auto.
  - destruct (State_eq_dec (from_state t) (current_state a)).
    + destruct (can_transition t a event).
      * apply fire_history. intros act Ha. apply (K t act); [left; reflexivity|exact Ha].
      * apply IH. eapply keeps_history_tail, K.
    + apply IH. eapply keeps_history_tail, K.
Qed.

(** X8.  When no action writes the state history, one call of
    [process_events] only appends to it, and it appends at most one entry
    for each event it pops. *)
Theorem one_transition_per_event (ts : list Rule) (fuel : nat)
    (popped0 popped : list Event) (a a' : Agent) (r : option PyExn) :
  keeps_history ts ->
  drain fuel ts popped0 a = Some (popped, (a', r)) ->
  exists taken added,
    popped = popped0 ++ taken /\
    state_history a' = state_history a ++ added /\
    List.length added <= List.length taken.
Proof.
  intros K. revert popped0 a.
  induction fuel as [|fuel IH]; intros popped0 a; simpl.
  - destruct (event_queue a); [|discriminate].
    intros H; injection H as <- <- <-. exists [], [].
    rewrite !app_nil_r. auto.
  - destruct (event_queue a) as [|event q].
    + intros H; injection H as <- <- <-. exists [], [].
      rewrite !app_nil_r. auto.
    + destruct (react_history ts event
                  (_log_trace (set_event_queue a q)
                              ("Processing event: " ++ event_type event)%string) K)
        as (add1 & Hh & Hl).
      destruct (react ts event _) as [a3 [e|]]; simpl in Hh.
      * intros H; injection H as <- <- <-. exists [event], add1.
        repeat split; [exact Hh|exact Hl].
      * intros H. destruct (IH _ _ H) as (taken & added & -> & Hh2 & Hl2).
        exists (event :: taken), (add1 ++ added).
        rewrite <- app_assoc. split; [reflexivity|].
        rewrite Hh2, Hh, <- app_assoc. split; [reflexivity|].
        rewrite length_app. simpl. lia.
Qed.

(** X9.  When no action touches the queue and the fuel covers the queue,
    [process_events] returns and loses no event: the events it popped,
    followed by the events still queued, are the queue it started from.  It
    leaves the queue empty when it returns normally; when an action raises,
    the events behind the failing one stay queued. *)
Theorem process_events_conserves (ts : list Rule) (fuel : nat)
    (popped0 : list Event) (a : Agent) :
  keeps_queue ts ->
  List.length (event_queue a) <= fuel ->
  exists taken a' r,
    drain fuel ts popped0 a = Some (popped0 ++ taken, (a', r)) /\
    taken ++ event_queue a' = event_queue a /\
    (r = None -> event_queue a' = []) /\
    (forall e, r = Some e -> taken <> []).
Proof.
  intros K. revert popped0 a.
  induction fuel as [|fuel IH]; intros popped0 a Hlen.
  - destruct (event_queue a) as [|event q] eqn:Eq; [|simpl in Hlen; lia].
    exists [], a, None. simpl. rewrite Eq, app_nil_r.
    repeat split; auto. discriminate.
  - simpl. destruct (event_queue a) as [|event q] eqn:Eq.
    + exists [], a, None. rewrite app_nil_r, Eq. repeat split; auto. discriminate.
    + pose proof (react_keeps_queue State State_eq_dec state_str D ts event
        (_log_trace (set_event_queue a q)
                    ("Processing event: " ++ event_type event)%string) K) as Hq.
      destruct (react ts event _) as [a3 [e|]]; simpl in Hq.
      * exists [event], a3, (Some e). rewrite Hq.
        repeat split; try discriminate.
      * destruct (IH (popped0 ++ [event]) a3) as (taken & a' & r & Hd & Hs & Hr & He).
        { rewrite Hq. simpl in Hlen. lia. }
        exists (event :: taken), a', r. rewrite Hd, <- app_assoc.
        repeat split; [| exact Hr | discriminate].
        rewrite Hq in Hs. simpl. rewrite Hs. reflexivity.
Qed.

End MoreKernelFacts.

Section IdentifierFacts.

(** X10.  Two events get the same [event_id] exactly when they have the
    same type and were created at the same reading of the clock: the id
    tells events of one type apart only as far as the clock does. *)
Theorem event_ids_equal (ty1 ty2 : string) (d1 d2 : PyDictT) (p1 p2 : Z)
    (c1 c2 : Clock) :
  datetime_ok (readings c1 (ticks c1)) = true ->
  datetime_ok (readings c2 (ticks c2)) = true ->
  (event_id (fst (Event_init ty1 d1 p1 c1)) = event_id (fst (Event_init ty2 d2 p2 c2))
   <-> ty1 = ty2 /\ readings c1 (ticks c1) = readings c2 (ticks c2)).
Proof.
  intros H1 H2. unfold Event_init. cbn [now fst event_id]. split.
  - intros H. apply append_inj_r in H.
    + destruct H as [-> H]. apply append_inj in H; [|reflexivity].
      destruct H as [_ H]. split; [reflexivity|].
      apply strftime_compact_inj; assumption.
    + rewrite !append_length, !strftime_compact_length. reflexivity.
  - intros [-> ->]. reflexivity.
Qed.

(** X11.  [get_current_goal] returns the first active goal in the order
    the goals were added.  Adding a goal that is not active never changes
    the answer; adding an active one changes it only when no goal was
    active before. *)
Theorem current_goal_after_add (State D : Type) (a : @FSMAgent State D)
    (g : AgentGoal) :
  (forall x, get_current_goal a = Some x -> In x (goals a) /\ status x = "active") /\
  (get_current_goal a = None ->
   forall x, In x (goals a) -> status x <> "active") /\
  get_current_goal (add_goal a g)
  = match get_current_goal a with
    | Some x => Some x
    | None => if String.eqb (status g) "active" then Some g else None
    end.
Proof.
  unfold get_current_goal. split; [|split].
  - intros x H. apply find_some in H. destruct H as [Hin H].
    apply String.eqb_eq in H. auto.
  - intros H x Hin E. pose proof (find_none _ _ H x Hin) as Hn.
    simpl in Hn. rewrite E in Hn. discriminate.
  - change (goals (add_goal a g)) with (goals a ++ [g]).
    induction (goals a) as [|x l IH]; simpl.
    + destruct (String.eqb (status g) "active"); reflexivity.
    + destruct (String.eqb (status x) "active"); [reflexivity|exact IH].
Qed.

End IdentifierFacts.

(** ** The communicating agent: containment, invariants, accessors *)

Section MoreCommFacts.

Variable State : Type.
Variable state_str : State -> string.
Variable py_str : PyVal -> string.
Variable X : Type.

Local Abbreviation CA := (@CommunicatingAgent State X).
Local Abbreviation Table := (@HandlerTable State X).

Lemma send_message_inbox (a : CA) (m : ACLMessage) :
  inbox (domain (send_message py_str a m)) = inbox (domain a).
Proof.
  unfold send_message. destruct (validate m) as [[|] err]; reflexivity.
Qed.

Lemma send_reply_inbox (a : CA) (m : ACLMessage) p ct :
  inbox (domain (send_reply py_str a m p ct)) = inbox (domain a).
Proof.
  unfold send_reply. destruct (create_reply m p ct (agent_id a) (clock a)) as [r c1].
  apply (send_message_inbox (set_clock a c1) r).
Qed.

Lemma process_message_returns (tbl : Table) (m : ACLMessage) (a : CA) :
  snd (_process_message py_str tbl m a) = None.
Proof.
  unfold _process_message, andthen, done, try_except.
  destruct (tbl (performative m)) as [h|]; [|reflexivity].
  destruct (h m _) as [a1 [e|]]; reflexivity.
Qed.

Lemma process_message_inbox (tbl : Table) (m : ACLMessage) (a : CA) :
  keeps_inbox tbl ->
  inbox (domain (fst (_process_message py_str tbl m a))) = inbox (domain a).
Proof.
  intros K. unfold _process_message, andthen, done, try_except.
  destruct (tbl (performative m)) as [h|] eqn:Eh.
  - pose proof (K _ h Eh m
      (_log_trace a ("Processing message: " ++ message_id m)%string)) as Hi.
    destruct (h m _) as [a1 [e|]]; simpl in *.
    + unfold _send_not_understood. rewrite send_reply_inbox. exact Hi.
    + exact Hi.
  - simpl. unfold _send_not_understood. rewrite send_reply_inbox. reflexivity.
Qed.

Lemma default_handlers_keep_inbox : keeps_inbox (default_handlers py_str : Table).
Proof.
  intros p h Hh m a.
  destruct p; try discriminate Hh; injection Hh as <-;
    try reflexivity.
  unfold _handle_request, done. cbn [fst]. rewrite send_reply_inbox. reflexivity.
Qed.

(** X12.  [process_messages] never lets an exception out, whatever the
    handlers do.  When no handler touches the inbox and the fuel covers the
    inbox, it returns with the inbox empty; the default handlers are of that
    kind. *)
Theorem process_messages_drains (tbl : Table) (fuel : nat) (a : CA) :
  keeps_inbox tbl ->
  List.length (inbox (domain a)) <= fuel ->
  (exists a', process_messages py_str fuel tbl a = Some (a', None) /\
              inbox (domain a') = []) /\
  (forall fuel' (tbl' : Table) (b b' : CA) r,
      process_messages py_str fuel' tbl' b = Some (b', r) -> r = None) /\
  keeps_inbox (default_handlers py_str : Table).
Proof.
  intros K Hlen. split; [|split].
  - revert a Hlen. induction fuel as [|fuel IH]; intros a Hlen.
    + destruct (inbox (domain a)) as [|m rest] eqn:Ei; [|simpl in Hlen; lia].
      exists a. simpl. rewrite Ei. auto.
    + simpl. destruct (inbox (domain a)) as [|m rest] eqn:Ei.
      * exists a. auto.
      * pose proof (process_message_returns tbl m (set_inbox a rest)) as Hr.
        pose proof (process_message_inbox tbl m (set_inbox a rest) K) as Hi.
        destruct (_process_message py_str tbl m (set_inbox a rest)) as [a1 r].
        simpl in Hr, Hi. subst r. apply IH. rewrite Hi. simpl in *. lia.
  - intros fuel'. induction fuel' as [|fuel' IH]; intros tbl' b b' r; simpl.
    + destruct (inbox (domain b)); [|discriminate].
      intros H; injection H as _ <-. reflexivity.
    + destruct (inbox (domain b)) as [|m rest].
      * intros H; injection H as _ <-. reflexivity.
      * pose proof (process_message_returns tbl' m (set_inbox b rest)) as Hr.
        destruct (_process_message py_str tbl' m (set_inbox b rest)) as [a1 r1].
        simpl in Hr. subst r1. apply IH.
  - exact default_handlers_keep_inbox.
Qed.

(** An invariant of the agent that writing the trace, advancing the clock
    and [send_message] keep is kept by processing a message with the default
    handlers. *)
Section DefaultProcessing.

Variable P : CA -> Prop.
Hypothesis P_log : forall a line, P a -> P (_log_trace a line).
Hypothesis P_clock : forall a c, P a -> P (set_clock a c).
Hypothesis P_send : forall a m, P a -> P (send_message py_str a m).

Lemma send_reply_keeps (a : CA) (m : ACLMessage) p ct :
  P a -> P (send_reply py_str a m p ct).
Proof.
  intros H. unfold send_reply.
  destruct (create_reply m p ct (agent_id a) (clock a)) as [r c1].
  apply P_send, P_clock, H.
Qed.

Lemma default_process_keeps (m : ACLMessage) (a : CA) :
  P a -> P (fst (_process_message py_str (default_handlers py_str) m a)).
Proof.
  intros H. unfold _process_message, andthen, done, try_except.
  destruct (performative m); simpl;
    repeat (first [apply send_reply_keeps | apply P_log]); exact H.
Qed.

End DefaultProcessing.

Lemma default_drain_keeps (P : CA -> Prop) :
  (forall a line, P a -> P (_log_trace a line)) ->
  (forall a c, P a -> P (set_clock a c)) ->
  (forall a m, P a -> P (send_message py_str a m)) ->
  (forall a m rest, inbox (domain a) = m :: rest -> P a -> P (set_inbox a rest)) ->
  forall fuel a a' r,
    P a -> process_messages py_str fuel (default_handlers py_str) a = Some (a', r) ->
    P a'.
Proof.
  intros Hl Hc Hs Hp. induction fuel as [|fuel IH]; intros a a' r Ha; simpl.
  - destruct (inbox (domain a)); [|discriminate].
    intros H; injection H as <- _. exact Ha.
  - destruct (inbox (domain a)) as [|m rest] eqn:Ei.
    + intros H; injection H as <- _. exact Ha.
    + pose proof (default_process_keeps P Hl Hc Hs m (set_inbox a rest)
                    (Hp a m rest Ei Ha)) as H1.
      pose proof (process_message_returns (default_handlers py_str) m
                    (set_inbox a rest)) as Hr.
      destruct (_process_message py_str (default_handlers py_str) m (set_inbox a rest))
        as [a1 r1]. simpl in H1, Hr. subst r1. apply IH. exact H1.
Qed.

Lemma send_message_outbox_valid (a : CA) (m : ACLMessage) :
  outbox_valid a -> outbox_valid (send_message py_str a m).
Proof.
  intros H. unfold outbox_valid, send_message.
  destruct (validate m) as [[|] err] eqn:Ev; cbn [negb].
  - change (Forall (fun m0 => fst (validate m0) = true) (outbox (domain a) ++ [m])).
    apply Forall_app. split; [exact H|]. constructor; [|constructor].
    rewrite Ev. reflexivity.
  - exact H.
Qed.

(** X13.  The outbox only ever holds messages that pass [validate]: this is
    so in a new agent and stays so under [send_message] of any message,
    under [receive_message], and under [process_messages] with the default
    handlers. *)
Theorem outbox_holds_valid_messages :
  (forall id nm s c (x : X),
      outbox_valid (snd (CommunicatingAgent_init state_str py_str id nm s c x))) /\
  (forall (a : CA) m, outbox_valid a -> outbox_valid (send_message py_str a m)) /\
  (forall (a : CA) m, outbox_valid a -> outbox_valid (receive_message py_str a m)) /\
  (forall fuel (a a' : CA) r,
      outbox_valid a ->
      process_messages py_str fuel (default_handlers py_str) a = Some (a', r) ->
      outbox_valid a').
Proof.
  split; [|split; [|split]].
  - intros. constructor.
  - exact send_message_outbox_valid.
  - intros a m H. exact H.
  - apply (default_drain_keeps outbox_valid).
    + intros a line H. exact H.
    + intros a c H. exact H.
    + exact send_message_outbox_valid.
    + intros a m rest _ H. exact H.
Qed.

Lemma send_message_recorded (a : CA) (m : ACLMessage) :
  recorded a -> recorded (send_message py_str a m).
Proof.
  intros [Ho Hi]. unfold recorded, send_message.
  destruct (validate m) as [[|] err]; cbn [negb].
  - change (incl (outbox (domain a) ++ [m]) (message_history (domain a) ++ [m]) /\
            incl (inbox (domain a)) (message_history (domain a) ++ [m])).
    split.
    + apply incl_app; [apply incl_appl, Ho|apply incl_appr, incl_refl].
    + apply incl_appl, Hi.
  - split; assumption.
Qed.

(** X14.  Whatever waits in the inbox or the outbox is in the message
    history: this is so in a new agent and stays so under [send_message],
    [receive_message] and [process_messages] with the default handlers. *)
Theorem pending_messages_are_recorded :
  (forall id nm s c (x : X),
      recorded (snd (CommunicatingAgent_init state_str py_str id nm s c x))) /\
  (forall (a : CA) m, recorded a -> recorded (send_message py_str a m)) /\
  (forall (a : CA) m, recorded a -> recorded (receive_message py_str a m)) /\
  (forall fuel (a a' : CA) r,
      recorded a ->
      process_messages py_str fuel (default_handlers py_str) a = Some (a', r) ->
      recorded a').
Proof.
  split; [|split; [|split]].
  - intros. split; intros m [].
  - exact send_message_recorded.
  - intros a m [Ho Hi]. unfold recorded.
    change (incl (outbox (domain a)) (message_history (domain a) ++ [m]) /\
            incl (inbox (domain a) ++ [m]) (message_history (domain a) ++ [m])).
    split.
    + apply incl_appl, Ho.
    + apply incl_app; [apply incl_appl, Hi|apply incl_appr, incl_refl].
  - apply (default_drain_keeps recorded).
    + intros a line H. exact H.
    + intros a c H. exact H.
    + exact send_message_recorded.
    + intros a m rest Ei [Ho Hi]. split; [exact Ho|].
      change (incl rest (message_history (domain a))).
      intros x Hx. apply Hi. rewrite Ei. right; exact Hx.
Qed.

Lemma send_message_history (a : CA) (m : ACLMessage) :
  message_history (domain (send_message py_str a m))
  = message_history (domain a) ++ (if fst (validate m) then [m] else []) /\
  agent_id (send_message py_str a m) = agent_id a.
Proof.
  unfold send_message. destruct (validate m) as [[|] err]; cbn [negb fst].
  - split; reflexivity.
  - rewrite app_nil_r. split; reflexivity.
Qed.

Lemma receive_message_history (a : CA) (m : ACLMessage) :
  message_history (domain (receive_message py_str a m))
  = message_history (domain a) ++ [m] /\
  agent_id (receive_message py_str a m) = agent_id a.
Proof. split; reflexivity. Qed.

Lemma filter_snoc {A : Type} (f : A -> bool) (l : list A) (b : bool) (x : A) :
  filter f (l ++ (if b then [x] else [])) = filter f l ++ (if b && f x then [x] else []).
Proof.
  rewrite filter_app. destruct b; simpl; [destruct (f x)|]; reflexivity.
Qed.

(** X15.  What the accessors return after a send or a receipt.  A message
    sent shows up in [get_sent_messages] only when it passed [validate] and
    names the agent as sender; a message received shows up in
    [get_received_messages] only when it names the agent as receiver; and
    [get_conversation_messages] gains a message exactly when one of its
    conversation is sent or received. *)
Theorem accessors_after_send_and_receive (a : CA) (m : ACLMessage) :
  get_sent_messages (send_message py_str a m)
  = get_sent_messages a ++
    (if fst (validate m) && String.eqb (sender m) (agent_id a) then [m] else []) /\
  get_received_messages (receive_message py_str a m)
  = get_received_messages a ++
    (if String.eqb (receiver m) (agent_id a) then [m] else []) /\
  (forall conversation,
      get_conversation_messages (receive_message py_str a m) conversation
      = get_conversation_messages a conversation ++
        (if String.eqb (conversation_id m) conversation then [m] else []) /\
      get_conversation_messages (send_message py_str a m) conversation
      = get_conversation_messages a conversation ++
        (if fst (validate m) && String.eqb (conversation_id m) conversation
         then [m] else [])).
Proof.
  destruct (send_message_history a m) as [Hs Hsi].
  destruct (receive_message_history a m) as [Hr Hri].
  unfold get_sent_messages, get_received_messages, get_conversation_messages.
  rewrite Hs, Hr, Hsi, Hri.
  split; [|split; [|intros conversation; split]].
  - exact (filter_snoc (fun msg => String.eqb (sender msg) (agent_id a)) _ _ m).
  - exact (filter_snoc (fun msg => String.eqb (receiver msg) (agent_id a)) _ true m).
  - exact (filter_snoc (fun msg => String.eqb (conversation_id msg) conversation)
                       _ true m).
  - exact (filter_snoc (fun msg => String.eqb (conversation_id msg) conversation)
                       _ _ m).
Qed.

(** X16.  Two agents with the default handlers never stop answering each
    other once one of them gets a [not-understood] message: the message has
    no handler, so it is answered by a [not-understood] reply, and that
    reply is again a [not-understood] message from a named sender. *)
Theorem not_understood_is_answered_in_kind (m : ACLMessage) (a b : CA) :
  performative m = NOT_UNDERSTOOD ->
  sender m <> "" -> agent_id a <> "" -> agent_id b <> "" ->
  exists a' reply b' reply',
    _process_message py_str (default_handlers py_str) m a = (a', None) /\
    outbox (domain a') = outbox (domain a) ++ [reply] /\
    performative reply = NOT_UNDERSTOOD /\
    receiver reply = sender m /\ sender reply = agent_id a /\
    _process_message py_str (default_handlers py_str) reply b = (b', None) /\
    outbox (domain b') = outbox (domain b) ++ [reply'] /\
    performative reply' = NOT_UNDERSTOOD /\
    receiver reply' = agent_id a /\ sender reply' = agent_id b.
Proof.
  intros Hp Hs Ha Hb.
  destruct (fallback_no_handler State py_str X (default_handlers py_str) m a Hs)
    as (a' & Hrun & Ho & _ & _ & Hpf & Hr & Hsd & _); [rewrite Hp; reflexivity|exact Ha|].
  cbv zeta in *.
  set (reply := reply_of _ m NOT_UNDERSTOOD _) in *.
  assert (Hs' : sender reply <> "") by (rewrite Hsd; exact Ha).
  destruct (fallback_no_handler State py_str X (default_handlers py_str) reply b Hs')
    as (b' & Hrun' & Ho' & _ & _ & Hpf' & Hr' & Hsd' & _);
    [rewrite Hpf; reflexivity|exact Hb|].
  cbv zeta in *.
  set (reply' := reply_of _ reply NOT_UNDERSTOOD _) in *.
  exists a', reply, b', reply'.
  repeat split; try assumption.
  rewrite Hr', Hsd. reflexivity.
Qed.

End MoreCommFacts.

(** ** The message router *)

Section ListUpdateFacts.

Context {A B : Type}.

Lemma map_put (f : A -> B) (i : nat) (x : A) (l : list A) :
  map f (put i x l) = put i (f x) (map f l).
Proof.
  revert i; induction l as [|y l IH]; intros [|i]; simpl; try reflexivity.
  rewrite IH. reflexivity.
Qed.

Lemma put_same (i : nat) (x : A) (l : list A) :
  nth_error l i = Some x -> put i x l = l.
Proof.
  revert i; induction l as [|y l IH]; intros [|i]; simpl; try discriminate.
  - intros H; injection H as ->. reflexivity.
  - intros H. rewrite IH by exact H. reflexivity.
Qed.

Lemma nth_error_put (i : nat) (x : A) (l : list A) :
  i < List.length l -> nth_error (put i x l) i = Some x.
Proof.
  revert i; induction l as [|y l IH]; intros [|i]; simpl; intros H; try lia.
  - reflexivity.
  - apply IH. lia.
Qed.

Lemma put_put (i : nat) (x y : A) (l : list A) :
  put i x (put i y l) = put i x l.
Proof.
  revert i; induction l as [|z l IH]; intros [|i]; simpl; try reflexivity.
  rewrite IH. reflexivity.
Qed.

Lemma firstn_put (i : nat) (x : A) (l : list A) :
  firstn i (put i x l) = firstn i l.
Proof.
  revert i; induction l as [|z l IH]; intros [|i]; simpl; try reflexivity.
  rewrite IH. reflexivity.
Qed.

Lemma skipn_put (i : nat) (x : A) (l : list A) :
  skipn (S i) (put i x l) = skipn (S i) l.
Proof.
  revert i; induction l as [|z l IH]; intros [|i]; try reflexivity.
  change (skipn (S i) (put i x l) = skipn (S i) l). apply IH.
Qed.

Lemma firstn_succ_put (i : nat) (x : A) (l : list A) :
  i < List.length l -> firstn (S i) (put i x l) = firstn i l ++ [x].
Proof.
  revert i; induction l as [|z l IH]; intros [|i]; simpl; intros H; try lia.
  - reflexivity.
  - f_equal. apply IH. lia.
Qed.

Lemma skipn_nth (i : nat) (x : A) (l : list A) :
  nth_error l i = Some x -> skipn i l = x :: skipn (S i) l.
Proof.
  revert i; induction l as [|z l IH]; intros [|i]; simpl; try discriminate.
  - intros H; injection H as ->. reflexivity.
  - apply IH.
Qed.

(** Two maps over lists that agree on two projections agree on whatever is
    computed from the two. *)
Lemma map_two {C D E : Type} (f1 : A -> C) (f2 : A -> D) (g1 : B -> C) (g2 : B -> D)
    (k : C -> D -> E) (l1 : list A) (l2 : list B) :
  map f1 l1 = map g1 l2 -> map f2 l1 = map g2 l2 ->
  map (fun a => k (f1 a) (f2 a)) l1 = map (fun b => k (g1 b) (g2 b)) l2.
Proof.
  revert l2; induction l1 as [|a l1 IH]; intros [|b l2]; simpl; try discriminate.
  - reflexivity.
  - intros H1 H2. injection H1 as E1 H1. injection H2 as E2 H2.
    rewrite E1, E2, (IH l2 H1 H2). reflexivity.
Qed.

End ListUpdateFacts.

Section RouterFacts.

Variable State : Type.
Variable py_str : PyVal -> string.
Variable X : Type.

Local Abbreviation CA := (@CommunicatingAgent State X).
Local Abbreviation ids := (map (fun a : CA => agent_id a)).
Local Abbreviation ins := (map (fun a : CA => inbox (domain a))).
Local Abbreviation outs := (map (fun a : CA => outbox (domain a))).

Lemma deliver_ids (agents : list CA) (m : ACLMessage) :
  ids (deliver py_str agents m) = ids agents.
Proof.
  induction agents as [|r rest IH]; simpl; [reflexivity|].
  destruct (String.eqb (agent_id r) (receiver m)); simpl; [reflexivity|].
  rewrite IH. reflexivity.
Qed.

Lemma deliver_outs (agents : list CA) (m : ACLMessage) :
  outs (deliver py_str agents m) = outs agents.
Proof.
  induction agents as [|r rest IH]; simpl; [reflexivity|].
  destruct (String.eqb (agent_id r) (receiver m)); simpl; [reflexivity|].
  rewrite IH. reflexivity.
Qed.

Lemma deliver_ins (agents : list CA) (m : ACLMessage) :
  NoDup (ids agents) ->
  ins (deliver py_str agents m)
  = map (fun a => inbox (domain a) ++ messages_for (agent_id a) [m]) agents.
Proof.
  induction agents as [|r rest IH]; simpl; intros Hn; [reflexivity|].
  inversion Hn as [|? ? Hnot Hrest]; subst.
  unfold messages_for. simpl. rewrite (String.eqb_sym (receiver m) (agent_id r)).
  destruct (String.eqb (agent_id r) (receiver m)) eqn:E; simpl.
  - f_equal. apply map_ext_in. intros b Hb.
    unfold messages_for. simpl.
    destruct (String.eqb (receiver m) (agent_id b)) eqn:Eb.
    + apply String.eqb_eq in E, Eb. exfalso. apply Hnot.
      rewrite E, Eb. apply (in_map (fun a : CA => agent_id a)), Hb.
    + rewrite app_nil_r. reflexivity.
  - rewrite app_nil_r. f_equal. apply IH, Hrest.
Qed.

Lemma messages_for_app (id : string) (l1 l2 : list ACLMessage) :
  messages_for id (l1 ++ l2) = messages_for id l1 ++ messages_for id l2.
Proof. apply filter_app. Qed.

Lemma ins_nothing (agents : list CA) :
  map (fun a : CA => inbox (domain a) ++ messages_for (agent_id a) []) agents = ins agents.
Proof. apply map_ext. intros a. apply app_nil_r. Qed.

(** One sender's outbox is emptied into the inboxes. *)
Lemma drain_outbox_spec (fuel : nat) :
  forall (i : nat) (cur : list CA) (sender_agent : CA) (msgs : list ACLMessage),
  NoDup (ids cur) ->
  nth_error cur i = Some sender_agent ->
  outbox (domain sender_agent) = msgs ->
  List.length msgs <= fuel ->
  exists cur',
    drain_outbox py_str fuel i cur = Some cur' /\
    ids cur' = ids cur /\
    outs cur' = put i [] (outs cur) /\
    ins cur' = map (fun a => inbox (domain a) ++ messages_for (agent_id a) msgs) cur.
Proof.
  induction fuel as [|fuel IH]; intros i cur s msgs Hn Hi Ho Hlen.
  - destruct msgs as [|m rest]; [|simpl in Hlen; lia].
    exists cur. simpl. rewrite Hi, Ho. repeat split.
    + symmetry. apply put_same. rewrite nth_error_map, Hi. simpl. rewrite Ho. reflexivity.
    + symmetry. apply ins_nothing.
  - destruct msgs as [|m rest].
    + exists cur. simpl. rewrite Hi, Ho. repeat split.
      * symmetry. apply put_same. rewrite nth_error_map, Hi. simpl. rewrite Ho.
        reflexivity.
      * symmetry. apply ins_nothing.
    + simpl. rewrite Hi, Ho.
      set (cur1 := put i (set_outbox s rest) cur).
      assert (Hlt : i < List.length cur).
      { apply nth_error_Some. rewrite Hi. discriminate. }
      assert (Hid1 : ids cur1 = ids cur).
      { unfold cur1. rewrite map_put. apply put_same.
        rewrite nth_error_map, Hi. reflexivity. }
      assert (Hin1 : ins cur1 = ins cur).
      { unfold cur1. rewrite map_put. apply put_same.
        rewrite nth_error_map, Hi. reflexivity. }
      assert (Hout1 : outs cur1 = put i rest (outs cur)).
      { unfold cur1. rewrite map_put. reflexivity. }
      assert (Hn1 : NoDup (ids cur1)) by (rewrite Hid1; exact Hn).
      set (cur2 := deliver py_str cur1 m).
      assert (Hid2 : ids cur2 = ids cur).
      { unfold cur2. rewrite deliver_ids. exact Hid1. }
      assert (Hout2 : outs cur2 = put i rest (outs cur)).
      { unfold cur2. rewrite deliver_outs. exact Hout1. }
      assert (Hin2 : ins cur2
                     = map (fun a => inbox (domain a) ++ messages_for (agent_id a) [m]) cur).
      { unfold cur2. rewrite (deliver_ins cur1 m Hn1).
        apply (map_two (fun a : CA => agent_id a) (fun a : CA => inbox (domain a))
                       (fun a : CA => agent_id a) (fun a : CA => inbox (domain a))
                       (fun id inb => inb ++ messages_for id [m]) cur1 cur Hid1 Hin1). }
      assert (Hs2 : exists s2, nth_error cur2 i = Some s2 /\ outbox (domain s2) = rest).
      { assert (H : nth_error (outs cur2) i = Some rest).
        { rewrite Hout2. apply nth_error_put. rewrite length_map. exact Hlt. }
        rewrite nth_error_map in H.
        destruct (nth_error cur2 i) as [s2|]; [|discriminate].
        exists s2. split; [reflexivity|]. simpl in H. injection H as H. exact H. }
      destruct Hs2 as (s2 & Hi2 & Ho2).
      destruct (IH i cur2 s2 rest) as (cur' & Hd & Hid' & Hout' & Hin').
      { rewrite Hid2. exact Hn. }
      { exact Hi2. }
      { exact Ho2. }
      { simpl in Hlen. lia. }
      exists cur'. split; [exact Hd|]. split; [rewrite Hid'; exact Hid2|]. split.
      * rewrite Hout', Hout2. apply put_put.
      * rewrite Hin'.
        transitivity
          (map (fun a : CA =>
                  (inbox (domain a) ++ messages_for (agent_id a) [m]) ++ messages_for (agent_id a) rest)
               cur).
        { exact (map_two (fun a : CA => agent_id a) (fun a : CA => inbox (domain a))
                   (fun a : CA => agent_id a)
                   (fun a : CA => inbox (domain a) ++ messages_for (agent_id a) [m])
                   (fun id inb => inb ++ messages_for id rest) cur2 cur Hid2 Hin2). }
        apply map_ext. intros a. rewrite <- app_assoc, <- messages_for_app. reflexivity.
Qed.

Lemma route_from_spec (fuel : nat) (n : nat) :
  forall (i : nat) (cur : list CA),
  i + n = List.length cur ->
  NoDup (ids cur) ->
  Forall (fun msgs => List.length msgs <= fuel) (outs cur) ->
  exists cur',
    route_from py_str fuel i n cur = Some cur' /\
    ids cur' = ids cur /\
    outs cur' = firstn i (outs cur) ++ repeat [] n /\
    ins cur'
    = map (fun a => inbox (domain a) ++ messages_for (agent_id a) (List.concat (skipn i (outs cur))))
          cur.
Proof.
  induction n as [|n IH]; intros i cur Hlen Hn Hf.
  - exists cur. simpl. repeat split.
    + rewrite app_nil_r. symmetry. apply firstn_all2. rewrite length_map. lia.
    + rewrite skipn_all2 by (rewrite length_map; lia). simpl.
      symmetry. apply ins_nothing.
  - assert (Hlt : i < List.length cur) by lia.
    destruct (nth_error cur i) as [s|] eqn:Hi;
      [|apply nth_error_None in Hi; lia].
    assert (Hos : nth_error (outs cur) i = Some (outbox (domain s))).
    { rewrite nth_error_map, Hi. reflexivity. }
    destruct (drain_outbox_spec fuel i cur s (outbox (domain s)) Hn Hi eq_refl)
      as (cur1 & Hd & Hid1 & Hout1 & Hin1).
    { rewrite Forall_forall in Hf. apply Hf. eapply nth_error_In, Hos. }
    destruct (IH (S i) cur1) as (cur' & Hr & Hid' & Hout' & Hin').
    { rewrite <- (length_map (fun a : CA => agent_id a)), Hid1, length_map. lia. }
    { rewrite Hid1. exact Hn. }
    { rewrite Hout1. rewrite Forall_forall in Hf |- *. intros x Hx.
      assert (Hx' : x = [] \/ In x (outs cur)).
      { clear - Hx. revert Hx. generalize (outs cur). intros l. revert i.
        induction l as [|y l IHl]; intros [|i]; simpl; try tauto.
        - intros [<-|H]; auto.
        - intros [<-|H]; auto. destruct (IHl i H); auto. }
      destruct Hx' as [->|Hx']; [simpl; lia|apply Hf, Hx']. }
    exists cur'. simpl. rewrite Hd. split; [exact Hr|].
    split; [rewrite Hid'; exact Hid1|]. split.
    + rewrite Hout', Hout1. rewrite firstn_succ_put by (rewrite length_map; exact Hlt).
      rewrite <- app_assoc. reflexivity.
    + rewrite Hin', Hout1, skipn_put.
      transitivity
        (map (fun a : CA =>
                (inbox (domain a) ++ messages_for (agent_id a) (outbox (domain s))) ++
                messages_for (agent_id a) (List.concat (skipn (S i) (outs cur))))
             cur).
      { exact (map_two (fun a : CA => agent_id a) (fun a : CA => inbox (domain a))
                 (fun a : CA => agent_id a)
                 (fun a : CA => inbox (domain a) ++ messages_for (agent_id a) (outbox (domain s)))
                 (fun id inb => inb ++ messages_for id (List.concat (skipn (S i) (outs cur))))
                 cur1 cur Hid1 Hin1). }
      apply map_ext. intros a. rewrite <- app_assoc, <- messages_for_app.
      rewrite (skipn_nth i _ _ Hos). reflexivity.
Qed.

(** X17.  When the agents have different ids and the fuel covers every
    outbox, [route_messages] returns with every outbox empty, and every
    agent has received, behind what its inbox held, exactly the messages
    addressed to it, in the order of the senders in the list and of each
    sender's outbox.  A message addressed to no agent of the list is in no
    inbox afterwards: it is dropped. *)
Theorem route_messages_delivers (fuel : nat) (agents : list CA) :
  NoDup (map (fun a : CA => agent_id a) agents) ->
  Forall (fun a : CA => List.length (outbox (domain a)) <= fuel) agents ->
  exists agents',
    route_messages py_str fuel agents = Some agents' /\
    map (fun a : CA => agent_id a) agents' = map (fun a : CA => agent_id a) agents /\
    Forall (fun a : CA => outbox (domain a) = []) agents' /\
    map (fun a : CA => inbox (domain a)) agents'
    = map (fun a : CA =>
             inbox (domain a) ++
             addressed_to a (List.concat (map (fun b : CA => outbox (domain b)) agents)))
          agents.
Proof.
  intros Hn Hf.
  destruct (route_from_spec fuel (List.length agents) 0 agents eq_refl Hn)
    as (cur' & Hr & Hid & Hout & Hin).
  { apply Forall_map. exact Hf. }
  exists cur'. split; [exact Hr|]. split; [exact Hid|]. split.
  - simpl in Hout. apply Forall_map with (f := fun a : CA => outbox (domain a))
                                         (P := fun o => o = []).
    rewrite Hout. apply Forall_forall. intros x Hx. apply repeat_spec in Hx. exact Hx.
  - exact Hin.
Qed.

End RouterFacts.

(** ** The message log *)

Section DictFacts.

Context {V : Type}.

Lemma adict_get_set (d : list (string * V)) (k k' : string) (v : V) :
  adict_get (adict_set d k v) k'
  = if String.eqb k k' then Some v else adict_get d k'.
Proof.
  induction d as [|[k0 v0] d IH]; simpl.
  - reflexivity.
  - destruct (String.eqb k0 k) eqn:E; simpl.
    + apply String.eqb_eq in E. subst k0.
      destruct (String.eqb k k'); reflexivity.
    + rewrite IH. destruct (String.eqb k0 k') eqn:E'; [|reflexivity].
      apply String.eqb_eq in E'. subst k0. rewrite String.eqb_sym, E. reflexivity.
Qed.

Lemma adict_get_none (d : list (string * V)) (k : string) :
  adict_get d k = None <-> ~ In k (map fst d).
Proof.
  induction d as [|[k0 v0] d IH]; simpl.
  - tauto.
  - destruct (String.eqb k0 k) eqn:E.
    + apply String.eqb_eq in E. split; [discriminate|]. intros H. exfalso. auto.
    + apply String.eqb_neq in E. rewrite IH. tauto.
Qed.

Lemma adict_set_keys (d : list (string * V)) (k : string) (v : V) :
  map fst (adict_set d k v)
  = match adict_get d k with
    | Some _ => map fst d
    | None => map fst d ++ [k]
    end.
Proof.
  induction d as [|[k0 v0] d IH]; simpl.
  - reflexivity.
  - destruct (String.eqb k0 k) eqn:E; simpl.
    + reflexivity.
    + rewrite IH. destruct (adict_get d k); reflexivity.
Qed.

End DictFacts.

Section LoggerFacts.

Lemma log_message_messages (self : MessageLogger) (m : ACLMessage) :
  messages (log_message self m) = messages self ++ [m].
Proof.
  unfold log_message.
  destruct (adict_get (conversations self) (conversation_id m)) eqn:E.
  - rewrite E. reflexivity.
  - rewrite adict_get_set, String.eqb_refl. reflexivity.
Qed.

Lemma log_message_conversation (self : MessageLogger) (m : ACLMessage) (cid : string) :
  get_conversation (log_message self m) cid
  = if String.eqb (conversation_id m) cid
    then get_conversation self cid ++ [m]
    else get_conversation self cid.
Proof.
  unfold log_message, get_conversation.
  destruct (adict_get (conversations self) (conversation_id m)) as [l|] eqn:E.
  - rewrite E. cbn [conversations]. rewrite adict_get_set.
    destruct (String.eqb (conversation_id m) cid) eqn:Ec; [|reflexivity].
    apply String.eqb_eq in Ec. subst cid. rewrite E. reflexivity.
  - rewrite adict_get_set, String.eqb_refl. cbn [conversations].
    rewrite !adict_get_set.
    destruct (String.eqb (conversation_id m) cid) eqn:Ec; [|reflexivity].
    apply String.eqb_eq in Ec. subst cid. rewrite E. reflexivity.
Qed.

Lemma log_message_keys (self : MessageLogger) (m : ACLMessage) :
  map fst (conversations (log_message self m))
  = match adict_get (conversations self) (conversation_id m) with
    | Some _ => map fst (conversations self)
    | None => map fst (conversations self) ++ [conversation_id m]
    end.
Proof.
  unfold log_message.
  destruct (adict_get (conversations self) (conversation_id m)) as [l|] eqn:E.
  - rewrite E. cbn [conversations]. rewrite adict_set_keys, E. reflexivity.
  - rewrite adict_get_set, String.eqb_refl. cbn [conversations].
    rewrite !adict_set_keys, adict_get_set, String.eqb_refl, E. reflexivity.
Qed.

Lemma logging_from (msgs : list ACLMessage) :
  forall self : MessageLogger,
  let self' := fold_left log_message msgs self in
  messages self' = messages self ++ msgs /\
  (forall cid, get_conversation self' cid
               = get_conversation self cid ++ in_conversation cid msgs) /\
  (NoDup (map fst (conversations self)) -> NoDup (map fst (conversations self'))) /\
  (forall k, In k (map fst (conversations self'))
             <-> In k (map fst (conversations self)) \/ In k (map conversation_id msgs)).
Proof.
  induction msgs as [|m msgs IH]; intros self; simpl.
  - rewrite app_nil_r. split; [reflexivity|]. split.
    + intros cid. rewrite app_nil_r. reflexivity.
    + split; [tauto|]. intros k. tauto.
  - destruct (IH (log_message self m)) as (Hm & Hc & Hn & Hk).
    split; [|split; [|split]].
    + rewrite Hm, log_message_messages, <- app_assoc. reflexivity.
    + intros cid. rewrite Hc, log_message_conversation.
      unfold in_conversation. simpl.
      destruct (String.eqb (conversation_id m) cid).
      * rewrite <- app_assoc. reflexivity.
      * reflexivity.
    + intros Hnd. apply Hn. rewrite log_message_keys.
      destruct (adict_get (conversations self) (conversation_id m)) eqn:E;
        [exact Hnd|].
      apply adict_get_none in E.
      apply NoDup_app; [exact Hnd|repeat constructor; simpl; tauto|].
      intros x Hx [<-|[]]. exact (E Hx).
    + intros k. rewrite Hk, log_message_keys.
      destruct (adict_get (conversations self) (conversation_id m)) eqn:E.
      * assert (Hin : In (conversation_id m) (map fst (conversations self))).
        { destruct (in_dec string_dec (conversation_id m) (map fst (conversations self)))
            as [H|H]; [exact H|].
          apply adict_get_none in H. rewrite H in E. discriminate. }
        split; [tauto|]. intros [H|[<-|H]]; auto.
      * rewrite in_app_iff. simpl. tauto.
Qed.

(** X18.  A logger that was fed the messages [msgs] one by one holds them
    in that order, returns for every conversation id exactly the messages
    of that conversation in the order they were logged (none for an id it
    never saw), and counts as many conversations as there are different
    conversation ids among the messages. *)
Theorem log_groups_by_conversation (msgs : list ACLMessage) :
  messages (logged msgs) = msgs /\
  (forall cid, get_conversation (logged msgs) cid = in_conversation cid msgs) /\
  total_conversations (get_statistics (logged msgs))
  = List.length (nodup string_dec (map conversation_id msgs)).
Proof.
  destruct (logging_from msgs MessageLogger_init) as (Hm & Hc & Hn & Hk).
  fold (logged msgs) in Hm, Hc, Hn, Hk. simpl in Hm, Hc, Hn, Hk.
  split; [exact Hm|]. split; [exact Hc|].
  unfold get_statistics. cbn [total_conversations].
  rewrite <- (length_map fst (conversations (logged msgs))).
  apply Permutation_length, NoDup_Permutation.
  - apply Hn. constructor.
  - apply NoDup_nodup.
  - intros k. rewrite Hk, nodup_In. tauto.
Qed.

Lemma count_up_get (d : list (string * nat)) (k k' : string) :
  adict_get (count_up d k) k'
  = if String.eqb k k' then Some (get_count d k + 1) else adict_get d k'.
Proof. unfold count_up. apply adict_get_set. Qed.

Lemma count_up_count (d : list (string * nat)) (k k' : string) :
  get_count (count_up d k) k'
  = if String.eqb k k' then get_count d k + 1 else get_count d k'.
Proof.
  unfold get_count at 1. rewrite count_up_get.
  destruct (String.eqb k k'); reflexivity.
Qed.

Lemma count_up_sum (d : list (string * nat)) (k : string) :
  list_sum (map snd (count_up d k)) = list_sum (map snd d) + 1.
Proof.
  unfold count_up, get_count.
  induction d as [|[k0 n0] d IH]; simpl.
  - reflexivity.
  - destruct (String.eqb k0 k) eqn:E; simpl.
    + lia.
    + rewrite IH. lia.
Qed.

(** The loop of [get_statistics] that counts the messages by [key]. *)
Lemma counting_from (key : ACLMessage -> string) (msgs : list ACLMessage) :
  forall d : list (string * nat),
  let d' := fold_left (fun d msg => count_up d (key msg)) msgs d in
  (forall k,
     adict_get d' k
     = match filter (fun m => String.eqb (key m) k) msgs with
       | [] => adict_get d k
       | l => Some (get_count d k + List.length l)
       end) /\
  list_sum (map snd d') = list_sum (map snd d) + List.length msgs.
Proof.
  induction msgs as [|m msgs IH]; intros d; simpl.
  - split; [reflexivity|lia].
  - destruct (IH (count_up d (key m))) as (Hg & Hs). split.
    + intros k. rewrite Hg, count_up_get, count_up_count.
      destruct (String.eqb (key m) k) eqn:E.
      * apply String.eqb_eq in E. subst k.
        destruct (filter _ msgs); simpl; [reflexivity|apply f_equal; lia].
      * reflexivity.
    + rewrite Hs, count_up_sum. lia.
Qed.

Lemma value_eqb (p q : Performative) :
  String.eqb (value p) (value q) = Performative_eqb p q.
Proof. destruct p, q; reflexivity. Qed.

Lemma sent_by_involved (id : string) (msgs : list ACLMessage) :
  List.length (sent_by id msgs)
  <= List.length
       (filter (fun msg => String.eqb (sender msg) id || String.eqb (receiver msg) id)
               msgs).
Proof.
  unfold sent_by. induction msgs as [|m l IH]; simpl; [lia|].
  destruct (String.eqb (sender m) id); simpl; [lia|].
  destruct (String.eqb (receiver m) id); simpl; lia.
Qed.

(** X19.  The statistics agree with the log: the total is the number of
    logged messages; under the tag of a performative stands the number of
    messages [get_messages_by_performative] returns for it, and under an
    agent id the number of messages that agent sent, with no entry where
    that number is zero; both tables add up to the total.  The count under
    an agent id never exceeds what [get_messages_by_agent] returns, which
    also holds the messages the agent received. *)
Theorem statistics_agree_with_log (self : MessageLogger) :
  let stats := get_statistics self in
  total_messages stats = List.length (messages self) /\
  (forall p, adict_get (by_performative stats) (value p)
             = count_entry (List.length (get_messages_by_performative self p))) /\
  (forall id, adict_get (by_agent stats) id
              = count_entry (List.length (sent_by id (messages self))) /\
              List.length (sent_by id (messages self))
              <= List.length (get_messages_by_agent self id)) /\
  list_sum (map snd (by_performative stats)) = total_messages stats /\
  list_sum (map snd (by_agent stats)) = total_messages stats.
Proof.
  cbn zeta. unfold get_statistics.
  cbn [total_messages by_performative by_agent].
  destruct (counting_from (fun m => value (performative m)) (messages self) [])
    as (Hp & Hps).
  destruct (counting_from sender (messages self) []) as (Ha & Has).
  cbn zeta in Hp, Hps, Ha, Has.
  split; [reflexivity|]. split; [|split; [|split]].
  - intros p. rewrite Hp. unfold get_messages_by_performative.
    rewrite (filter_ext (fun m => String.eqb (value (performative m)) (value p))
                        (fun msg => Performative_eqb (performative msg) p))
      by (intros m; apply value_eqb).
    destruct (filter _ (messages self)); reflexivity.
  - intros id. split.
    + rewrite Ha. unfold sent_by. destruct (filter _ (messages self)); reflexivity.
    + apply sent_by_involved.
  - rewrite Hps. reflexivity.
  - rewrite Has. reflexivity.
Qed.

End LoggerFacts.

(** ** The rescue agent on the grid *)

Section GridFacts.

Variable State : Type.
Variable py_str : PyVal -> string.

Local Abbreviation RA := (@RescueAgent State).

Lemma location_eqb_eq (p q : Z * Z) : location_eqb p q = true <-> p = q.
Proof.
  destruct p as [x y], q as [u v]. unfold location_eqb. simpl.
  rewrite andb_true_iff, !Z.eqb_eq. split.
  - intros [-> ->]. reflexivity.
  - intros H. injection H as -> ->. split; reflexivity.
Qed.

Lemma grid_distance_zero (p q : Z * Z) : grid_distance p q = 0%Z <-> p = q.
Proof.
  destruct p as [x y], q as [u v]. unfold grid_distance. simpl. split.
  - intros H. f_equal; lia.
  - intros H. injection H as -> ->. lia.
Qed.

(** [_log_trace] leaves the fields of the subclass alone. *)
Ltac change_log_domain :=
  repeat match goal with
         | |- context [domain (_log_trace ?b ?s)] =>
             change (domain (_log_trace b s)) with (domain b)
         end.

Lemma log_trace_adds {D : Type} (a : @FSMAgent State D) (s : string) :
  exists line, execution_trace (_log_trace a s) = execution_trace a ++ [line].
Proof. eexists. reflexivity. Qed.

(** One call of [_move_toward_target] with the target [t]. *)
Lemma move_toward_target_cases (a : RA) (t : Z * Z) :
  target_location (domain a) = Some t ->
  target_location (domain (_move_toward_target py_str a)) = Some t /\
  (current_location (domain a) = t -> _move_toward_target py_str a = a) /\
  (current_location (domain a) <> t ->
   let a' := _move_toward_target py_str a in
   grid_distance (current_location (domain a')) t
   = (grid_distance (current_location (domain a)) t - 1)%Z /\
   (Z.abs (fst (current_location (domain a')) - fst (current_location (domain a))) <= 1)%Z /\
   (Z.abs (snd (current_location (domain a')) - snd (current_location (domain a))) <= 1)%Z /\
   exists line, execution_trace a' = execution_trace a ++ [line]).
Proof.
  intros Ht. unfold _move_toward_target. rewrite Ht. destruct t as [tx ty].
  destruct (location_eqb (current_location (domain a)) (tx, ty)) eqn:E; cbn [negb].
  - apply location_eqb_eq in E. split; [exact Ht|]. split; [reflexivity|].
    intros H. contradiction.
  - assert (Hne : current_location (domain a) <> (tx, ty)).
    { intros H. apply location_eqb_eq in H. congruence. }
    destruct (current_location (domain a)) as [x y] eqn:Ec.
    change_log_domain. cbn [set_current_location set_domain domain
                                    current_location target_location].
    split; [exact Ht|]. split; [intros H; contradiction|].
    intros _. cbn zeta. change_log_domain.
    cbn [set_current_location set_domain domain current_location fst snd].
    assert (Hxy : x <> tx \/ y <> ty).
    { destruct (Z.eq_dec x tx) as [->|]; [|tauto].
      destruct (Z.eq_dec y ty) as [->|]; [|tauto]. exfalso. apply Hne. reflexivity. }
    unfold grid_distance. cbn [fst snd].
    rewrite !Z.gtb_ltb.
    destruct (Z.ltb_spec x tx), (Z.ltb_spec tx x), (Z.ltb_spec y ty), (Z.ltb_spec ty y);
      (split; [lia|split; [lia|split; [lia|]]]);
      match goal with
      | |- exists line, execution_trace (_log_trace ?b ?s) = _ =>
          exact (log_trace_adds b s)
      end.
Qed.

(** X20.  A call of [_move_toward_target] by an agent that is not at its
    target brings it exactly one move nearer: each coordinate changes by at
    most one, the distance to the target goes down by one, and one line is
    added to the trace.  At the target the call changes nothing. *)
Theorem move_toward_target_approaches (a : RA) (t : Z * Z) :
  target_location (domain a) = Some t ->
  let a' := _move_toward_target py_str a in
  (current_location (domain a) = t -> a' = a) /\
  (current_location (domain a) <> t ->
   grid_distance (current_location (domain a')) t
   = (grid_distance (current_location (domain a)) t - 1)%Z /\
   (Z.abs (fst (current_location (domain a')) - fst (current_location (domain a))) <= 1)%Z /\
   (Z.abs (snd (current_location (domain a')) - snd (current_location (domain a))) <= 1)%Z /\
   exists line, execution_trace a' = execution_trace a ++ [line]).
Proof.
  intros Ht. destruct (move_toward_target_cases a t Ht) as (_ & H1 & H2).
  split; [exact H1|exact H2].
Qed.

Lemma grid_distance_nonneg (p q : Z * Z) : (0 <= grid_distance p q)%Z.
Proof. unfold grid_distance. lia. Qed.

(** X21.  An agent with the target [t] is at [t] after [k] calls of
    [_move_toward_target] exactly when [k] is at least the distance it
    started from: it arrives after that many calls, not earlier, and stays. *)
Theorem target_reached_exactly (k : nat) :
  forall (a : RA) (t : Z * Z),
  target_location (domain a) = Some t ->
  (current_location (domain (calls k (_move_toward_target py_str) a)) = t
   <-> (grid_distance (current_location (domain a)) t <= Z.of_nat k)%Z).
Proof.
  induction k as [|k IH]; intros a t Ht.
  - simpl calls. rewrite <- grid_distance_zero.
    pose proof (grid_distance_nonneg (current_location (domain a)) t). lia.
  - cbn [calls].
    destruct (move_toward_target_cases a t Ht) as (Ht' & Hat & Hmove).
    rewrite (IH _ t Ht').
    destruct (location_eqb (current_location (domain a)) t) eqn:E.
    + apply location_eqb_eq in E. rewrite (Hat E).
      apply grid_distance_zero in E. lia.
    + assert (Hne : current_location (domain a) <> t).
      { intros H. apply location_eqb_eq in H. congruence. }
      destruct (Hmove Hne) as (Hd & _). rewrite Hd. lia.
Qed.

(** One call of [_move_to_base]. *)
Lemma move_to_base_cases (a : RA) :
  (current_location (domain a) = (0, 0)%Z -> _move_to_base py_str a = a) /\
  (current_location (domain a) <> (0, 0)%Z ->
   grid_distance (current_location (domain (_move_to_base py_str a))) (0, 0)%Z
   = (grid_distance (current_location (domain a)) (0, 0)%Z - 1)%Z).
Proof.
  unfold _move_to_base. cbn zeta.
  destruct (location_eqb (current_location (domain a)) (0, 0)%Z) eqn:E; cbn [negb].
  - apply location_eqb_eq in E. split; [reflexivity|]. intros H. contradiction.
  - assert (Hne : current_location (domain a) <> (0, 0)%Z).
    { intros H. apply location_eqb_eq in H. congruence. }
    destruct (current_location (domain a)) as [x y] eqn:Ec.
    split; [intros H; contradiction|]. intros _.
    change_log_domain.
    cbn [set_current_location set_domain domain current_location fst snd].
    assert (Hxy : x <> 0%Z \/ y <> 0%Z).
    { destruct (Z.eq_dec x 0) as [->|]; [|tauto].
      destruct (Z.eq_dec y 0) as [->|]; [|tauto]. exfalso. apply Hne. reflexivity. }
    unfold grid_distance. cbn [fst snd].
    rewrite !Z.gtb_ltb.
    destruct (Z.ltb_spec x 0), (Z.ltb_spec 0 x), (Z.ltb_spec y 0), (Z.ltb_spec 0 y); lia.
Qed.

(** X22.  From wherever it is, the agent is back at the base [(0, 0)]
    after [k] calls of [_move_to_base] exactly when [k] is at least its
    distance from the base; no target is needed for that. *)
Theorem base_reached_exactly (k : nat) :
  forall a : RA,
  current_location (domain (calls k (_move_to_base py_str) a)) = (0, 0)%Z
  <-> (grid_distance (current_location (domain a)) (0, 0)%Z <= Z.of_nat k)%Z.
Proof.
  induction k as [|k IH]; intros a.
  - simpl calls. rewrite <- grid_distance_zero.
    pose proof (grid_distance_nonneg (current_location (domain a)) (0, 0)%Z). lia.
  - cbn [calls]. destruct (move_to_base_cases a) as (Hat & Hmove).
    rewrite IH.
    destruct (location_eqb (current_location (domain a)) (0, 0)%Z) eqn:E.
    + apply location_eqb_eq in E. rewrite (Hat E).
      apply grid_distance_zero in E. lia.
    + assert (Hne : current_location (domain a) <> (0, 0)%Z).
      { intros H. apply location_eqb_eq in H. congruence. }
      rewrite (Hmove Hne). lia.
Qed.

End GridFacts.

(** ** The field agent *)

Section FieldFacts.

Variable py_str : PyVal -> string.

Local Abbreviation FA := Field.FieldAgent.
Local Abbreviation Table := (@HandlerTable Field.FieldAgentState Field.FieldFields).

Lemma field_reply (a0 a : FA) (m : ACLMessage) (p : Performative) (ct : PyVal) :
  agent_id a = agent_id a0 -> outbox (domain a) = outbox (domain a0) ->
  inbox (domain a) = inbox (domain a0) ->
  agent_id a0 <> "" -> sender m <> "" -> p <> REQUEST -> is_none ct = false ->
  let a' := send_reply py_str a m p ct in
  exists reply,
    Field.answered a0 a' m reply /\ performative reply = p /\
    Field.fields a' = Field.fields a /\ agent_id a' = agent_id a0.
Proof.
  intros Hid Hout Hin Ha Hs Hp Hc. cbv zeta.
  assert (Ha' : agent_id a <> "") by (rewrite Hid; exact Ha).
  destruct (send_reply_sent Field.FieldAgentState py_str Field.FieldFields a m p ct
              Ha' Hs Hp Hc) as (Ho & _ & Hi).
  destruct (create_reply_fields m p ct (agent_id a) (clock a))
    as (Hr & Hirt & Hpf & _ & Hsd).
  exists (reply_of a m p ct). split; [|split; [exact Hpf|split]].
  - unfold Field.answered. rewrite Ho, Hi, Hout, Hin. unfold reply_of.
    split; [reflexivity|]. split; [reflexivity|]. split; [exact Hr|].
    split; [rewrite Hsd; exact Hid|]. split; [exact Hirt|].
    intros Hcid. apply (create_reply_thread m p ct (agent_id a) (clock a) Hcid).
  - unfold send_reply, send_message, Field.fields.
    destruct (create_reply m p ct (agent_id a) (clock a)) as [reply c1].
    destruct (validate reply) as [[|] err]; reflexivity.
  - rewrite <- Hid. unfold send_reply, send_message.
    destruct (create_reply m p ct (agent_id a) (clock a)) as [reply c1].
    destruct (validate reply) as [[|] err]; reflexivity.
Qed.

(** X23.  A field agent with a non-empty id answers every request of a
    named sender: processing the request returns without an exception and
    puts exactly one message into the outbox, a reply to the sender that
    names the request and, when the request has a conversation id, stays
    in its conversation, with the performative [agree], [refuse] or
    [not-understood].  The agent takes a mission on
    only when it agrees and had none: if [current_mission] has changed, the
    reply is [agree], there was no mission before, and the sender of the
    request is the coordinator now. *)
Theorem request_gets_one_answer (tbl : Table) (m : ACLMessage) (a : FA) :
  tbl REQUEST = Some (Field._handle_coordinator_request py_str) ->
  performative m = REQUEST ->
  agent_id a <> "" -> sender m <> "" ->
  exists a' reply,
    _process_message py_str tbl m a = (a', None) /\
    Field.answered a a' m reply /\
    Field.is_answer (performative reply) /\
    (Field.current_mission (Field.fields a') <> Field.current_mission (Field.fields a) ->
     performative reply = AGREE /\
     Field.current_mission (Field.fields a) = None /\
     Field.coordinator_id (Field.fields a') = Some (sender m)).
Proof.
  intros Htbl Hp Ha Hs.
  unfold _process_message, andthen, done, try_except. rewrite Hp, Htbl.
  set (a0 := _log_trace a ("Processing message: " ++ message_id m)).
  unfold Field._handle_coordinator_request. cbv beta.
  assert (refuse : forall (b : FA) ct,
            agent_id b = agent_id a -> outbox (domain b) = outbox (domain a) ->
            inbox (domain b) = inbox (domain a) -> Field.fields b = Field.fields a ->
            is_none ct = false ->
            exists a' reply,
              (send_reply py_str b m REFUSE ct, @None PyExn) = (a', None) /\
              Field.answered a a' m reply /\
              Field.is_answer (performative reply) /\
              (Field.current_mission (Field.fields a')
               <> Field.current_mission (Field.fields a) ->
               performative reply = AGREE /\
               Field.current_mission (Field.fields a) = None /\
               Field.coordinator_id (Field.fields a') = Some (sender m))).
  { intros b ct Hid Ho Hi Hf Hc.
    destruct (field_reply a b m REFUSE ct Hid Ho Hi Ha Hs ltac:(discriminate) Hc)
      as (reply & Hans & Hpf & Hfl & _).
    exists (send_reply py_str b m REFUSE ct), reply.
    split; [reflexivity|]. split; [exact Hans|]. split.
    - rewrite Hpf. right. left. reflexivity.
    - rewrite Hfl, Hf. intros H. contradiction. }
  assert (raised : forall (b : FA) e,
            agent_id b = agent_id a -> outbox (domain b) = outbox (domain a) ->
            inbox (domain b) = inbox (domain a) -> Field.fields b = Field.fields a ->
            exists a' reply,
              (_send_not_understood py_str
                 (_log_trace b ("ERROR in message handler: " ++ exn_text e))
                 m (exn_text e), @None PyExn) = (a', None) /\
              Field.answered a a' m reply /\
              Field.is_answer (performative reply) /\
              (Field.current_mission (Field.fields a')
               <> Field.current_mission (Field.fields a) ->
               performative reply = AGREE /\
               Field.current_mission (Field.fields a) = None /\
               Field.coordinator_id (Field.fields a') = Some (sender m))).
  { intros b e Hid Ho Hi Hf. unfold _send_not_understood.
    destruct (field_reply a (_log_trace b ("ERROR in message handler: " ++ exn_text e))
                m NOT_UNDERSTOOD
                (PyDict [("reason", PyStr (exn_text e));
                         ("original_message", PyStr (message_id m))])
                Hid Ho Hi Ha Hs ltac:(discriminate) eq_refl)
      as (reply & Hans & Hpf & Hfl & _).
    eexists _, reply.
    split; [reflexivity|]. split; [exact Hans|]. split.
    - rewrite Hpf. right. right. reflexivity.
    - rewrite Hfl. change (Field.fields (_log_trace b _)) with (Field.fields b).
      rewrite Hf. intros H. contradiction. }
  destruct (content m) as [|cb|cz|cs|cl|ct|d] eqn:Ec;
    try (apply refuse; reflexivity).
  cbv zeta.
  set (action := get_or d "action" PyNone).
  set (parameters := get_or d "parameters" (PyDict [])).
  set (a1 := _log_trace a0 _).
  destruct (is_str action "investigate_location") eqn:E1.
  { unfold Field._accept_investigation_mission.
    change (Field.fields a1) with (Field.fields a).
    destruct (Field.current_mission (Field.fields a)) as [mission|] eqn:Em.
    - apply refuse; reflexivity.
    - destruct parameters as [|pb|pz|ps|pl|pt|pd] eqn:Epar;
        try (cbv beta iota; apply raised; reflexivity).
      cbv zeta.
      match goal with
      | |- context [send_reply py_str ?b m AGREE ?ct] =>
          destruct (field_reply a b m AGREE ct eq_refl eq_refl eq_refl Ha Hs
                      ltac:(discriminate) eq_refl)
            as (reply & Hans & Hpf & Hfl & _);
          exists (_log_trace (send_reply py_str b m AGREE ct)
                    ("Accepted investigation mission to " ++
                     py_str (Field.target_location
                               (Field.fields (send_reply py_str b m AGREE ct))))),
                 reply
      end.
      split; [reflexivity|]. split; [exact Hans|]. split.
      + rewrite Hpf. left. reflexivity.
      + intros _. split; [exact Hpf|]. split; [reflexivity|].
        change (Field.fields (_log_trace ?b ?s)) with (Field.fields b).
        rewrite Hfl. reflexivity. }
  destruct (is_str action "return_to_base") eqn:E2.
  { unfold Field._accept_return_mission. cbv zeta.
    match goal with
    | |- context [send_reply py_str ?b m AGREE ?ct] =>
        destruct (field_reply a b m AGREE ct eq_refl eq_refl eq_refl Ha Hs
                    ltac:(discriminate) eq_refl)
          as (reply & Hans & Hpf & Hfl & _);
        exists (_log_trace (send_reply py_str b m AGREE ct) "Returning to base"), reply
    end.
    split; [reflexivity|]. split; [exact Hans|]. split.
    - rewrite Hpf. left. reflexivity.
    - change (Field.fields (_log_trace ?b ?s)) with (Field.fields b).
      rewrite Hfl. intros H. exfalso. apply H. reflexivity. }
  destruct (is_str action "assist_agent") eqn:E3.
  { unfold Field._accept_assist_mission.
    destruct parameters as [|pb|pz|ps|pl|pt|pd] eqn:Epar;
      try (cbv beta iota; apply raised; reflexivity).
    cbv zeta.
    match goal with
    | |- context [send_reply py_str ?b m AGREE ?ct] =>
        destruct (field_reply a b m AGREE ct eq_refl eq_refl eq_refl Ha Hs
                    ltac:(discriminate) eq_refl)
          as (reply & Hans & Hpf & Hfl & _);
        eexists (_log_trace (send_reply py_str b m AGREE ct) _), reply
    end.
    split; [reflexivity|]. split; [exact Hans|]. split.
    - rewrite Hpf. left. reflexivity.
    - change (Field.fields (_log_trace ?b ?s)) with (Field.fields b).
      rewrite Hfl. intros H. exfalso. apply H. reflexivity. }
  apply refuse; reflexivity.
Qed.

End FieldFacts.

(** ** The coordinator *)

Section CoordinatorFacts.

Variable py_str : PyVal -> string.

Local Abbreviation CO := Coordinator.CoordinatorAgent.

Lemma existsb_eqb_In (x : string) (l : list string) :
  existsb (String.eqb x) l = true <-> In x l.
Proof.
  rewrite existsb_exists. split.
  - intros (y & Hy & E). apply String.eqb_eq in E. subst y. exact Hy.
  - intros H. exists x. split; [exact H|apply String.eqb_refl].
Qed.

Lemma register_field_agent_agents (a : CO) (agent : string) :
  Coordinator.field_agents (Coordinator.fields (Coordinator.register_field_agent a agent))
  = if existsb (String.eqb agent) (Coordinator.field_agents (Coordinator.fields a))
    then Coordinator.field_agents (Coordinator.fields a)
    else Coordinator.field_agents (Coordinator.fields a) ++ [agent].
Proof.
  unfold Coordinator.register_field_agent.
  destruct (existsb _ _); reflexivity.
Qed.

(** X24.  Registering field agents, in any number and with repetitions,
    keeps the list of field agents free of duplicates: the agents
    registered before keep their places at the front, every id that was
    registered is in the list, and none is in it twice. *)
Theorem registered_agents_distinct (ids : list string) :
  forall a : CO,
  NoDup (Coordinator.field_agents (Coordinator.fields a)) ->
  let a' := fold_left Coordinator.register_field_agent ids a in
  NoDup (Coordinator.field_agents (Coordinator.fields a')) /\
  (forall id, In id (Coordinator.field_agents (Coordinator.fields a'))
              <-> In id (Coordinator.field_agents (Coordinator.fields a)) \/ In id ids) /\
  exists added,
    Coordinator.field_agents (Coordinator.fields a')
    = Coordinator.field_agents (Coordinator.fields a) ++ added.
Proof.
  induction ids as [|id ids IH]; intros a Hn; cbn [fold_left]; cbv zeta.
  - split; [exact Hn|]. split.
    + intros id. simpl. tauto.
    + exists []. rewrite app_nil_r. reflexivity.
  - pose proof (register_field_agent_agents a id) as Hreg.
    destruct (existsb (String.eqb id) (Coordinator.field_agents (Coordinator.fields a)))
      eqn:E.
    + apply existsb_eqb_In in E.
      destruct (IH (Coordinator.register_field_agent a id)) as (H1 & H2 & added & H3).
      { rewrite Hreg. exact Hn. }
      rewrite Hreg in H2, H3. split; [exact H1|]. split.
      * intros x. rewrite H2. simpl. split; [tauto|].
        intros [H|[<-|H]]; auto.
      * exists added. exact H3.
    + assert (Hnot : ~ In id (Coordinator.field_agents (Coordinator.fields a))).
      { intros H. apply existsb_eqb_In in H. congruence. }
      destruct (IH (Coordinator.register_field_agent a id)) as (H1 & H2 & added & H3).
      { rewrite Hreg. apply NoDup_app; [exact Hn|repeat constructor; simpl; tauto|].
        intros x Hx [<-|[]]. exact (Hnot Hx). }
      rewrite Hreg in H2, H3. split; [exact H1|]. split.
      * intros x. rewrite H2, in_app_iff. simpl. tauto.
      * exists (id :: added). rewrite H3, <- app_assoc. reflexivity.
Qed.

Lemma init_fields p s r ct l o pr cid rt irt c :
  let m := fst (ACLMessage_init p s r ct l o pr cid rt irt c) in
  performative m = p /\ sender m = s /\ receiver m = r /\ content m = ct.
Proof.
  unfold ACLMessage_init.
  destruct cid as [x|]; [destruct (String.eqb x "")|]; simpl; repeat split; reflexivity.
Qed.

(** What one dispatch leaves. *)
Lemma dispatch_to_spec (md : PyDictT) (agent : string) (a : CO) :
  agent_id a <> "" -> agent <> "" ->
  let a' := Coordinator.dispatch_to py_str md agent a in
  exists request mission,
    outbox (domain a') = outbox (domain a) ++ [request] /\
    performative request = REQUEST /\ sender request = agent_id a /\
    receiver request = agent /\
    content request = Coordinator.investigation_request md /\
    Coordinator.active_missions (Coordinator.fields a')
    = adict_set (Coordinator.active_missions (Coordinator.fields a)) agent mission /\
    Coordinator.field_agents (Coordinator.fields a')
    = Coordinator.field_agents (Coordinator.fields a) /\
    agent_id a' = agent_id a /\ current_state a' = current_state a /\
    state_history a' = state_history a /\ inbox (domain a') = inbox (domain a).
Proof.
  intros Ha Hag. cbv zeta. unfold Coordinator.dispatch_to.
  destruct (init_fields REQUEST (agent_id a) agent (Coordinator.investigation_request md)
              default_language default_ontology default_protocol None None None
              (clock a)) as (Hp & Hs & Hr & Hc).
  destruct (ACLMessage_init REQUEST (agent_id a) agent
              (Coordinator.investigation_request md) default_language default_ontology
              default_protocol None None None (clock a)) as [request c1].
  cbn [fst] in Hp, Hs, Hr, Hc.
  assert (Hv : validate request = (true, None)).
  { unfold validate. rewrite Hs, Hr, Hp, Hc.
    apply String.eqb_neq in Ha, Hag. rewrite Ha, Hag. reflexivity. }
  exists request. eexists.
  unfold send_message. rewrite Hv. cbn [negb].
  repeat split; try reflexivity; assumption.
Qed.

Lemma free_after_dispatch (d : list (string * PyDictT)) (agent : string)
    (mission : PyDictT) (rest : list string) :
  ~ In agent rest ->
  filter (fun x => match adict_get (adict_set d agent mission) x with
                   | None => true
                   | Some _ => false
                   end) rest
  = filter (fun x => match adict_get d x with
                     | None => true
                     | Some _ => false
                     end) rest.
Proof.
  intros Hnot. apply filter_ext_in. intros x Hx. rewrite adict_get_set.
  destruct (String.eqb agent x) eqn:E; [|reflexivity].
  apply String.eqb_eq in E. subst x. contradiction.
Qed.

(** The loop of [dispatch_field_agents], from any point of its run. *)
Lemma dispatch_loop_spec (md : PyDictT) (n : Z) (agents : list string) :
  forall (k : Z) (a : CO),
  NoDup agents -> Forall (fun id => id <> "") agents -> agent_id a <> "" ->
  let chosen :=
    firstn (Z.to_nat (n - k))
           (filter (fun x =>
                      match adict_get (Coordinator.active_missions (Coordinator.fields a)) x
                      with None => true | Some _ => false end)
                   agents) in
  exists a' requests,
    Coordinator.dispatch_loop py_str md (PyInt n) agents k a
    = ((a', (k + Z.of_nat (List.length chosen))%Z), None) /\
    outbox (domain a') = outbox (domain a) ++ requests /\
    map receiver requests = chosen /\
    Forall (fun r => performative r = REQUEST /\ sender r = agent_id a /\
                     content r = Coordinator.investigation_request md) requests /\
    map fst (Coordinator.active_missions (Coordinator.fields a'))
    = map fst (Coordinator.active_missions (Coordinator.fields a)) ++ chosen /\
    Coordinator.field_agents (Coordinator.fields a')
    = Coordinator.field_agents (Coordinator.fields a) /\
    agent_id a' = agent_id a /\ current_state a' = current_state a /\
    state_history a' = state_history a /\ inbox (domain a') = inbox (domain a).
Proof.
  induction agents as [|agent rest IH]; intros k a Hn Hf Ha; cbv zeta.
  - exists a, []. rewrite firstn_nil. simpl. rewrite Z.add_0_r, !app_nil_r.
    repeat split; constructor.
  - cbn [Coordinator.dispatch_loop int_ge].
    inversion Hn as [|? ? Hnot Hn']; subst.
    inversion Hf as [|? ? Hag Hf']; subst.
    destruct (k >=? n)%Z eqn:E.
    + assert (Hz : Z.to_nat (n - k) = 0) by lia. rewrite Hz. cbn [firstn List.length].
      exists a, []. simpl. rewrite Z.add_0_r, !app_nil_r.
      repeat split; constructor.
    + assert (Hz : Z.to_nat (n - k) = S (Z.to_nat (n - (k + 1)))) by lia.
      cbn [filter].
      destruct (adict_get (Coordinator.active_missions (Coordinator.fields a)) agent)
        as [mission0|] eqn:Eg.
      * exact (IH k a Hn' Hf' Ha).
      * destruct (dispatch_to_spec md agent a Ha Hag)
          as (request & mission & Ho & Hp & Hs & Hr & Hc & Hm & Hfa & Hid & Hst & Hh & Hi).
        destruct (IH (k + 1)%Z (Coordinator.dispatch_to py_str md agent a) Hn' Hf')
          as (a' & requests & Hrun & Ho' & Hrec & Hall & Hkeys & Hfa' & Hid' & Hst' & Hh'
              & Hi').
        { rewrite Hid. exact Ha. }
        rewrite Hm, (free_after_dispatch _ agent mission rest Hnot) in Hrun, Hrec, Hkeys.
        rewrite Hz. cbn [firstn List.length].
        exists a', (request :: requests). split.
        { rewrite Hrun. f_equal. f_equal. lia. }
        split; [rewrite Ho', Ho, <- app_assoc; reflexivity|].
        split; [simpl; rewrite Hr, Hrec; reflexivity|].
        split.
        { constructor; [auto|]. rewrite Hid in Hall. exact Hall. }
        split.
        { rewrite Hkeys, adict_set_keys, Eg, <- app_assoc. reflexivity. }
        split; [rewrite Hfa'; exact Hfa|].
        split; [rewrite Hid'; exact Hid|].
        split; [rewrite Hst'; exact Hst|].
        split; [rewrite Hh'; exact Hh|].
        rewrite Hi'. exact Hi.
Qed.

(** X25.  With duplicate-free, non-empty ids and an integer
    [required_agents] of [n] (one when the key is absent),
    [dispatch_field_agents] returns after sending one [request] to each of
    the first [n] registered agents without a mission, in the order of
    their registration, and to no one else; these agents, and only they,
    are added to the active missions.  The coordinator is in the state
    [MONITORING] when at least one request went out and in [COORDINATING]
    otherwise, and neither change of state is recorded in the state
    history. *)
Theorem dispatch_requests_free_agents (md : PyDictT) (n : Z) (a : CO) :
  NoDup (Coordinator.field_agents (Coordinator.fields a)) ->
  Forall (fun id => id <> "") (Coordinator.field_agents (Coordinator.fields a)) ->
  agent_id a <> "" ->
  get_or md "required_agents" (PyInt 1) = PyInt n ->
  let chosen := firstn (Z.to_nat n) (Coordinator.free_agents a) in
  exists a' requests,
    Coordinator.dispatch_field_agents py_str md a = (a', None) /\
    outbox (domain a') = outbox (domain a) ++ requests /\
    map receiver requests = chosen /\
    Forall (fun r => performative r = REQUEST /\ sender r = agent_id a /\
                     content r = Coordinator.investigation_request md) requests /\
    map fst (Coordinator.active_missions (Coordinator.fields a'))
    = map fst (Coordinator.active_missions (Coordinator.fields a)) ++ chosen /\
    current_state a'
    = match chosen with
      | [] => Coordinator.COORDINATING
      | _ => Coordinator.MONITORING
      end /\
    state_history a' = state_history a.
Proof.
  intros Hn Hf Ha Hreq. cbv zeta. unfold Coordinator.dispatch_field_agents.
  rewrite Hreq. cbv zeta.
  set (a1 := set_current_state a Coordinator.COORDINATING).
  destruct (dispatch_loop_spec md n
              (Coordinator.field_agents (Coordinator.fields a1)) 0%Z a1 Hn Hf Ha)
    as (a2 & requests & Hrun & Ho & Hrec & Hall & Hkeys & _ & Hid & Hst & Hh & _).
  rewrite Z.sub_0_r in Hrun, Hrec, Hkeys.
  change (filter _ (Coordinator.field_agents (Coordinator.fields a1)))
    with (Coordinator.free_agents a) in Hrun, Hrec, Hkeys.
  rewrite Hrun.
  destruct (firstn (Z.to_nat n) (Coordinator.free_agents a)) as [|c cs] eqn:Ech.
  - cbn [List.length Z.of_nat Z.add Z.gtb Z.compare].
    eexists _, requests. split; [reflexivity|].
    split; [exact Ho|]. split; [exact Hrec|]. split; [exact Hall|].
    split; [exact Hkeys|]. split; [exact Hst|exact Hh].
  - assert (Hpos : (0 + Z.of_nat (List.length (c :: cs)) >? 0)%Z = true).
    { rewrite Z.gtb_ltb. apply Z.ltb_lt. cbn [List.length]. lia. }
    rewrite Hpos.
    eexists _, requests. split; [reflexivity|].
    split; [exact Ho|]. split; [exact Hrec|]. split; [exact Hall|].
    split; [exact Hkeys|]. split; [reflexivity|exact Hh].
Qed.

End CoordinatorFacts.

(** ** The coordinator and the field agent together *)

Section CoordinationFacts.

Variable py_str : PyVal -> string.

Local Abbreviation FA := Field.FieldAgent.
Local Abbreviation CO := Coordinator.CoordinatorAgent.

(** A field agent without a mission agrees to the request the coordinator
    builds. *)
Lemma investigation_agreed (md : PyDictT) (m : ACLMessage) (f : FA) :
  performative m = REQUEST ->
  content m = Coordinator.investigation_request md ->
  sender m <> "" -> agent_id f <> "" ->
  Field.current_mission (Field.fields f) = None ->
  exists f' agree,
    _process_message py_str (Field.field_handlers py_str) m f = (f', None) /\
    Field.answered f f' m agree /\
    performative agree = AGREE /\
    agent_id f' = agent_id f /\
    Field.target_location (Field.fields f') = get_or md "location" PyNone /\
    Field.coordinator_id (Field.fields f') = Some (sender m) /\
    Field.current_mission (Field.fields f') <> None.
Proof.
  intros Hp Hc Hs Ha Hm.
  unfold _process_message, andthen, done, try_except. rewrite Hp.
  change (Field.field_handlers py_str REQUEST)
    with (Some (Field._handle_coordinator_request py_str)).
  unfold Field._handle_coordinator_request. cbv beta. rewrite Hc.
  unfold Coordinator.investigation_request.
  cbn [get_or dict_get String.eqb Ascii.eqb Bool.eqb is_str].
  unfold Field._accept_investigation_mission.
  match goal with
  | |- context [Field.current_mission (Field.fields ?b)] =>
      change (Field.current_mission (Field.fields b))
        with (Field.current_mission (Field.fields f))
  end.
  rewrite Hm. cbv zeta.
  match goal with
  | |- context [send_reply py_str ?b m AGREE ?ct] =>
      destruct (field_reply py_str f b m AGREE ct eq_refl eq_refl eq_refl Ha Hs
                  ltac:(discriminate) eq_refl)
        as (agree & Hans & Hpf & Hfl & Hid);
      eexists (_log_trace (send_reply py_str b m AGREE ct) _), agree
  end.
  split; [reflexivity|]. split; [exact Hans|]. split; [exact Hpf|].
  split; [exact Hid|].
  change (Field.fields (_log_trace ?b ?s)) with (Field.fields b).
  rewrite Hfl. split; [reflexivity|]. split; [reflexivity|]. discriminate.
Qed.

(** X26.  One round between the coordinator and a field agent without a
    mission.  The field agent agrees to the request that
    [dispatch_field_agents] builds and takes the mission on.  The
    coordinator has no handler for [agree]: it answers the agreement with
    [not-understood].  The field agent has no handler for
    [not-understood]: it answers in kind, to the coordinator. *)
Theorem agreement_is_not_understood (md : PyDictT) (m : ACLMessage) (f : FA) (c : CO) :
  performative m = REQUEST ->
  content m = Coordinator.investigation_request md ->
  sender m = agent_id c ->
  agent_id c <> "" -> agent_id f <> "" ->
  Field.current_mission (Field.fields f) = None ->
  exists f' agree c' puzzled f'' puzzled',
    _process_message py_str (Field.field_handlers py_str) m f = (f', None) /\
    outbox (domain f') = outbox (domain f) ++ [agree] /\
    performative agree = AGREE /\ receiver agree = agent_id c /\
    Field.current_mission (Field.fields f') <> None /\
    Field.target_location (Field.fields f') = get_or md "location" PyNone /\
    _process_message py_str (Coordinator.coordinator_handlers py_str) agree c
    = (c', None) /\
    outbox (domain c') = outbox (domain c) ++ [puzzled] /\
    performative puzzled = NOT_UNDERSTOOD /\ receiver puzzled = agent_id f /\
    _process_message py_str (Field.field_handlers py_str) puzzled f' = (f'', None) /\
    outbox (domain f'') = outbox (domain f') ++ [puzzled'] /\
    performative puzzled' = NOT_UNDERSTOOD /\ receiver puzzled' = agent_id c.
Proof.
  intros Hp Hc Hsc Hco Hfa Hm.
  assert (Hs : sender m <> "") by (rewrite Hsc; exact Hco).
  destruct (investigation_agreed md m f Hp Hc Hs Hfa Hm)
    as (f' & agree & Hrun & Hans & Hpf & Hid & Ht & _ & Hmis).
  destruct Hans as (Ho & _ & Hr & Hsd & _).
  assert (Hsa : sender agree <> "") by (rewrite Hsd; exact Hfa).
  destruct (fallback_no_handler Coordinator.CoordinatorState py_str Coordinator.CoordFields
              (Coordinator.coordinator_handlers py_str) agree c Hsa)
    as (c' & Hrun2 & Ho2 & _ & _ & Hp2 & Hr2 & Hsd2 & _);
    [rewrite Hpf; reflexivity|exact Hco|].
  cbv zeta in Ho2, Hp2, Hr2, Hsd2.
  set (puzzled := reply_of _ agree NOT_UNDERSTOOD _) in *.
  assert (Hsp : sender puzzled <> "") by (rewrite Hsd2; exact Hco).
  assert (Hfa' : agent_id f' <> "") by (rewrite Hid; exact Hfa).
  destruct (fallback_no_handler Field.FieldAgentState py_str Field.FieldFields
              (Field.field_handlers py_str) puzzled f' Hsp)
    as (f'' & Hrun3 & Ho3 & _ & _ & Hp3 & Hr3 & _);
    [rewrite Hp2; reflexivity|exact Hfa'|].
  cbv zeta in Ho3, Hp3, Hr3.
  set (puzzled' := reply_of _ puzzled NOT_UNDERSTOOD _) in *.
  exists f', agree, c', puzzled, f'', puzzled'.
  split; [exact Hrun|]. split; [exact Ho|]. split; [exact Hpf|].
  split; [rewrite Hr; exact Hsc|]. split; [exact Hmis|]. split; [exact Ht|].
  split; [exact Hrun2|]. split; [exact Ho2|]. split; [exact Hp2|].
  split; [rewrite Hr2; exact Hsd|].
  split; [exact Hrun3|]. split; [exact Ho3|]. split; [exact Hp3|].
  rewrite Hr3. exact Hsd2.
Qed.

End CoordinationFacts.

(** ** The further properties on concrete agents *)

Import Cases.

Lemma from_dict_required_keys_witness :
  (In "performative" ["performative"; "sender"; "receiver"; "content"] /\
   dict_get no_performative "performative" = None) /\
  from_dict no_performative ticking = None.
Proof.
  assert (H : In "performative" ["performative"; "sender"; "receiver"; "content"] /\
              dict_get no_performative "performative" = None).
  { split; [left; reflexivity|reflexivity]. }
  split; [exact H|].
  exact (from_dict_required_keys no_performative ticking "performative" (or_introl H)).
Defined.

Lemma from_dict_defaults_witness :
  dict_get bare_inform "performative" = Some (PyStr (value INFORM)) /\
  dict_get bare_inform "sender" = Some (PyStr "agent_a") /\
  dict_get bare_inform "receiver" = Some (PyStr "agent_b") /\
  dict_get bare_inform "content" = Some (PyStr "ready") /\
  from_dict bare_inform ticking
  = Some (ACLMessage_init INFORM "agent_a" "agent_b" (PyStr "ready") "python-dict"
            "disaster-response" "fipa-request" None None None ticking).
Proof.
  repeat (split; [reflexivity|]).
  apply (from_dict_defaults bare_inform ticking INFORM "agent_a" "agent_b" (PyStr "ready"));
    try reflexivity.
  intros k Hk. simpl in Hk.
  repeat (destruct Hk as [<-|Hk]; [reflexivity|]). destruct Hk.
Defined.

Lemma reply_chain_keeps_conversation_witness :
  constructed request_a /\
  Forall (fun r => conversation_id r = conversation_id request_a)
         (fst (reply_chain request_a two_replies ticking)) /\
  linked request_a (fst (reply_chain request_a two_replies ticking)) /\
  List.length (fst (reply_chain request_a two_replies ticking)) = 2.
Proof.
  split; [exact request_a_constructed|].
  exact (reply_chain_keeps_conversation request_a two_replies ticking
           request_a_constructed).
Defined.

Lemma on_collapse_keeps_history : keeps_history [on_collapse].
Proof. intros t act [<-|[]] H. discriminate H. Qed.

Lemma alerted_drained :
  process_events_from RescueAgentState_eq_dec state_str 2 [on_collapse] [] alerted
  = Some ([building_collapse; fire_detected], (calmed, None)).
Proof. vm_compute. reflexivity. Qed.

Lemma one_transition_per_event_witness :
  keeps_history [on_collapse] /\
  process_events_from RescueAgentState_eq_dec state_str 2 [on_collapse] [] alerted
  = Some ([building_collapse; fire_detected], (calmed, None)) /\
  exists taken added,
    [building_collapse; fire_detected] = [] ++ taken /\
    state_history calmed = state_history alerted ++ added /\
    List.length added <= List.length taken.
Proof.
  split; [exact on_collapse_keeps_history|].
  split; [exact alerted_drained|].
  exact (one_transition_per_event RescueAgentState RescueAgentState_eq_dec state_str
           unit [on_collapse] 2 [] [building_collapse; fire_detected] alerted calmed None
           on_collapse_keeps_history alerted_drained).
Defined.

Lemma process_events_conserves_witness :
  keeps_queue [on_collapse] /\
  List.length (event_queue alerted) <= 2 /\
  exists taken a' r,
    process_events_from RescueAgentState_eq_dec state_str 2 [on_collapse] [] alerted
    = Some ([] ++ taken, (a', r)) /\
    taken ++ event_queue a' = event_queue alerted /\
    (r = None -> event_queue a' = []) /\
    (forall e, r = Some e -> taken <> []).
Proof.
  split; [exact on_collapse_keeps_queue|].
  split; [apply le_n|].
  exact (process_events_conserves RescueAgentState RescueAgentState_eq_dec state_str
           unit [on_collapse] 2 [] alerted on_collapse_keeps_queue (le_n 2)).
Defined.

Lemma event_ids_equal_witness :
  datetime_ok (readings frozen (ticks frozen)) = true /\
  (event_id (fst (Event_init "FIRE_DETECTED" [] 4 frozen))
   = event_id (fst (Event_init "FIRE_DETECTED" [("zone", PyStr "north")] 2 frozen))
   <-> "FIRE_DETECTED" = "FIRE_DETECTED" /\
       readings frozen (ticks frozen) = readings frozen (ticks frozen)).
Proof.
  split; [reflexivity|].
  exact (event_ids_equal "FIRE_DETECTED" "FIRE_DETECTED" [] [("zone", PyStr "north")]
           4 2 frozen frozen eq_refl eq_refl).
Defined.

Lemma process_messages_drains_witness :
  keeps_inbox (default_handlers show
               : @HandlerTable RescueAgentState unit) /\
  List.length (inbox (domain (receive_message show agent_b request_a))) <= 1 /\
  exists a',
    process_messages show 1 (default_handlers show)
      (receive_message show agent_b request_a) = Some (a', None) /\
    inbox (domain a') = [].
Proof.
  split; [exact (default_handlers_keep_inbox RescueAgentState show unit)|].
  split; [apply le_n|].
  exact (proj1 (process_messages_drains RescueAgentState show unit
                  (default_handlers show) 1 (receive_message show agent_b request_a)
                  (default_handlers_keep_inbox RescueAgentState show unit) (le_n 1))).
Defined.

Lemma puzzled_a_named : sender puzzled_a <> "".
Proof. discriminate. Qed.

Lemma agent_a_named : agent_id agent_a <> "".
Proof. discriminate. Qed.

Lemma not_understood_is_answered_in_kind_witness :
  performative puzzled_a = NOT_UNDERSTOOD /\
  sender puzzled_a <> "" /\ agent_id agent_b <> "" /\ agent_id agent_a <> "" /\
  exists a' reply b' reply',
    _process_message show (default_handlers show) puzzled_a agent_b = (a', None) /\
    outbox (domain a') = outbox (domain agent_b) ++ [reply] /\
    performative reply = NOT_UNDERSTOOD /\
    receiver reply = sender puzzled_a /\ sender reply = agent_id agent_b /\
    _process_message show (default_handlers show) reply agent_a = (b', None) /\
    outbox (domain b') = outbox (domain agent_a) ++ [reply'] /\
    performative reply' = NOT_UNDERSTOOD /\
    receiver reply' = agent_id agent_b /\ sender reply' = agent_id agent_a.
Proof.
  split; [reflexivity|].
  split; [exact puzzled_a_named|].
  split; [exact agent_b_named|].
  split; [exact agent_a_named|].
  exact (not_understood_is_answered_in_kind RescueAgentState show unit puzzled_a
           agent_b agent_a eq_refl puzzled_a_named agent_b_named agent_a_named).
Defined.

Lemma sending_ids_distinct :
  NoDup (map (fun a : @CommunicatingAgent RescueAgentState unit => agent_id a)
             [agent_a_sending; agent_b]).
Proof.
  change (NoDup ["agent_a"; "agent_b"]).
  constructor; [|constructor; [|constructor]].
  - intros [H|[]]. discriminate H.
  - intros [].
Qed.

Lemma sending_outboxes_short :
  Forall (fun a : @CommunicatingAgent RescueAgentState unit =>
            List.length (outbox (domain a)) <= 1)
         [agent_a_sending; agent_b].
Proof.
  constructor; [apply le_n|]. constructor; [apply le_0_n|]. constructor.
Qed.

Lemma route_messages_delivers_witness :
  NoDup (map (fun a : @CommunicatingAgent RescueAgentState unit => agent_id a)
             [agent_a_sending; agent_b]) /\
  Forall (fun a : @CommunicatingAgent RescueAgentState unit =>
            List.length (outbox (domain a)) <= 1)
         [agent_a_sending; agent_b] /\
  exists agents',
    route_messages show 1 [agent_a_sending; agent_b] = Some agents' /\
    map (fun a => agent_id a) agents'
    = map (fun a => agent_id a) [agent_a_sending; agent_b] /\
    Forall (fun a => outbox (domain a) = []) agents' /\
    map (fun a => inbox (domain a)) agents'
    = map (fun a =>
             inbox (domain a) ++
             addressed_to a
               (List.concat (map (fun b => outbox (domain b))
                                 [agent_a_sending; agent_b])))
          [agent_a_sending; agent_b].
Proof.
  split; [exact sending_ids_distinct|].
  split; [exact sending_outboxes_short|].
  exact (route_messages_delivers RescueAgentState show unit 1
           [agent_a_sending; agent_b] sending_ids_distinct sending_outboxes_short).
Defined.

Lemma move_toward_target_approaches_witness :
  target_location (domain scout) = Some (3, -2)%Z /\
  (current_location (domain scout) = (3, -2)%Z -> _move_toward_target show scout = scout) /\
  (current_location (domain scout) <> (3, -2)%Z ->
   grid_distance (current_location (domain (_move_toward_target show scout))) (3, -2)%Z
   = (grid_distance (current_location (domain scout)) (3, -2)%Z - 1)%Z /\
   (Z.abs (fst (current_location (domain (_move_toward_target show scout)))
           - fst (current_location (domain scout))) <= 1)%Z /\
   (Z.abs (snd (current_location (domain (_move_toward_target show scout)))
           - snd (current_location (domain scout))) <= 1)%Z /\
   exists line,
     execution_trace (_move_toward_target show scout) = execution_trace scout ++ [line]).
Proof.
  split; [reflexivity|].
  exact (move_toward_target_approaches RescueAgentState show scout (3, -2)%Z eq_refl).
Defined.

Lemma target_reached_exactly_witness :
  target_location (domain scout) = Some (3, -2)%Z /\
  (current_location (domain (calls 3 (_move_toward_target show) scout)) = (3, -2)%Z
   <-> (grid_distance (current_location (domain scout)) (3, -2)%Z <= Z.of_nat 3)%Z).
Proof.
  split; [reflexivity|].
  exact (target_reached_exactly RescueAgentState show 3 scout (3, -2)%Z eq_refl).
Defined.

Lemma field_b_named : agent_id field_b <> "".
Proof. discriminate. Qed.

Lemma request_gets_one_answer_witness :
  field_table REQUEST = Some (Field._handle_coordinator_request show) /\
  performative request_a = REQUEST /\
  agent_id field_b <> "" /\ sender request_a <> "" /\
  exists a' reply,
    _process_message show field_table request_a field_b = (a', None) /\
    Field.answered field_b a' request_a reply /\
    Field.is_answer (performative reply) /\
    (Field.current_mission (Field.fields a') <> Field.current_mission (Field.fields field_b) ->
     performative reply = AGREE /\
     Field.current_mission (Field.fields field_b) = None /\
     Field.coordinator_id (Field.fields a') = Some (sender request_a)).
Proof.
  split; [reflexivity|].
  split; [reflexivity|].
  split; [exact field_b_named|].
  split; [exact request_a_named|].
  exact (request_gets_one_answer show field_table request_a field_b eq_refl eq_refl
           field_b_named request_a_named).
Defined.

Lemma chief_agents : Coordinator.field_agents (Coordinator.fields chief)
                     = ["field_1"; "field_2"; "field_3"].
Proof. reflexivity. Qed.

Lemma chief_agents_distinct :
  NoDup (Coordinator.field_agents (Coordinator.fields chief)).
Proof.
  rewrite chief_agents.
  constructor; [|constructor; [|constructor; [|constructor]]].
  - intros [H|[H|[]]]; discriminate H.
  - intros [H|[]]. discriminate H.
  - intros [].
Qed.

Lemma chief_agents_named :
  Forall (fun id => id <> "") (Coordinator.field_agents (Coordinator.fields chief)).
Proof. rewrite chief_agents. repeat constructor; discriminate. Qed.

Lemma chief_named : agent_id chief <> "".
Proof. discriminate. Qed.

Lemma dispatch_requests_free_agents_witness :
  NoDup (Coordinator.field_agents (Coordinator.fields chief)) /\
  Forall (fun id => id <> "") (Coordinator.field_agents (Coordinator.fields chief)) /\
  agent_id chief <> "" /\
  get_or earthquake "required_agents" (PyInt 1) = PyInt 2 /\
  exists a' requests,
    Coordinator.dispatch_field_agents show earthquake chief = (a', None) /\
    outbox (domain a') = outbox (domain chief) ++ requests /\
    map receiver requests = firstn (Z.to_nat 2) (Coordinator.free_agents chief) /\
    Forall (fun r => performative r = REQUEST /\ sender r = agent_id chief /\
                     content r = Coordinator.investigation_request earthquake)
           requests /\
    map fst (Coordinator.active_missions (Coordinator.fields a'))
    = map fst (Coordinator.active_missions (Coordinator.fields chief))
      ++ firstn (Z.to_nat 2) (Coordinator.free_agents chief) /\
    current_state a'
    = match firstn (Z.to_nat 2) (Coordinator.free_agents chief) with
      | [] => Coordinator.COORDINATING
      | _ => Coordinator.MONITORING
      end /\
    state_history a' = state_history chief.
Proof.
  split; [exact chief_agents_distinct|].
  split; [exact chief_agents_named|].
  split; [exact chief_named|].
  split; [reflexivity|].
  exact (dispatch_requests_free_agents show earthquake 2 chief chief_agents_distinct
           chief_agents_named chief_named eq_refl).
Defined.

Lemma registered_agents_distinct_witness :
  NoDup (Coordinator.field_agents (Coordinator.fields coordinator)) /\
  NoDup (Coordinator.field_agents (Coordinator.fields chief)) /\
  (forall id, In id (Coordinator.field_agents (Coordinator.fields chief))
              <-> In id (Coordinator.field_agents (Coordinator.fields coordinator))
                  \/ In id field_ids) /\
  exists added,
    Coordinator.field_agents (Coordinator.fields chief)
    = Coordinator.field_agents (Coordinator.fields coordinator) ++ added.
Proof.
  split; [constructor|].
  exact (registered_agents_distinct field_ids coordinator (NoDup_nil string)).
Defined.

Lemma agreement_is_not_understood_witness :
  performative chief_request = REQUEST /\
  content chief_request = Coordinator.investigation_request earthquake /\
  sender chief_request = agent_id chief /\
  agent_id chief <> "" /\ agent_id field_b <> "" /\
  Field.current_mission (Field.fields field_b) = None /\
  exists f' agree c' puzzled f'' puzzled',
    _process_message show (Field.field_handlers show) chief_request field_b
    = (f', None) /\
    outbox (domain f') = outbox (domain field_b) ++ [agree] /\
    performative agree = AGREE /\ receiver agree = agent_id chief /\
    Field.current_mission (Field.fields f') <> None /\
    Field.target_location (Field.fields f') = get_or earthquake "location" PyNone /\
    _process_message show (Coordinator.coordinator_handlers show) agree chief
    = (c', None) /\
    outbox (domain c') = outbox (domain chief) ++ [puzzled] /\
    performative puzzled = NOT_UNDERSTOOD /\ receiver puzzled = agent_id field_b /\
    _process_message show (Field.field_handlers show) puzzled f' = (f'', None) /\
    outbox (domain f'') = outbox (domain f') ++ [puzzled'] /\
    performative puzzled' = NOT_UNDERSTOOD /\ receiver puzzled' = agent_id chief.
Proof.
  split; [reflexivity|].
  split; [reflexivity|].
  split; [reflexivity|].
  split; [exact chief_named|].
  split; [exact field_b_named|].
  split; [reflexivity|].
  exact (agreement_is_not_understood show earthquake chief_request field_b chief
           eq_refl eq_refl eq_refl chief_named field_b_named eq_refl).
Defined.
